(** * Exameye: violation / exam linkage and the single-tab detector

    A shallow embedding of

    - the migration that installs the trigger function
      [validate_violation_exam_student_consistency], the repair function
      [fix_violations_exam_links] and the materialized view
      [violations_by_exam_student];
    - the data-fix migration 20251120000001 (set-based backfill);
    - [checkSingleTab], its handlers and timer callbacks, its [cleanup]
      closure and the unmount effect of [CompatibilityCheck.tsx];
    - the sentence check of the audio calibration ([normalizeText],
      [wordMatchRatio]) and the overall status of the same page;
    - the migration that adds roll_no to public.students.

    Tables are lists of rows in heap order.  SQL NULL is [None], SQL
    conditions are three-valued, PL/pgSQL exceptions are the [Raise] branch
    of [result]. *)

From Stdlib Require Import List ZArith Bool String Ascii Lia Permutation.
From Stdlib Require Import DecimalString.
From Corelib Require PrimFloat.
Import ListNotations.
Local Open Scope Z_scope.

Set Implicit Arguments.

(* ================================================================== *)
(** ** SQL values and three-valued logic *)
(* ================================================================== *)

Module Sql.

(** A SQL boolean: [None] is NULL (unknown). *)
Definition tv := option bool.

Definition and3 (a b : tv) : tv :=
  match a, b with
  | Some false, _ | _, Some false => Some false
  | Some true, Some true => Some true
  | _, _ => None
  end.

Definition or3 (a b : tv) : tv :=
  match a, b with
  | Some true, _ | _, Some true => Some true
  | Some false, Some false => Some false
  | _, _ => None
  end.

(** A WHERE clause, a join condition, IF and CASE WHEN accept a row only
    when the condition is TRUE; NULL counts as not accepted. *)
Definition is_true (a : tv) : bool :=
  match a with Some true => true | _ => false end.

Definition is_null {A} (x : option A) : bool :=
  match x with None => true | Some _ => false end.

Definition is_not_null {A} (x : option A) : bool := negb (is_null x).

Definition coalesce {A} (x : option A) (d : A) : A :=
  match x with Some a => a | None => d end.

(** [x = y] on nullable integers (uuid and timestamptz columns). *)
Definition eq3 (x y : option Z) : tv :=
  match x, y with
  | Some a, Some b => Some (a =? b)
  | _, _ => None
  end.

(** [x <= y] and [x >= y]. *)
Definition le3 (x y : option Z) : tv :=
  match x, y with
  | Some a, Some b => Some (a <=? b)
  | _, _ => None
  end.

Definition ge3 (x y : option Z) : tv := le3 y x.

(** [LIMIT 1] *)
Definition limit1 {A} (rows : list A) : list A := firstn 1 rows.

(** A scalar subquery that a [LIMIT 1] bounds: the value of its only
    row, NULL when there is none. *)
Definition scalar {A} (rows : list (option A)) : option A :=
  match rows with
  | [] => None
  | x :: _ => x
  end.

(** [SELECT col INTO target]: PL/pgSQL assigns the first row, NULL when
    the query returns no row. *)
Definition select_into {A} (rows : list (option A)) : option A :=
  scalar rows.

End Sql.
Import Sql.

(* ================================================================== *)
(** ** ORDER BY *)
(* ================================================================== *)

Module OrderBy.

Definition ordering (A : Type) := A -> A -> comparison.

(** [ORDER BY key ASC] *)
Definition asc {A} (key : A -> Z) : ordering A :=
  fun a b => key a ?= key b.

(** [ORDER BY key DESC] on a column that holds no NULL. *)
Definition desc {A} (key : A -> Z) : ordering A :=
  fun a b => key b ?= key a.

(** [ORDER BY key DESC NULLS LAST] *)
Definition desc_nulls_last {A} (key : A -> option Z) : ordering A :=
  fun a b =>
    match key a, key b with
    | Some x, Some y => y ?= x
    | Some _, None => Lt
    | None, Some _ => Gt
    | None, None => Eq
    end.

(** [ORDER BY o1, o2] *)
Definition then_by {A} (o1 o2 : ordering A) : ordering A :=
  fun a b => match o1 a b with Eq => o2 a b | c => c end.

(** [sorts_before o a b]: [a] may come before [b] in the output. *)
Definition sorts_before {A} (o : ordering A) (a b : A) : Prop := o a b <> Gt.

(** The sort is stable: among rows the ordering does not separate, heap
    order is kept.  PostgreSQL promises no order among such rows; what is
    proved below about the first row holds for any choice among them. *)
Fixpoint insert_by {A} (o : ordering A) (r : A) (sorted : list A) : list A :=
  match sorted with
  | [] => [r]
  | s :: rest =>
      match o r s with
      | Gt => s :: insert_by o r rest
      | _ => r :: sorted
      end
  end.

Fixpoint order_by {A} (o : ordering A) (rows : list A) : list A :=
  match rows with
  | [] => []
  | r :: rest => insert_by o r (order_by o rest)
  end.

Class TotalPreorder {A} (o : ordering A) : Prop := {
  ord_flip : forall a b, o b a = CompOpp (o a b);
  ord_trans : forall a b c, o a b <> Gt -> o b c <> Gt -> o a c <> Gt
}.

End OrderBy.
Import OrderBy.

(* ================================================================== *)
(** ** Errors *)
(* ================================================================== *)

(** A uuid and a timestamptz are integers: only equality and order are
    used on them. *)
Abbreviation uuid := Z (only parsing).
Abbreviation timestamptz := Z (only parsing).

(** What a statement can raise.  [LinkageMismatch student exam] is the
    trigger's RAISE EXCEPTION 'Violation student_id (%) does not match the
    student_id of exam (%)'; [cardinality_violation] is PostgreSQL's "more
    than one row returned by a subquery used as an expression";
    [unique_violation] is a primary key refusing a duplicate id. *)
Inductive pg_error : Type :=
| LinkageMismatch (student_id exam_id : uuid)
| cardinality_violation
| unique_violation.

Inductive result (A : Type) : Type :=
| Ok (a : A)
| Raise (e : pg_error).
Arguments Ok {A} a.
Arguments Raise {A} e.

Definition bind {A B} (c : result A) (k : A -> result B) : result B :=
  match c with
  | Ok a => k a
  | Raise e => Raise e
  end.

Declare Scope pg_scope.
Delimit Scope pg_scope with pg.
Notation "x <- c ;; k" := (bind c (fun x => k))
  (at level 61, c at next level, right associativity) : pg_scope.
Notation "' pat <- c ;; k" := (bind c (fun x => match x with pat => k end))
  (at level 61, pat pattern, c at next level, right associativity) : pg_scope.
Local Open Scope pg_scope.

(* ================================================================== *)
(** ** Tables *)
(* ================================================================== *)

(** The CREATE TABLE statements of [exams], [students], [exam_templates]
    and [violations] are not part of the migrations embedded here; the
    columns below are the ones these migrations read and write.  The [id]
    columns are the primary keys ([compatibility_checks] and
    [exam_active_sessions] declare REFERENCES public.exams(id) and
    public.students(id)); [created_at] and [violations.timestamp] are taken
    as NOT NULL, every other column as nullable. *)

Record exam : Type := mk_exam {
  e_id : uuid;
  e_student_id : option uuid;
  e_started_at : option timestamptz;
  e_completed_at : option timestamptz;
  e_created_at : timestamptz;
  e_status : option string;
  e_subject_code : option string;
  e_exam_template_id : option uuid
}.

Record student : Type := mk_student {
  s_id : uuid;
  s_name : option string;
  s_student_id : option string
}.

Record exam_template : Type := mk_exam_template {
  et_id : uuid;
  et_subject_code : option string;
  et_subject_name : option string
}.

Record violation : Type := mk_violation {
  v_id : uuid;
  v_exam_id : option uuid;
  v_student_id : option uuid;
  v_violation_type : option string;
  v_timestamp : timestamptz
}.

Record database : Type := mk_database {
  exams : list exam;
  students : list student;
  exam_templates : list exam_template;
  violations : list violation
}.

Definition set_exam_id (v : violation) (x : option uuid) : violation :=
  mk_violation (v_id v) x (v_student_id v) (v_violation_type v) (v_timestamp v).

Definition set_student_id (v : violation) (x : option uuid) : violation :=
  mk_violation (v_id v) (v_exam_id v) x (v_violation_type v) (v_timestamp v).

Definition with_violations (db : database) (vs : list violation) : database :=
  mk_database (exams db) (students db) (exam_templates db) vs.

Definition with_exams (db : database) (es : list exam) : database :=
  mk_database es (students db) (exam_templates db) (violations db).

(** Primary keys. *)
Definition exams_pkey (es : list exam) : Prop := NoDup (map e_id es).
Definition violations_pkey (vs : list violation) : Prop := NoDup (map v_id vs).

(** [ExamSession[examId]] *)
Definition lookup_exam (es : list exam) (id : uuid) : option exam :=
  find (fun e => e_id e =? id) es.

(* ================================================================== *)
(** ** The trigger function (Linkage Validator) *)
(* ================================================================== *)

(** EXISTS (SELECT 1 FROM public.exams
            WHERE id = NEW.exam_id AND student_id = NEW.student_id) *)
Definition exam_of_student (es : list exam) (exam_id student_id : option uuid)
  : bool :=
  existsb (fun e => is_true (and3 (eq3 (Some (e_id e)) exam_id)
                                  (eq3 (e_student_id e) student_id))) es.

(** SELECT student_id FROM public.exams WHERE id = NEW.exam_id *)
Definition exam_student_rows (es : list exam) (exam_id : option uuid)
  : list (option uuid) :=
  map e_student_id
      (filter (fun e => is_true (eq3 (Some (e_id e)) exam_id)) es).

(** status IN ('in_progress', 'completed') *)
Definition status_in_progress_or_completed (e : exam) : tv :=
  match e_status e with
  | Some s => Some ((s =? "in_progress")%string || (s =? "completed")%string)
  | None => None
  end.

(** ORDER BY started_at DESC NULLS LAST, created_at DESC *)
Definition most_recently_started : ordering exam :=
  then_by (desc_nulls_last e_started_at) (desc e_created_at).

(** SELECT id FROM public.exams
    WHERE student_id = NEW.student_id
    AND status IN ('in_progress', 'completed')
    ORDER BY started_at DESC NULLS LAST, created_at DESC
    LIMIT 1 *)
Definition resolve_candidate (student_id : option uuid) (e : exam) : bool :=
  is_true (and3 (eq3 (e_student_id e) student_id)
                (status_in_progress_or_completed e)).

Definition resolve_exam_rows (es : list exam) (student_id : option uuid)
  : list exam :=
  limit1 (order_by most_recently_started
                   (filter (resolve_candidate student_id) es)).

Definition resolve_exam (es : list exam) (student_id : option uuid)
  : option uuid :=
  select_into (map (fun e => Some (e_id e)) (resolve_exam_rows es student_id)).

Definition validate_violation_exam_student_consistency
    (es : list exam) (NEW : violation) : result violation :=
  (* If both exam_id and student_id are provided, ensure they match *)
  _ <- match v_exam_id NEW, v_student_id NEW with
       | Some exam_id, Some student_id =>
           if negb (exam_of_student es (Some exam_id) (Some student_id))
           then Raise (LinkageMismatch student_id exam_id)
           else Ok tt
       | _, _ => Ok tt
       end ;;
  (* exam_id provided, student_id not: populate student_id from the exam *)
  let NEW :=
    if is_not_null (v_exam_id NEW) && is_null (v_student_id NEW)
    then set_student_id NEW
           (select_into (exam_student_rows es (v_exam_id NEW)))
    else NEW in
  (* student_id provided, exam_id not: most recent exam of the student *)
  let NEW :=
    if is_null (v_exam_id NEW) && is_not_null (v_student_id NEW)
    then set_exam_id NEW (resolve_exam es (v_student_id NEW))
    else NEW in
  Ok NEW.

(* ================================================================== *)
(** ** Statements on [violations] *)
(* ================================================================== *)

(** UPDATE public.violations SET ... WHERE ...
    For each row the WHERE accepts, NEW is built from the SET list and
    passed to the BEFORE UPDATE trigger; what the trigger returns replaces
    the row.  The result is the new table and the row count.  An exception
    aborts the statement. *)
Fixpoint update_violations (es : list exam)
    (where_ : violation -> bool) (set_ : violation -> result violation)
    (rows : list violation) : result (list violation * nat) :=
  match rows with
  | [] => Ok ([], 0%nat)
  | r :: rest =>
      if where_ r then
        NEW <- set_ r ;;
        NEW <- validate_violation_exam_student_consistency es NEW ;;
        '(rest', n) <- update_violations es where_ set_ rest ;;
        Ok (NEW :: rest', S n)
      else
        '(rest', n) <- update_violations es where_ set_ rest ;;
        Ok (r :: rest', n)
  end.

(** PL/pgSQL's FOUND after an UPDATE: at least one row was affected. *)
Definition FOUND (row_count : nat) : bool := negb (Nat.eqb row_count 0).

Fixpoint distinct_ids (ids : list uuid) : bool :=
  match ids with
  | [] => true
  | i :: rest => negb (existsb (Z.eqb i) rest) && distinct_ids rest
  end.

(** INSERT INTO public.violations VALUES (NEW): BEFORE INSERT trigger, then
    the primary key. *)
Definition insert_violation (db : database) (NEW : violation)
  : result database :=
  NEW <- validate_violation_exam_student_consistency (exams db) NEW ;;
  if existsb (fun v => v_id v =? v_id NEW) (violations db)
  then Raise unique_violation
  else Ok (with_violations db (violations db ++ [NEW])).

(** UPDATE public.violations SET ... WHERE ... issued by a client. *)
Definition update_violation (db : database)
    (where_ : violation -> bool) (set_ : violation -> violation)
  : result database :=
  '(vs, _) <- update_violations (exams db) where_ (fun r => Ok (set_ r))
                                (violations db) ;;
  if distinct_ids (map v_id vs)
  then Ok (with_violations db vs)
  else Raise unique_violation.

(** INSERT INTO public.exams *)
Definition insert_exam (db : database) (e : exam) : result database :=
  if existsb (fun x => e_id x =? e_id e) (exams db)
  then Raise unique_violation
  else Ok (with_exams db (exams db ++ [e])).

(** A session-lifecycle transition: status, started_at and completed_at of
    one exam change; id and student_id do not. *)
Definition exam_transition (db : database) (id : uuid)
    (status : option string) (started_at completed_at : option timestamptz)
  : database :=
  with_exams db
    (map (fun e =>
            if e_id e =? id
            then mk_exam (e_id e) (e_student_id e) started_at completed_at
                         (e_created_at e) status (e_subject_code e)
                         (e_exam_template_id e)
            else e)
         (exams db)).

(** Invariant I1 on one row and on the table. *)
Definition linked (es : list exam) (v : violation) : Prop :=
  forall exam_id student_id,
    v_exam_id v = Some exam_id -> v_student_id v = Some student_id ->
    exists e, lookup_exam es exam_id = Some e /\
              e_student_id e = Some student_id.

Definition I1 (db : database) : Prop :=
  forall v, In v (violations db) -> linked (exams db) v.

(* ================================================================== *)
(** ** fix_violations_exam_links (Reconciliation Job) *)
(* ================================================================== *)

(** v_record.timestamp >= e.started_at
    AND v_record.timestamp <= COALESCE(e.completed_at, NOW()) *)
Definition active_around (now : timestamptz) (v_record : violation) (e : exam)
  : tv :=
  and3 (ge3 (Some (v_timestamp v_record)) (e_started_at e))
       (le3 (Some (v_timestamp v_record))
            (Some (coalesce (e_completed_at e) now))).

(** SELECT id FROM public.exams WHERE student_id = v_record.student_id
    ORDER BY created_at DESC LIMIT 1 *)
Definition latest_created_exam (es : list exam) (student_id : option uuid)
  : option uuid :=
  scalar (map (fun e => Some (e_id e))
           (limit1 (order_by (desc e_created_at)
              (filter (fun e => is_true (eq3 (e_student_id e) student_id))
                      es)))).

(** The WHERE of the backfill subquery. *)
Definition backfill_where (now : timestamptz) (es : list exam)
    (v_record : violation) (e : exam) : bool :=
  is_true
    (and3 (eq3 (e_student_id e) (v_student_id v_record))
          (or3 (active_around now v_record e)
               (and3 (Some (is_null (e_started_at e)))
                     (eq3 (Some (e_id e))
                          (latest_created_exam es (v_student_id v_record)))))).

(** CASE WHEN (active around the violation time) THEN 1 ELSE 2 END *)
Definition backfill_rank (now : timestamptz) (v_record : violation) (e : exam)
  : Z :=
  if is_true (active_around now v_record e) then 1 else 2.

(** ORDER BY CASE ... END, e.started_at DESC NULLS LAST *)
Definition backfill_order (now : timestamptz) (v_record : violation)
  : ordering exam :=
  then_by (asc (backfill_rank now v_record)) (desc_nulls_last e_started_at).

Definition backfill_rows (now : timestamptz) (es : list exam)
    (v_record : violation) : list exam :=
  limit1 (order_by (backfill_order now v_record)
                   (filter (backfill_where now es v_record) es)).

(** The scalar subquery assigned to exam_id. *)
Definition backfill_exam (now : timestamptz) (es : list exam)
    (v_record : violation) : option uuid :=
  scalar (map (fun e => Some (e_id e)) (backfill_rows now es v_record)).

(** WHERE v.exam_id IS NULL AND v.student_id IS NOT NULL *)
Definition missing_exam (v : violation) : bool :=
  is_null (v_exam_id v) && is_not_null (v_student_id v).

(** The cursor of the first loop; a cursor row carries the columns the
    SELECT list names (id, student_id, timestamp), the loop body reads no
    other. *)
Definition backfill_cursor (vs : list violation) : list violation :=
  order_by (desc v_timestamp) (filter missing_exam vs).

Fixpoint backfill_loop (now : timestamptz) (es : list exam)
    (cursor : list violation) (vs : list violation) (v_fixed v_skipped : Z)
  : result (list violation * Z * Z) :=
  match cursor with
  | [] => Ok (vs, v_fixed, v_skipped)
  | v_record :: cursor' =>
      '(vs', row_count) <-
        update_violations es
          (fun r => (v_id r =? v_id v_record) && is_null (v_exam_id r))
          (fun r => Ok (set_exam_id r (backfill_exam now es v_record)))
          vs ;;
      if FOUND row_count
      then backfill_loop now es cursor' vs' (v_fixed + 1) v_skipped
      else backfill_loop now es cursor' vs' v_fixed (v_skipped + 1)
  end.

(** WHERE v.exam_id IS NOT NULL AND v.student_id IS NOT NULL
    AND NOT EXISTS (SELECT 1 FROM public.exams e
                    WHERE e.id = v.exam_id AND e.student_id = v.student_id) *)
Definition mismatched (es : list exam) (v : violation) : bool :=
  is_not_null (v_exam_id v) && is_not_null (v_student_id v)
  && negb (exam_of_student es (v_exam_id v) (v_student_id v)).

(** (SELECT student_id FROM public.exams WHERE id = ...) used as an
    expression: no LIMIT, so a second row is an error. *)
Definition exam_owner (es : list exam) (exam_id : option uuid)
  : result (option uuid) :=
  match exam_student_rows es exam_id with
  | [] => Ok None
  | [x] => Ok x
  | _ => Raise cardinality_violation
  end.

(** The cursor of the second loop (no ORDER BY: heap order). *)
Definition repair_cursor (es : list exam) (vs : list violation)
  : list violation :=
  filter (mismatched es) vs.

Fixpoint repair_loop (es : list exam)
    (cursor : list violation) (vs : list violation) (v_fixed : Z)
  : result (list violation * Z) :=
  match cursor with
  | [] => Ok (vs, v_fixed)
  | v_record :: cursor' =>
      '(vs', row_count) <-
        update_violations es
          (fun r => v_id r =? v_id v_record)
          (fun r => owner <- exam_owner es (v_exam_id v_record) ;;
                    Ok (set_student_id r owner))
          vs ;;
      repair_loop es cursor' vs'
                  (if FOUND row_count then v_fixed + 1 else v_fixed)
  end.

(** The counters are PL/pgSQL INTEGERs; together they count at most twice
    the rows of the table, taken to stay below 2^31. *)
Definition fix_violations_exam_links (now : timestamptz) (db : database)
  : result (database * (Z * Z)) :=
  let es := exams db in
  '(vs1, v_fixed, v_skipped) <-
    backfill_loop now es (backfill_cursor (violations db)) (violations db)
                  0 0 ;;
  '(vs2, v_fixed) <- repair_loop es (repair_cursor es vs1) vs1 v_fixed ;;
  Ok (with_violations db vs2, (v_fixed, v_skipped)).

(* ================================================================== *)
(** ** Sequences of writes *)
(* ================================================================== *)

(** What clients and jobs do to the two tables: exam creation, exam
    life-cycle transitions, violation INSERT and UPDATE, and a call of the
    repair function. *)
Inductive command : Type :=
| CreateExam (e : exam)
| ExamTransition (id : uuid) (status : option string)
                 (started_at completed_at : option timestamptz)
| InsertViolation (NEW : violation)
| UpdateViolation (where_ : violation -> bool) (set_ : violation -> violation)
| Reconcile (now : timestamptz).

Definition exec (db : database) (c : command) : result database :=
  match c with
  | CreateExam e => insert_exam db e
  | ExamTransition id st sa ca => Ok (exam_transition db id st sa ca)
  | InsertViolation NEW => insert_violation db NEW
  | UpdateViolation where_ set_ => update_violation db where_ set_
  | Reconcile now =>
      '(db', _) <- fix_violations_exam_links now db ;; Ok db'
  end.

(** A statement that raises leaves the database as it was. *)
Definition commit (db : database) (c : command) : database :=
  match exec db c with
  | Ok db' => db'
  | Raise _ => db
  end.

Definition run (db : database) (cs : list command) : database :=
  fold_left commit cs db.

(** *** Migration 20251120000001: the same repairs as single UPDATEs *)

(** Step 1; the result carries ROW_COUNT. *)
Definition fix_missing_exam_id (now : timestamptz) (db : database)
  : result (database * nat) :=
  '(vs, n) <-
    update_violations (exams db) missing_exam
      (fun v => Ok (set_exam_id v (backfill_exam now (exams db) v)))
      (violations db) ;;
  Ok (with_violations db vs, n).

(** Step 2 *)
Definition fix_mismatched_student_id (db : database)
  : result (database * nat) :=
  '(vs, n) <-
    update_violations (exams db) (mismatched (exams db))
      (fun v => owner <- exam_owner (exams db) (v_exam_id v) ;;
                Ok (set_student_id v owner))
      (violations db) ;;
  Ok (with_violations db vs, n).

(** *** The backfill choice as the specification words it

    Every exam of the student is a candidate: rank 1 when its window holds
    the violation timestamp, rank 2 otherwise, then started_at descending
    with nulls last.  Compared with [backfill_exam] below. *)
Definition specified_backfill_exam (now : timestamptz) (es : list exam)
    (v : violation) : option uuid :=
  scalar (map (fun e => Some (e_id e))
           (limit1 (order_by (backfill_order now v)
              (filter (fun e => is_true (eq3 (e_student_id e) (v_student_id v)))
                      es)))).

(* ================================================================== *)
(** ** violations_by_exam_student (Aggregation View) *)
(* ================================================================== *)

(** One row of the FROM clause before grouping. *)
Record joined : Type := mk_joined {
  j_e : exam;
  j_s : student;
  j_et : option exam_template;
  j_v : option violation
}.

(** INNER JOIN public.students s ON e.student_id = s.id *)
Definition on_student (e : exam) (s : student) : bool :=
  is_true (eq3 (e_student_id e) (Some (s_id s))).

(** LEFT JOIN public.exam_templates et ON e.exam_template_id = et.id *)
Definition on_template (e : exam) (et : exam_template) : bool :=
  is_true (eq3 (e_exam_template_id e) (Some (et_id et))).

(** LEFT JOIN public.violations v
    ON v.exam_id = e.id AND v.student_id = e.student_id *)
Definition on_violation (e : exam) (v : violation) : bool :=
  is_true (and3 (eq3 (v_exam_id v) (Some (e_id e)))
                (eq3 (v_student_id v) (e_student_id e))).

(** The right side of a LEFT JOIN for one left row: the matching rows, or
    one all-NULL row when nothing matches. *)
Definition left_join {B} (on : B -> bool) (bs : list B) : list (option B) :=
  match filter on bs with
  | [] => [None]
  | matched => map Some matched
  end.

Definition from_clause (db : database) : list joined :=
  flat_map (fun e =>
    flat_map (fun s =>
      flat_map (fun et =>
        map (fun v => mk_joined e s et v)
            (left_join (on_violation e) (violations db)))
        (left_join (on_template e) (exam_templates db)))
      (filter (on_student e) (students db)))
    (exams db).

(** GROUP BY e.id, e.student_id, s.name, s.student_id, e.subject_code,
    et.subject_code, et.subject_name *)
Record group_key : Type := mk_group_key {
  g_id : uuid;
  g_student_id : option uuid;
  g_name : option string;
  g_student_identifier : option string;
  g_subject_code : option string;
  g_et_subject_code : option string;
  g_et_subject_name : option string
}.

Definition group_key_eq_dec (a b : group_key) : {a = b} + {a <> b}.
Proof. repeat decide equality. Defined.

Definition option_bind {A B} (x : option A) (f : A -> option B) : option B :=
  match x with Some a => f a | None => None end.

Definition key_of (j : joined) : group_key :=
  mk_group_key (e_id (j_e j)) (e_student_id (j_e j))
               (s_name (j_s j)) (s_student_id (j_s j))
               (e_subject_code (j_e j))
               (option_bind (j_et j) et_subject_code)
               (option_bind (j_et j) et_subject_name).

Definition in_group (k : group_key) (j : joined) : bool :=
  if group_key_eq_dec (key_of j) k then true else false.

Definition group_by (rows : list joined) : list (group_key * list joined) :=
  map (fun k => (k, filter (in_group k) rows))
      (nodup group_key_eq_dec (map key_of rows)).

(** The violations of a group: the rows whose v side is not the all-NULL
    row of the LEFT JOIN. *)
Fixpoint group_violations (rows : list joined) : list violation :=
  match rows with
  | [] => []
  | j :: rest =>
      match j_v j with
      | Some v => v :: group_violations rest
      | None => group_violations rest
      end
  end.

Fixpoint not_null_values {A} (xs : list (option A)) : list A :=
  match xs with
  | [] => []
  | Some x :: rest => x :: not_null_values rest
  | None :: rest => not_null_values rest
  end.

(** MIN and MAX: NULL over no row. *)
Definition agg_min (xs : list Z) : option Z :=
  match xs with
  | [] => None
  | x :: rest => Some (fold_left Z.min rest x)
  end.

Definition agg_max (xs : list Z) : option Z :=
  match xs with
  | [] => None
  | x :: rest => Some (fold_left Z.max rest x)
  end.

(** ARRAY_AGG(DISTINCT x) FILTER (WHERE x IS NOT NULL): NULL over no row;
    the order of the elements is not part of the model. *)
Definition array_agg_distinct (xs : list (option string))
  : option (list string) :=
  match not_null_values xs with
  | [] => None
  | ys => Some (nodup string_dec ys)
  end.

Record rollup : Type := mk_rollup {
  r_exam_id : uuid;
  r_student_id : option uuid;
  r_student_name : option string;
  r_student_identifier : option string;
  r_subject_code : option string;
  r_subject_name : option string;
  violation_count : Z;
  violation_types : option (list string);
  first_violation : option timestamptz;
  last_violation : option timestamptz
}.

Definition aggregate (g : group_key * list joined) : rollup :=
  let (k, rows) := g in
  let vs := group_violations rows in
  mk_rollup (g_id k) (g_student_id k) (g_name k) (g_student_identifier k)
            (match g_et_subject_code k with
             | Some c => Some c
             | None => g_subject_code k
             end)
            (g_et_subject_name k)
            (Z.of_nat (List.length vs))
            (array_agg_distinct (map v_violation_type vs))
            (agg_min (map v_timestamp vs))
            (agg_max (map v_timestamp vs)).

Definition violations_by_exam_student (db : database) : list rollup :=
  map aggregate (group_by (from_clause db)).

(* ================================================================== *)
(** ** checkSingleTab (Tab-Liveness Detector) *)
(* ================================================================== *)

Module Detector.

Local Open Scope nat_scope.

Inductive StepStatus : Type := idle | running | success | error.

Record StepState : Type := mk_step {
  status : StepStatus;
  message : option string;
  value : option nat
}.

(** The functions checkSingleTab hands to setInterval and setTimeout. *)
Inductive callback : Type :=
| post_heartbeat
| post_count_request
| storageUpdate
| initialCheck
| continuousCheck.

(** A scheduled timer of the window: its handle, whether it repeats
    (setInterval) or fires once (setTimeout), its delay in milliseconds, the
    callback, and the tabId of the checkSingleTab call that created it. *)
Record timer : Type := mk_timer {
  t_handle : nat;
  t_repeat : bool;
  t_delay : nat;
  t_callback : callback;
  t_tab : nat
}.

(** What the [cleanup] closure of one call captures. *)
Record closure : Type := mk_closure {
  c_initialCheckTimeout : nat;
  c_heartbeatInterval : nat;
  c_requestInterval : nat;
  c_storageInterval : nat;
  c_continuousCheckInterval : nat;
  c_storageEventHandler : nat;
  c_channel : nat
}.

Record channel : Type := mk_channel {
  ch_handle : nat;
  ch_name : string;
  ch_closed : bool;
  ch_onmessage : option nat;
  ch_cleanup : option closure
}.

(** The window and the component: timers, 'storage' listeners (each named
    by the tabId of its closure), BroadcastChannel objects, the
    'exam-tab-check-value' slot of localStorage (the tabId it holds), the
    two refs and the step states. *)
Record page : Type := mk_page {
  has_BroadcastChannel : bool;
  next_handle : nat;
  timers : list timer;
  storage_listeners : list nat;
  channels : list channel;
  localStorage_slot : option nat;
  tabCheckChannelRef : option nat;
  tabCheckIntervalRef : option nat;
  singleTabCheck : StepState;
  systemInfo : StepState;
  networkTest : StepState;
  screenShare : StepState;
  audioCalibration : StepState;
  lightingCheck : StepState
}.

Definition M (A : Type) : Type := page -> A * page.

Definition ret {A} (a : A) : M A := fun p => (a, p).

Definition seq {A B} (c : M A) (k : A -> M B) : M B :=
  fun p => let (a, p') := c p in k a p'.

Declare Scope js_scope.
Delimit Scope js_scope with js.
Notation "x <- c ;; k" := (seq c (fun x => k))
  (at level 61, c at next level, right associativity) : js_scope.
Notation "c ;; k" := (seq c (fun _ => k))
  (at level 61, right associativity) : js_scope.
Local Open Scope js_scope.

Definition read {A} (f : page -> A) : M A := fun p => (f p, p).
Definition modify (f : page -> page) : M unit := fun p => (tt, f p).
Definition exec {A} (c : M A) (p : page) : page := snd (c p).

Definition with_window (p : page) (n : nat) (ts : list timer)
    (ls : list nat) (cs : list channel) (slot : option nat) : page :=
  mk_page (has_BroadcastChannel p) n ts ls cs slot
          (tabCheckChannelRef p) (tabCheckIntervalRef p) (singleTabCheck p)
          (systemInfo p) (networkTest p) (screenShare p)
          (audioCalibration p) (lightingCheck p).

Definition with_component (p : page) (ch it : option nat) (st : StepState)
  : page :=
  mk_page (has_BroadcastChannel p) (next_handle p) (timers p)
          (storage_listeners p) (channels p) (localStorage_slot p)
          ch it st
          (systemInfo p) (networkTest p) (screenShare p)
          (audioCalibration p) (lightingCheck p).

(** Timer handles, channel objects and tabIds are named from one counter
    of the page; a tabId stands for
    `tab-${Date.now()}-${Math.random()...}`. *)
Definition fresh : M nat :=
  fun p => (next_handle p,
            with_window p (S (next_handle p)) (timers p)
                        (storage_listeners p) (channels p)
                        (localStorage_slot p)).

Definition set_timers (ts : list timer) : M unit :=
  modify (fun p => with_window p (next_handle p) ts (storage_listeners p)
                               (channels p) (localStorage_slot p)).

Definition set_listeners (ls : list nat) : M unit :=
  modify (fun p => with_window p (next_handle p) (timers p) ls
                               (channels p) (localStorage_slot p)).

Definition set_channels (cs : list channel) : M unit :=
  modify (fun p => with_window p (next_handle p) (timers p)
                               (storage_listeners p) cs (localStorage_slot p)).

Definition set_slot (slot : option nat) : M unit :=
  modify (fun p => with_window p (next_handle p) (timers p)
                               (storage_listeners p) (channels p) slot).

Definition set_tabCheckChannelRef (x : option nat) : M unit :=
  modify (fun p => with_component p x (tabCheckIntervalRef p)
                                  (singleTabCheck p)).

Definition set_tabCheckIntervalRef (x : option nat) : M unit :=
  modify (fun p => with_component p (tabCheckChannelRef p) x
                                  (singleTabCheck p)).

Definition setSingleTabCheck (st : StepState) : M unit :=
  modify (fun p => with_component p (tabCheckChannelRef p)
                                  (tabCheckIntervalRef p) st).

(** setInterval / setTimeout *)
Definition schedule (repeat : bool) (cb : callback) (delay tab : nat)
  : M nat :=
  h <- fresh ;;
  ts <- read timers ;;
  set_timers (ts ++ [mk_timer h repeat delay cb tab]) ;;
  ret h.

Definition setInterval := schedule true.
Definition setTimeout := schedule false.

(** clearInterval and clearTimeout share one pool of handles; clearing a
    handle that is not scheduled does nothing. *)
Definition clearTimer (h : nat) : M unit :=
  ts <- read timers ;;
  set_timers (filter (fun t => negb (t_handle t =? h)) ts).

Definition clearInterval := clearTimer.
Definition clearTimeout := clearTimer.

(** window.addEventListener('storage', h) / removeEventListener *)
Definition addStorageListener (tab : nat) : M unit :=
  ls <- read storage_listeners ;;
  set_listeners (ls ++ [tab]).

Definition removeStorageListener (tab : nat) : M unit :=
  ls <- read storage_listeners ;;
  set_listeners (filter (fun l => negb (l =? tab)) ls).

Definition update_channel (h : nat) (f : channel -> channel) : M unit :=
  cs <- read channels ;;
  set_channels (map (fun c => if ch_handle c =? h then f c else c) cs).

(** new BroadcastChannel(name) *)
Definition new_BroadcastChannel (name : string) : M nat :=
  h <- fresh ;;
  cs <- read channels ;;
  set_channels (cs ++ [mk_channel h name false None None]) ;;
  ret h.

(** channel.close() *)
Definition close (h : nat) : M unit :=
  update_channel h (fun c =>
    mk_channel (ch_handle c) (ch_name c) true (ch_onmessage c) (ch_cleanup c)).

(** channel.onmessage = handler *)
Definition set_onmessage (h : nat) (handler : option nat) : M unit :=
  update_channel h (fun c =>
    mk_channel (ch_handle c) (ch_name c) (ch_closed c) handler (ch_cleanup c)).

(** (channel as any).cleanup = cleanup *)
Definition set_cleanup (h : nat) (cl : closure) : M unit :=
  update_channel h (fun c =>
    mk_channel (ch_handle c) (ch_name c) (ch_closed c) (ch_onmessage c)
               (Some cl)).

Definition find_channel (h : nat) : M (option channel) :=
  cs <- read channels ;;
  ret (find (fun c => ch_handle c =? h) cs).

(** The [cleanup] closure created by one call of checkSingleTab. *)
Definition cleanup (cl : closure) : M unit :=
  clearTimeout (c_initialCheckTimeout cl) ;;
  clearInterval (c_heartbeatInterval cl) ;;
  clearInterval (c_requestInterval cl) ;;
  clearInterval (c_storageInterval cl) ;;
  clearInterval (c_continuousCheckInterval cl) ;;
  removeStorageListener (c_storageEventHandler cl) ;;
  set_onmessage (c_channel cl) None ;;
  set_slot None ;;
  close (c_channel cl) ;;
  set_tabCheckChannelRef None ;;
  set_tabCheckIntervalRef None.

(** The body of checkSingleTab up to its return.  A timer records which
    callback is scheduled and for which tabId; what the callbacks do when
    they fire is outside the model, and so is the catch block, which no
    modelled step reaches. *)
Definition checkSingleTab : M unit :=
  setSingleTabCheck
    (mk_step running (Some "Checking for multiple tabs..."%string) None) ;;
  supported <- read has_BroadcastChannel ;;
  if negb supported then
    setSingleTabCheck
      (mk_step error
         (Some "Single tab detection not supported in this browser. Please use Chrome or Edge."%string)
         None)
  else
    (* Clean up any existing channel/interval *)
    old_channel <- read tabCheckChannelRef ;;
    match old_channel with
    | Some h => close h ;; set_tabCheckChannelRef None
    | None => ret tt
    end ;;
    old_interval <- read tabCheckIntervalRef ;;
    match old_interval with
    | Some h => clearInterval h ;; set_tabCheckIntervalRef None
    | None => ret tt
    end ;;
    channel <- new_BroadcastChannel "exam-tab-detection-global"%string ;;
    set_tabCheckChannelRef (Some channel) ;;
    tabId <- fresh ;;
    set_onmessage channel (Some tabId) ;;
    heartbeatInterval <- setInterval post_heartbeat 500 tabId ;;
    requestInterval <- setInterval post_count_request 1000 tabId ;;
    addStorageListener tabId ;;
    storageInterval <- setInterval storageUpdate 600 tabId ;;
    set_slot (Some tabId) ;;
    initialCheckTimeout <- setTimeout initialCheck 3000 tabId ;;
    continuousCheckInterval <- setInterval continuousCheck 2000 tabId ;;
    set_tabCheckIntervalRef (Some continuousCheckInterval) ;;
    set_cleanup channel
      (mk_closure initialCheckTimeout heartbeatInterval requestInterval
                  storageInterval continuousCheckInterval tabId channel).

(** The cleanup function of the unmount effect. *)
Definition unmount : M unit :=
  ref <- read tabCheckChannelRef ;;
  match ref with
  | Some h =>
      ch <- find_channel h ;;
      match option_bind ch ch_cleanup with
      | Some cl => cleanup cl
      | None => close h
      end ;;
      set_tabCheckChannelRef None
  | None => ret tt
  end ;;
  ref <- read tabCheckIntervalRef ;;
  match ref with
  | Some h => clearInterval h ;; set_tabCheckIntervalRef None
  | None => ret tt
  end.

Definition is_success (s : StepState) : bool :=
  match status s with success => true | _ => false end.

Definition allStepsPassed (p : page) : bool :=
  is_success (systemInfo p) && is_success (networkTest p)
  && is_success (screenShare p) && is_success (audioCalibration p)
  && is_success (lightingCheck p) && is_success (singleTabCheck p).

(** What one call holds while it runs: its timers, its 'storage' listener,
    its message handler, its open channel and the localStorage slot. *)
Definition holds_nothing (p : page) (tab : nat) : Prop :=
  (forall t, In t (timers p) -> t_tab t <> tab)
  /\ ~ In tab (storage_listeners p)
  /\ (forall c, In c (channels p) -> ch_onmessage c = Some tab ->
                 ch_closed c = true)
  /\ localStorage_slot p <> Some tab.

(** A freshly mounted component. *)
Definition mounted (supported : bool) : page :=
  let s := mk_step idle None None in
  mk_page supported 1 [] [] [] None None None s s s s s s.

End Detector.

(* ================================================================== *)
(** ** Orders spelled out *)
(* ================================================================== *)

(** [a] is not after [b] under "started_at descending, nulls last". *)
Definition started_desc_nulls_last (a b : exam) : Prop :=
  match e_started_at a, e_started_at b with
  | Some x, Some y => y <= x
  | Some _, None => True
  | None, Some _ => False
  | None, None => True
  end.

Definition same_started_at (a b : exam) : Prop :=
  e_started_at a = e_started_at b.

(** "started_at descending, nulls last, then created_at descending" *)
Definition started_then_created_desc (a b : exam) : Prop :=
  started_desc_nulls_last a b /\
  (same_started_at a b -> e_created_at b <= e_created_at a).

Definition in_progress_or_completed (e : exam) : Prop :=
  e_status e = Some "in_progress"%string \/ e_status e = Some "completed"%string.

(* ================================================================== *)
(** ** The repair passes, row by row *)
(* ================================================================== *)

(** What the first loop writes into a row it selects: the backfill
    subquery's exam; when that is NULL the BEFORE UPDATE trigger sees a row
    with student_id and no exam_id and resolves it its own way. *)
Definition backfill_choice (now : timestamptz) (es : list exam)
    (v : violation) : option uuid :=
  match backfill_exam now es v with
  | Some id => Some id
  | None => resolve_exam es (v_student_id v)
  end.

Definition backfill_row (now : timestamptz) (es : list exam) (v : violation)
  : violation :=
  if missing_exam v then set_exam_id v (backfill_choice now es v) else v.

(** What the second loop writes into a row it selects. *)
Definition repair_row (es : list exam) (v : violation) : violation :=
  if mismatched es v
  then set_student_id v (option_bind (option_bind (v_exam_id v) (lookup_exam es))
                                     e_student_id)
  else v.

(** The window [started_at, COALESCE(completed_at, now)] of [e] holds the
    timestamp of [v]. *)
Definition in_window (now : timestamptz) (v : violation) (e : exam) : Prop :=
  exists s, e_started_at e = Some s /\ s <= v_timestamp v /\
            v_timestamp v <= coalesce (e_completed_at e) now.

(** The candidates of the backfill subquery for [v]: exams of the student
    of [v] whose window holds the timestamp, and the latest created exam of
    that student when it was never started. *)
Definition backfill_candidate (now : timestamptz) (es : list exam)
    (v : violation) (e : exam) : Prop :=
  (exists s, v_student_id v = Some s /\ e_student_id e = Some s) /\
  (in_window now v e \/
   (e_started_at e = None /\
    latest_created_exam es (v_student_id v) = Some (e_id e))).

(** [a] is not after [b] under "rank, then started_at descending, nulls
    last", rank 1 being the exams whose window holds the timestamp. *)
Definition rank_then_started_desc (now : timestamptz) (v : violation)
    (a b : exam) : Prop :=
  (in_window now v b -> in_window now v a) /\
  ((in_window now v a -> in_window now v b) -> started_desc_nulls_last a b).

(** I1 as the trigger and the repair function test it:
    EXISTS (SELECT 1 FROM public.exams e
            WHERE e.id = v.exam_id AND e.student_id = v.student_id) *)
Definition exam_matches (es : list exam) (v : violation) : bool :=
  exam_of_student es (v_exam_id v) (v_student_id v).

(* ================================================================== *)
(** ** Sample data *)
(* ================================================================== *)

(** Student 11 sat exam 2 (completed) and is sitting exam 1; student 12 owns
    no exam. *)
Definition exam_E : exam :=
  mk_exam 1 (Some 11) (Some 1000) None 900 (Some "in_progress"%string)
          None None.

Definition violation_E_S2 : violation :=
  mk_violation 50 (Some 1) (Some 12) (Some "tab_switch"%string) 1300.

Definition db_E : database := mk_database [exam_E] [] [] [].

Definition exam_E0 : exam :=
  mk_exam 2 (Some 11) (Some 500) (Some 800) 400 (Some "completed"%string)
          None None.

Definition violation_S1 : violation :=
  mk_violation 51 None (Some 11) (Some "tab_switch"%string) 1300.

Definition db_two_exams : database :=
  mk_database [exam_E0; exam_E] [] [] [].

(** A legacy write without exam_id, then a write naming exam 1 for the
    wrong student. *)
Definition sample_commands : list command :=
  [InsertViolation violation_S1; InsertViolation violation_E_S2].

(** Student 11 has one exam, abandoned, started after the violation. *)
Definition exam_abandoned : exam :=
  mk_exam 3 (Some 11) (Some 8200) None 20 (Some "abandoned"%string) None None.

Definition violation_early : violation :=
  mk_violation 60 None (Some 11) (Some "tab_switch"%string) 2800.

Definition db_abandoned : database :=
  mk_database [exam_abandoned] [] [] [violation_early].

(** Exams A (started 1000, completed 4600) and B (started 8200, open) of
    student 11; 2800 is half an hour into A. *)
Definition exam_A : exam :=
  mk_exam 4 (Some 11) (Some 1000) (Some 4600) 900 (Some "completed"%string)
          None None.

Definition exam_B : exam :=
  mk_exam 5 (Some 11) (Some 8200) None 8000 (Some "in_progress"%string)
          None None.

(** Two exams of student 11 that were never started, created at 10 and at
    20. *)
Definition exam_N1 : exam :=
  mk_exam 6 (Some 11) None None 10 (Some "not_started"%string) None None.

Definition exam_N2 : exam :=
  mk_exam 7 (Some 11) None None 20 (Some "not_started"%string) None None.

(** A student without any exam. *)
Definition db_no_exam : database :=
  mk_database [] [] [] [violation_early].

(** Exam 1 belongs to student 11; a stored violation names exam 1 and
    student 12. *)
Definition db_mismatch : database :=
  mk_database [exam_E0; exam_E] [] [] [violation_S1; violation_E_S2].

(* ================================================================== *)
(** ** The rest of the data-fix migration *)
(* ================================================================== *)

(** WHERE v.exam_id IS NOT NULL AND v.student_id IS NULL *)
Definition missing_student (v : violation) : bool :=
  is_not_null (v_exam_id v) && is_null (v_student_id v).

(** Step 3 of migration 20251120000001; the result carries ROW_COUNT. *)
Definition fix_missing_student_id (db : database) : result (database * nat) :=
  '(vs, n) <-
    update_violations (exams db) missing_student
      (fun v => owner <- exam_owner (exams db) (v_exam_id v) ;;
                Ok (set_student_id v owner))
      (violations db) ;;
  Ok (with_violations db vs, n).

(** Steps 1 to 3 in the order of the file, with the three counts the
    NOTICEs report. *)
Definition fix_existing_violations_data (now : timestamptz) (db : database)
  : result (database * (nat * nat * nat)) :=
  '(db1, n1) <- fix_missing_exam_id now db ;;
  '(db2, n2) <- fix_mismatched_student_id db1 ;;
  '(db3, n3) <- fix_missing_student_id db2 ;;
  Ok (db3, (n1, n2, n3)).

(** What Step 3 writes into a row. *)
Definition fill_row (es : list exam) (v : violation) : violation :=
  if missing_student v
  then set_student_id v (option_bind (option_bind (v_exam_id v) (lookup_exam es))
                                     e_student_id)
  else v.

(** The three steps, row by row. *)
Definition migrated_row (now : timestamptz) (es : list exam) (v : violation)
  : violation :=
  fill_row es (repair_row es (backfill_row now es v)).

(** Primary keys of the two other tables the view joins. *)
Definition students_pkey (ss : list student) : Prop := NoDup (map s_id ss).
Definition exam_templates_pkey (ts : list exam_template) : Prop :=
  NoDup (map et_id ts).

(* ================================================================== *)
(** ** The handlers and timer callbacks of checkSingleTab *)
(* ================================================================== *)

Module Monitor.

Import Detector.
Local Open Scope nat_scope.

(** The variables one call of checkSingleTab creates and its handlers close
    over: tabId, activeTabs (a Set, kept in insertion order),
    otherTabsDetected, and singleTabCheck.status as the render that made
    this checkSingleTab saw it. *)
Record closure_vars : Type := mk_vars {
  cv_tabId : nat;
  activeTabs : list nat;
  otherTabsDetected : bool;
  captured_status : StepStatus
}.

(** The page, the variables of every call so far, and whether
    sessionStorage holds singleTabVerified = "true". *)
Record world : Type := mk_world {
  w_page : page;
  w_vars : list closure_vars;
  singleTabVerified : bool
}.

(** event.data of a channel message; the tabId is absent when the field is
    missing or empty. *)
Inductive message : Type :=
| tab_heartbeat (tabId : option nat)
| tab_count_request (tabId : option nat)
| tab_count_response (tabId : option nat)
| other_message.

(** What reaches the page: a click on "Check Single Tab", a message of
    another context on the channel, a 'storage' event (whether its key is
    'exam-tab-check-value', and the tabId before the '|' of its newValue,
    absent when newValue is null or starts with '|'), a timer coming due,
    and the unmount of the component. *)
Inductive event : Type :=
| Click
| Message (m : message)
| Storage (key_is_slot : bool) (otherTabId : option nat)
| Fire (handle : nat)
| Unmount.

(** Set.prototype.add *)
Definition set_add (x : nat) (s : list nat) : list nat :=
  if existsb (Nat.eqb x) s then s else s ++ [x].

Definition find_vars (tab : nat) (vs : list closure_vars)
  : option closure_vars :=
  find (fun v => cv_tabId v =? tab) vs.

Definition update_vars (tab : nat) (f : closure_vars -> closure_vars)
    (vs : list closure_vars) : list closure_vars :=
  map (fun v => if cv_tabId v =? tab then f v else v) vs.

(** `Multiple tabs detected (${n} tab${n > 1 ? 's' : ''}). Please close all
    other exam tabs and keep only ONE tab open.` *)
Definition multiple_tabs_message (n : nat) : string :=
  ("Multiple tabs detected (" ++ NilEmpty.string_of_uint (Nat.to_uint n)
   ++ " tab" ++ (if (1 <? n)%nat then "s" else "")
   ++ "). Please close all other exam tabs and keep only ONE tab open.")%string.

Definition multiple_tabs (n : nat) : StepState :=
  mk_step error (Some (multiple_tabs_message n)) (Some n).

Definition monitoring_message : string :=
  "Single tab confirmed. Monitoring continuously for other tabs...".

Definition set_status (st : StepState) (w : world) : world :=
  mk_world (Detector.exec (setSingleTabCheck st) (w_page w))
           (w_vars w) (singleTabVerified w).

(** What the three handlers do once they see the tabId of another tab: add
    it to activeTabs, set otherTabsDetected, report the error; the two
    message branches also remove singleTabVerified. *)
Definition observe (tab sender : nat) (remove_verified : bool) (w : world)
  : world :=
  match find_vars tab (w_vars w) with
  | None => w
  | Some v =>
      let tabs := set_add sender (activeTabs v) in
      mk_world
        (Detector.exec (setSingleTabCheck (multiple_tabs (List.length tabs)))
                       (w_page w))
        (update_vars tab
           (fun v => mk_vars (cv_tabId v) tabs true (captured_status v))
           (w_vars w))
        (if remove_verified then false else singleTabVerified w)
  end.

(** channel.onmessage of the call with this tabId.  The answer it posts to
    a count request goes to the other contexts and is not recorded. *)
Definition messageHandler (tab : nat) (m : message) (w : world) : world :=
  match m with
  | tab_heartbeat (Some sender) | tab_count_response (Some sender) =>
      if sender =? tab then w else observe tab sender true w
  | _ => w
  end.

Definition storageEventHandler (tab : nat) (key_is_slot : bool)
    (otherTabId : option nat) (w : world) : world :=
  if key_is_slot then
    match otherTabId with
    | Some other => if other =? tab then w else observe tab other false w
    | None => w
    end
  else w.

(** The callback of initialCheckTimeout. *)
Definition initialCheck_callback (tab : nat) (w : world) : world :=
  match find_vars tab (w_vars w) with
  | None => w
  | Some v =>
      let totalTabs := List.length (activeTabs v) in
      if otherTabsDetected v || (1 <? totalTabs)
      then set_status (multiple_tabs totalTabs) w
      else mk_world
             (Detector.exec
                (setSingleTabCheck
                   (mk_step success (Some monitoring_message) (Some 1)))
                (w_page w))
             (w_vars w) true
  end.

(** The callback of continuousCheckInterval. *)
Definition continuousCheck_callback (tab : nat) (w : world) : world :=
  match find_vars tab (w_vars w) with
  | None => w
  | Some v =>
      let totalTabs := List.length (activeTabs v) in
      if otherTabsDetected v || (1 <? totalTabs)
      then mk_world
             (Detector.exec (setSingleTabCheck (multiple_tabs totalTabs))
                            (w_page w))
             (w_vars w) false
      else
        match captured_status v with
        | success =>
            let prev := singleTabCheck (w_page w) in
            set_status (mk_step (status prev) (Some monitoring_message)
                                (value prev)) w
        | _ => w
        end
  end.

(** What a timer runs.  The two posting callbacks only send to the other
    contexts; storageUpdate overwrites the localStorage slot. *)
Definition run_callback (cb : callback) (tab : nat) (w : world) : world :=
  match cb with
  | post_heartbeat => w
  | post_count_request => w
  | storageUpdate =>
      mk_world (Detector.exec (set_slot (Some tab)) (w_page w))
               (w_vars w) (singleTabVerified w)
  | initialCheck => initialCheck_callback tab w
  | continuousCheck => continuousCheck_callback tab w
  end.

(** A timer comes due: a timeout is gone once it has fired. *)
Definition fire (h : nat) (w : world) : world :=
  match find (fun t => t_handle t =? h) (timers (w_page w)) with
  | None => w
  | Some t =>
      let w' := if t_repeat t then w
                else mk_world (Detector.exec (clearTimer h) (w_page w))
                              (w_vars w) (singleTabVerified w) in
      run_callback (t_callback t) (t_tab t) w'
  end.

(** A message of another context reaches every channel object of the page
    that is open and has a handler. *)
Definition deliver_message (m : message) (w : world) : world :=
  fold_left (fun w c =>
               if ch_closed c then w
               else match ch_onmessage c with
                    | Some tab => messageHandler tab m w
                    | None => w
                    end)
            (channels (w_page w)) w.

(** A 'storage' event reaches every registered listener. *)
Definition deliver_storage (key_is_slot : bool) (otherTabId : option nat)
    (w : world) : world :=
  fold_left (fun w tab => storageEventHandler tab key_is_slot otherTabId w)
            (storage_listeners (w_page w)) w.

(** The tabId of the call that owns the current channel. *)
Definition current_tab (p : page) : option nat :=
  option_bind (tabCheckChannelRef p)
    (fun h => option_bind (find (fun c => ch_handle c =? h) (channels p))
                          ch_onmessage).

(** A click runs checkSingleTab; where the check starts, the variables of
    the new call are created. *)
Definition click (w : world) : world :=
  let captured := status (singleTabCheck (w_page w)) in
  let p := Detector.exec checkSingleTab (w_page w) in
  if has_BroadcastChannel (w_page w) then
    match current_tab p with
    | Some tab =>
        mk_world p (w_vars w ++ [mk_vars tab [tab] false captured])
                 (singleTabVerified w)
    | None => mk_world p (w_vars w) (singleTabVerified w)
    end
  else mk_world p (w_vars w) (singleTabVerified w).

(** The button of a step card is rendered with
    disabled={action.disabled || state.status === "running"}; a click on a
    disabled button runs nothing. *)
Definition button_disabled (p : page) : bool :=
  match status (singleTabCheck p) with running => true | _ => false end.

Definition step (w : world) (ev : event) : world :=
  match ev with
  | Click => if button_disabled (w_page w) then w else click w
  | Message m => deliver_message m w
  | Storage k o => deliver_storage k o w
  | Fire h => fire h w
  | Unmount => mk_world (Detector.exec unmount (w_page w))
                        (w_vars w) (singleTabVerified w)
  end.

Definition run (w : world) (evs : list event) : world :=
  fold_left step evs w.

(** The component right after mounting. *)
Definition mounted_world (supported : bool) : world :=
  mk_world (mounted supported) [] false.


Definition is_click_or_unmount (ev : event) : bool :=
  match ev with Click | Unmount => true | _ => false end.

Definition is_click (ev : event) : bool :=
  match ev with Click => true | _ => false end.


End Monitor.

(* ================================================================== *)
(** ** The worlds one click can lead to *)
(* ================================================================== *)

Module Reach.

Import Detector Monitor.
Local Open Scope nat_scope.

(** After one click on the mounted page only this much varies while no
    further click or unmount happens: activeTabs and otherTabsDetected of
    the call (tabId 2), whether its initial check (timer 6) has fired,
    singleTabCheck and the sessionStorage flag. *)
Record one_call : Type := mk_one_call {
  oc_tabs : list nat;
  oc_detected : bool;
  oc_initial_fired : bool;
  oc_check : StepState;
  oc_verified : bool
}.

Definition page_after_click : page :=
  Eval vm_compute in Detector.exec checkSingleTab (mounted true).

Definition one_call_world (a : one_call) : world :=
  let p := page_after_click in
  mk_world
    (mk_page true (next_handle p)
       (if oc_initial_fired a
        then filter (fun t => negb (t_handle t =? 6)) (timers p)
        else timers p)
       (storage_listeners p) (channels p) (localStorage_slot p)
       (tabCheckChannelRef p) (tabCheckIntervalRef p) (oc_check a)
       (systemInfo p) (networkTest p) (screenShare p)
       (audioCalibration p) (lightingCheck p))
    [mk_vars 2 (oc_tabs a) (oc_detected a) idle]
    (oc_verified a).

Definition one_call_start : one_call :=
  mk_one_call [2] false false
    (mk_step running (Some "Checking for multiple tabs..."%string) None)
    false.

Definition one_call_observe (sender : nat) (remove_verified : bool)
    (a : one_call) : one_call :=
  let tabs := set_add sender (oc_tabs a) in
  mk_one_call tabs true (oc_initial_fired a)
              (multiple_tabs (List.length tabs))
              (if remove_verified then false else oc_verified a).

Definition one_call_step (a : one_call) (ev : event) : one_call :=
  match ev with
  | Message (tab_heartbeat (Some s)) | Message (tab_count_response (Some s)) =>
      if s =? 2 then a else one_call_observe s true a
  | Storage true (Some o) =>
      if o =? 2 then a else one_call_observe o false a
  | Fire 6 =>
      if oc_initial_fired a then a
      else if oc_detected a || (1 <? List.length (oc_tabs a))
           then mk_one_call (oc_tabs a) (oc_detected a) true
                            (multiple_tabs (List.length (oc_tabs a)))
                            (oc_verified a)
           else mk_one_call (oc_tabs a) (oc_detected a) true
                            (mk_step success (Some monitoring_message) (Some 1))
                            true
  | Fire 7 =>
      if oc_detected a || (1 <? List.length (oc_tabs a))
      then mk_one_call (oc_tabs a) (oc_detected a) (oc_initial_fired a)
                       (multiple_tabs (List.length (oc_tabs a))) false
      else a
  | _ => a
  end.


End Reach.

(* ================================================================== *)
(** ** The roll_no migration *)
(* ================================================================== *)

Module RollNo.

(** A row of public.students once the column exists. *)
Record student_row : Type := mk_student_row {
  row_student : student;
  roll_no : option string
}.

(** public.students as the migration sees it: whether the column roll_no
    exists (the rows carry NULL when it does not), whether it is NOT NULL,
    and whether the unique index idx_students_roll_no exists. *)
Record students_table : Type := mk_students_table {
  has_roll_no : bool;
  rows : list student_row;
  roll_no_not_null : bool;
  idx_students_roll_no : bool
}.

(** 23502 from SET NOT NULL, 23505 from CREATE UNIQUE INDEX ("could not
    create unique index") and from an UPDATE under the index ("duplicate
    key value"). *)
Inductive migration_error : Type :=
| not_null_violation
| could_not_create_unique_index
| duplicate_key_value.

Definition hex_digit (d : Z) : ascii :=
  match d with
  | 0 => "0" | 1 => "1" | 2 => "2" | 3 => "3" | 4 => "4" | 5 => "5"
  | 6 => "6" | 7 => "7" | 8 => "8" | 9 => "9" | 10 => "a" | 11 => "b"
  | 12 => "c" | 13 => "d" | 14 => "e" | _ => "f"
  end%char.

(** The low n hexadecimal digits of x, most significant first. *)
Fixpoint hex (n : nat) (x : Z) : string :=
  match n with
  | O => EmptyString
  | S k => String (hex_digit (Z.shiftr x (4 * Z.of_nat k) mod 16)) (hex k x)
  end.

(** id::TEXT: the 128 bits of a uuid as 8-4-4-4-12 lower-case hexadecimal
    digits. *)
Definition uuid_text (u : uuid) : string :=
  (hex 8 (Z.shiftr u 96) ++ "-" ++ hex 4 (Z.shiftr u 80) ++ "-"
   ++ hex 4 (Z.shiftr u 64) ++ "-" ++ hex 4 (Z.shiftr u 48) ++ "-"
   ++ hex 12 u)%string.

(** 'ROLL-' || SUBSTRING(id::TEXT, 1, 8) *)
Definition temporary_roll_no (id : uuid) : string :=
  ("ROLL-" ++ substring 0 8 (uuid_text id))%string.

Fixpoint distinct (l : list string) : bool :=
  match l with
  | [] => true
  | x :: l' => negb (existsb (String.eqb x) l') && distinct l'
  end.

(** The non-NULL values of the column; a unique index lets any number of
    NULLs in. *)
Definition roll_numbers (rs : list student_row) : list string :=
  flat_map (fun r => match roll_no r with Some x => [x] | None => [] end) rs.

(** ALTER TABLE public.students ADD COLUMN IF NOT EXISTS roll_no TEXT *)
Definition add_column (t : students_table) : students_table :=
  if has_roll_no t then t
  else mk_students_table true
         (map (fun r => mk_student_row (row_student r) None) (rows t))
         false false.

Definition assign_roll_no (r : student_row) : student_row :=
  match roll_no r with
  | None => mk_student_row (row_student r)
              (Some (temporary_roll_no (s_id (row_student r))))
  | Some _ => r
  end.

(** UPDATE public.students SET roll_no = ... WHERE roll_no IS NULL *)
Definition backfill (t : students_table)
  : students_table + migration_error :=
  let rs := map assign_roll_no (rows t) in
  if idx_students_roll_no t && negb (distinct (roll_numbers rs))
  then inr duplicate_key_value
  else inl (mk_students_table (has_roll_no t) rs (roll_no_not_null t)
                              (idx_students_roll_no t)).

(** ALTER TABLE public.students ALTER COLUMN roll_no SET NOT NULL *)
Definition set_not_null (t : students_table)
  : students_table + migration_error :=
  if existsb (fun r => match roll_no r with None => true | _ => false end)
             (rows t)
  then inr not_null_violation
  else inl (mk_students_table (has_roll_no t) (rows t) true
                              (idx_students_roll_no t)).

(** CREATE UNIQUE INDEX IF NOT EXISTS idx_students_roll_no
    ON public.students(roll_no) *)
Definition create_unique_index (t : students_table)
  : students_table + migration_error :=
  if idx_students_roll_no t then inl t
  else if distinct (roll_numbers (rows t))
       then inl (mk_students_table (has_roll_no t) (rows t)
                                   (roll_no_not_null t) true)
       else inr could_not_create_unique_index.

Definition and_then {A B E} (x : A + E) (f : A -> B + E) : B + E :=
  match x with inl a => f a | inr e => inr e end.

(** Steps 1 to 3 of the migration, on public.students. *)
Definition add_roll_no (t : students_table)
  : students_table + migration_error :=
  and_then (backfill (add_column t))
    (fun t => and_then (set_not_null t) create_unique_index).

(** The first 32 bits of a uuid. *)
Definition first_32_bits (u : uuid) : Z := Z.shiftr u 96 mod 2 ^ 32.

End RollNo.

(* ================================================================== *)
(** ** JavaScript numbers *)
(* ================================================================== *)

Module Double.

Import PrimFloat.

(** A length or count as a JavaScript number: the double of that value
    (exact below 2^53). *)
Fixpoint of_nat (n : nat) : float :=
  match n with
  | O => 0%float
  | S k => (of_nat k + 1)%float
  end.

End Double.

(* ================================================================== *)
(** ** Audio calibration: the sentence check *)
(* ================================================================== *)

Module Speech.

Import Detector PrimFloat.
Local Open Scope nat_scope.

(** A JavaScript string as the list of its code units; the code units are
    taken to be below 256 (Latin-1). *)
Definition text : Type := list ascii.

Definition in_range (lo hi : nat) (c : ascii) : bool :=
  (lo <=? nat_of_ascii c) && (nat_of_ascii c <=? hi).

(** String.prototype.toLowerCase on Latin-1: A-Z and U+00C0 to U+00DE
    without the multiplication sign. *)
Definition lower (c : ascii) : ascii :=
  if in_range 65 90 c
     || (in_range 192 222 c && negb (nat_of_ascii c =? 215))
  then ascii_of_nat (nat_of_ascii c + 32)
  else c.

Definition toLowerCase (t : text) : text := map lower t.

(** The class [a-z0-9]. *)
Definition is_alnum (c : ascii) : bool :=
  in_range 97 122 c || in_range 48 57 c.

(** .replace(/[^a-z0-9]+/g, " "): every maximal run of characters outside
    the class becomes one space; [in_run] says that the run the scan is in
    has been replaced already. *)
Fixpoint replace_runs (in_run : bool) (t : text) : text :=
  match t with
  | [] => []
  | c :: t' =>
      if is_alnum c then c :: replace_runs false t'
      else if in_run then replace_runs true t'
           else " "%char :: replace_runs true t'
  end.

(** White space and line terminators below 256. *)
Definition is_space (c : ascii) : bool :=
  match nat_of_ascii c with
  | 9 | 10 | 11 | 12 | 13 | 32 | 160 => true
  | _ => false
  end.

Fixpoint trimStart (t : text) : text :=
  match t with
  | [] => []
  | c :: t' => if is_space c then trimStart t' else t
  end.

Definition trimEnd (t : text) : text := rev (trimStart (rev t)).

Definition trim (t : text) : text := trimEnd (trimStart t).

Definition normalizeText (t : text) : text :=
  trim (replace_runs false (toLowerCase t)).

(** s.split(" "): the pieces between the spaces; at least one piece. *)
Fixpoint split (t : text) : list text :=
  match t with
  | [] => [[]]
  | c :: t' =>
      if Ascii.eqb c " " then [] :: split t'
      else match split t' with
           | w :: ws => (c :: w) :: ws
           | [] => [[c]]
           end
  end.

Definition nonempty (t : text) : bool :=
  match t with [] => false | _ => true end.

(** s.split(" ").filter(Boolean) *)
Definition words (t : text) : list text := filter nonempty (split t).

Definition text_eqb (a b : text) : bool :=
  if list_eq_dec ascii_dec a b then true else false.

(** Set.prototype.has on the set built from a list. *)
Definition has (s : list text) (w : text) : bool := existsb (text_eqb w) s.

Definition wordMatchRatio (required spoken : text) : PrimFloat.float :=
  if negb (nonempty required) || negb (nonempty spoken) then 0%float
  else
    let requiredWords := words required in
    let spokenWords := words spoken in
    if List.length requiredWords =? 0 then 0%float
    else
      let matches := List.length (filter (has spokenWords) requiredWords) in
      PrimFloat.div (Double.of_nat matches)
                    (Double.of_nat (List.length requiredWords)).

Fixpoint startsWith (t p : text) : bool :=
  match p, t with
  | [], _ => true
  | a :: p', b :: t' => Ascii.eqb a b && startsWith t' p'
  | _ :: _, [] => false
  end.

(** String.prototype.includes *)
Fixpoint includes (t sub : text) : bool :=
  startsWith t sub
  || match t with [] => false | _ :: t' => includes t' sub end.

(** transcript is null when recognition failed or ended without a result. *)
Definition sentenceMatched (resumeSentence : text) (transcript : option text)
  : bool :=
  let requiredSentence := normalizeText resumeSentence in
  let spokenSentence :=
    normalizeText (match transcript with Some t => t | None => [] end) in
  (0 <? List.length requiredSentence)
  && (0 <? List.length spokenSentence)
  && (includes spokenSentence requiredSentence
      || PrimFloat.leb 0.75%float
           (wordMatchRatio requiredSentence spokenSentence)).

Definition MIN_AUDIO_BASELINE : nat := 10.

(** useState("I confirm that I will follow all exam rules."): the
    resumeSentence of the first render. *)
Definition initial_resumeSentence : text :=
  list_ascii_of_string "I confirm that I will follow all exam rules.".

(** The end of the body of runAudioCalibration, once the level
    ([normalized], 0 to 100) and the transcript are there, as a function of
    the resumeSentence its closure holds: the step state and what it puts
    in sessionStorage under audioBaseline. *)
Definition calibration_result (normalized : nat) (captured : text)
    (transcript : option text) : StepState * option nat :=
  if normalized <? MIN_AUDIO_BASELINE then
    (mk_step error
       (Some "We couldn't detect any speech. Please read the sentence aloud and try again."%string)
       (Some normalized), None)
  else if negb (sentenceMatched captured transcript) then
    (mk_step error
       (Some "We could not confirm the sentence. Please read it exactly as shown and retry."%string)
       (Some normalized), None)
  else
    (mk_step success
       (Some ("Baseline audio level: "
              ++ NilEmpty.string_of_uint (Nat.to_uint normalized)
              ++ "%")%string)
       (Some normalized), Some normalized).

(** runAudioCalibration is useCallback(async () => { ... }, []): with an
    empty dependency list every render gets the callback of the first
    render, and the resumeSentence that callback reads is the state of the
    first render, whatever the input field has stored with
    setResumeSentence since.  [resumeSentence] is the state at the time of
    the call. *)
Definition audio_verdict (normalized : nat) (resumeSentence : text)
    (transcript : option text) : StepState * option nat :=
  calibration_result normalized initial_resumeSentence transcript.

(** The shape of a normalized text. *)
Fixpoint no_double_space (t : text) : Prop :=
  match t with
  | a :: ((b :: _) as t') =>
      ~ (a = " "%char /\ b = " "%char) /\ no_double_space t'
  | _ => True
  end.

Definition plain (c : ascii) : Prop := is_alnum c = true \/ c = " "%char.

Definition normalized (t : text) : Prop :=
  Forall plain t
  /\ no_double_space t
  /\ hd_error t <> Some " "%char
  /\ hd_error (rev t) <> Some " "%char.

End Speech.

(* ================================================================== *)
(** ** Overall status *)
(* ================================================================== *)

Module Overall.

Import Detector PrimFloat.

(** The steps the progress bar counts, in the order of the source. *)
Definition step_states (p : page) : list StepState :=
  [systemInfo p; networkTest p; screenShare p; audioCalibration p;
   lightingCheck p; singleTabCheck p].

(** The value of the Progress bar:
    (statuses.filter(s => s === "success").length / 6) * 100 *)
Definition progress (p : page) : PrimFloat.float :=
  PrimFloat.mul
    (PrimFloat.div
       (Double.of_nat (List.length (filter is_success (step_states p))))
       6%float)
    100%float.

(** disabled={!allStepsPassed} of "Continue to Exam". *)
Definition continue_disabled (p : page) : bool := negb (allStepsPassed p).

End Overall.

(* ================================================================== *)
(** * Properties *)
(* ================================================================== *)

Unset Implicit Arguments.

(** ** ORDER BY ... LIMIT 1 returns a least row *)

Section Ordering.

Context {A : Type}.

#[export] Instance asc_preorder (key : A -> Z) : TotalPreorder (asc key).
Proof.
  split; unfold asc; intros.
  - now rewrite Z.compare_antisym.
  - rewrite Z.compare_gt_iff in *. lia.
Qed.

#[export] Instance desc_preorder (key : A -> Z) : TotalPreorder (desc key).
Proof.
  split; unfold desc; intros.
  - now rewrite Z.compare_antisym.
  - rewrite Z.compare_gt_iff in *. lia.
Qed.

#[export] Instance desc_nulls_last_preorder (key : A -> option Z)
  : TotalPreorder (desc_nulls_last key).
Proof.
  split; unfold desc_nulls_last; intros.
  - destruct (key a), (key b); simpl; auto using Z.compare_antisym.
  - destruct (key a), (key b), (key c); try congruence.
    rewrite Z.compare_gt_iff in *. lia.
Qed.

Lemma ord_refl (o : ordering A) `{!TotalPreorder o} a : o a a = Eq.
Proof.
  pose proof (ord_flip a a) as H. destruct (o a a); simpl in H; congruence.
Qed.

Lemma ord_eq_inside (o : ordering A) `{!TotalPreorder o} a b c :
  o a b <> Gt -> o b c <> Gt -> o a c = Eq -> o a b = Eq /\ o b c = Eq.
Proof.
  intros Hab Hbc Hac.
  assert (Hca : o c a <> Gt) by (rewrite (ord_flip a c), Hac; discriminate).
  pose proof (ord_trans _ _ _ Hbc Hca) as Hba.
  pose proof (ord_trans _ _ _ Hca Hab) as Hcb.
  rewrite (ord_flip a b) in Hba. rewrite (ord_flip b c) in Hcb.
  split.
  - destruct (o a b); simpl in *; congruence.
  - destruct (o b c); simpl in *; congruence.
Qed.

#[export] Instance then_by_preorder (o1 o2 : ordering A)
  `{!TotalPreorder o1} `{!TotalPreorder o2} : TotalPreorder (then_by o1 o2).
Proof.
  split; unfold then_by; intros.
  - rewrite (ord_flip (o:=o1) a b). destruct (o1 a b); simpl; auto.
    apply ord_flip.
  - assert (H1 : o1 a b <> Gt) by (destruct (o1 a b); congruence).
    assert (H2 : o1 b c <> Gt) by (destruct (o1 b c); congruence).
    pose proof (ord_trans _ _ _ H1 H2) as H3.
    destruct (o1 a c) eqn:E; try congruence.
    destruct (ord_eq_inside o1 a b c H1 H2 E) as [Eab Ebc].
    rewrite Eab in H. rewrite Ebc in H0.
    eapply ord_trans; eauto.
Qed.

Lemma insert_by_perm (o : ordering A) r sorted :
  Permutation (insert_by o r sorted) (r :: sorted).
Proof.
  induction sorted as [|s rest IH]; simpl; auto.
  destruct (o r s); auto.
  rewrite IH. apply perm_swap.
Qed.

Lemma order_by_perm (o : ordering A) rows :
  Permutation (order_by o rows) rows.
Proof.
  induction rows as [|r rest IH]; simpl; auto.
  rewrite insert_by_perm. now constructor.
Qed.

Lemma order_by_In (o : ordering A) rows x :
  In x (order_by o rows) <-> In x rows.
Proof.
  split; apply Permutation_in;
    [apply order_by_perm | apply Permutation_sym, order_by_perm].
Qed.

(** The first row of the sorted output is a row of the input that sorts
    before every other; there is one as soon as the input is not empty. *)
Lemma order_by_first (o : ordering A) `{!TotalPreorder o} rows :
  match order_by o rows with
  | [] => rows = []
  | m :: _ => In m rows /\ forall r, In r rows -> sorts_before o m r
  end.
Proof.
  induction rows as [|r rest IH]; simpl; auto.
  destruct (order_by o rest) as [|s sorted]; simpl.
  - subst rest. split; auto.
    intros x [<-|[]]. unfold sorts_before. now rewrite ord_refl by assumption.
  - destruct IH as [Hin Hmin].
    destruct (o r s) eqn:E.
    + split; auto. intros x [<-|Hx].
      * unfold sorts_before. now rewrite ord_refl by assumption.
      * apply (ord_trans r s x); [congruence | now apply Hmin].
    + split; auto. intros x [<-|Hx].
      * unfold sorts_before. now rewrite ord_refl by assumption.
      * apply (ord_trans r s x); [congruence | now apply Hmin].
    + split; auto. intros x [<-|Hx].
      * unfold sorts_before. rewrite (ord_flip r s), E. discriminate.
      * now apply Hmin.
Qed.

End Ordering.

(** SELECT id ... ORDER BY o LIMIT 1 over the rows that [where_] accepts:
    NULL exactly when no row is accepted; otherwise the id of an accepted
    row that sorts before every accepted row. *)
Lemma select_first_id (o : ordering exam) `{!TotalPreorder o}
    (where_ : exam -> bool) (es : list exam) :
  match scalar (map (fun e => Some (e_id e))
                    (limit1 (order_by o (filter where_ es)))) with
  | None => forall e, In e es -> where_ e = false
  | Some id =>
      exists m, In m es /\ where_ m = true /\ e_id m = id /\
                forall e, In e es -> where_ e = true -> sorts_before o m e
  end.
Proof.
  pose proof (order_by_first o (filter where_ es)) as H.
  destruct (order_by o (filter where_ es)) as [|m sorted]; simpl.
  - intros e He. destruct (where_ e) eqn:E; auto.
    assert (In e (filter where_ es)) by (apply filter_In; auto).
    rewrite H in *. contradiction.
  - destruct H as [Hin Hmin]. apply filter_In in Hin as [Hin Hw].
    exists m. repeat split; auto.
    intros e He Hwe. apply Hmin, filter_In; auto.
Qed.

(** ** The trigger function, case by case *)

Lemma exam_of_student_spec es exam_id student_id :
  exam_of_student es (Some exam_id) (Some student_id) = true <->
  exists e, In e es /\ e_id e = exam_id /\ e_student_id e = Some student_id.
Proof.
  unfold exam_of_student. rewrite existsb_exists.
  split; intros (e & Hin & H); exists e; split; auto.
  - simpl in H. destruct (e_student_id e) as [s|]; simpl in H.
    + destruct (Z.eqb_spec (e_id e) exam_id), (Z.eqb_spec s student_id);
        simpl in H; try discriminate. subst; auto.
    + destruct (e_id e =? exam_id); discriminate.
  - destruct H as [-> ->]. simpl. now rewrite !Z.eqb_refl.
Qed.

Lemma validate_both_set es NEW exam_id student_id :
  v_exam_id NEW = Some exam_id -> v_student_id NEW = Some student_id ->
  validate_violation_exam_student_consistency es NEW =
  if exam_of_student es (Some exam_id) (Some student_id)
  then Ok NEW else Raise (LinkageMismatch student_id exam_id).
Proof.
  intros He Hs. unfold validate_violation_exam_student_consistency.
  rewrite He, Hs.
  destruct (exam_of_student es (Some exam_id) (Some student_id)); simpl; auto.
  now rewrite He, Hs.
Qed.

Lemma validate_exam_only es NEW exam_id :
  v_exam_id NEW = Some exam_id -> v_student_id NEW = None ->
  validate_violation_exam_student_consistency es NEW =
  Ok (set_student_id NEW (select_into (exam_student_rows es (Some exam_id)))).
Proof.
  intros He Hs. unfold validate_violation_exam_student_consistency.
  rewrite He, Hs. simpl. now rewrite He.
Qed.

Lemma validate_student_only es NEW student_id :
  v_exam_id NEW = None -> v_student_id NEW = Some student_id ->
  validate_violation_exam_student_consistency es NEW =
  Ok (set_exam_id NEW (resolve_exam es (Some student_id))).
Proof.
  intros He Hs. unfold validate_violation_exam_student_consistency.
  rewrite He, Hs. simpl. now rewrite He, Hs.
Qed.

Lemma validate_neither es NEW :
  v_exam_id NEW = None -> v_student_id NEW = None ->
  validate_violation_exam_student_consistency es NEW = Ok NEW.
Proof.
  intros He Hs. unfold validate_violation_exam_student_consistency.
  rewrite He, Hs. simpl. now rewrite He, Hs.
Qed.

(** The trigger leaves the columns it does not resolve alone. *)
Lemma validate_keeps_id es NEW NEW' :
  validate_violation_exam_student_consistency es NEW = Ok NEW' ->
  v_id NEW' = v_id NEW /\ v_timestamp NEW' = v_timestamp NEW /\
  v_violation_type NEW' = v_violation_type NEW.
Proof.
  destruct (v_exam_id NEW) as [eid|] eqn:He;
    destruct (v_student_id NEW) as [sid|] eqn:Hs.
  - rewrite (validate_both_set es NEW eid sid He Hs).
    destruct (exam_of_student _ _ _); intros [=]; subst; auto.
  - rewrite (validate_exam_only es NEW eid He Hs). intros [= <-]; auto.
  - rewrite (validate_student_only es NEW sid He Hs). intros [= <-]; auto.
  - rewrite (validate_neither es NEW He Hs). intros [= <-]; auto.
Qed.

Lemma lookup_exam_In es id e :
  lookup_exam es id = Some e -> In e es /\ e_id e = id.
Proof.
  unfold lookup_exam. intros H. apply find_some in H as [Hin Heq].
  split; auto. now apply Z.eqb_eq.
Qed.

Lemma lookup_exam_unique es e :
  exams_pkey es -> In e es -> lookup_exam es (e_id e) = Some e.
Proof.
  unfold exams_pkey, lookup_exam.
  induction es as [|x es IH]; simpl; intros Hnd Hin; [contradiction|].
  inversion Hnd as [|? ? Hx Hnd']; subst.
  destruct Hin as [->|Hin].
  - now rewrite Z.eqb_refl.
  - destruct (Z.eqb_spec (e_id x) (e_id e)) as [E|E]; auto.
    exfalso. apply Hx. rewrite E. now apply in_map.
Qed.

Lemma lookup_exam_first es id :
  lookup_exam es id =
  hd_error (filter (fun e => is_true (eq3 (Some (e_id e)) (Some id))) es).
Proof.
  unfold lookup_exam. induction es as [|x es IH]; simpl; auto.
  destruct (e_id x =? id); simpl; auto.
Qed.

Lemma sorts_before_most_recently_started a b :
  sorts_before most_recently_started a b <-> started_then_created_desc a b.
Proof.
  unfold sorts_before, most_recently_started, then_by, desc_nulls_last, desc,
    started_then_created_desc, started_desc_nulls_last, same_started_at.
  destruct (e_started_at a) as [x|], (e_started_at b) as [y|].
  - destruct (Z.compare_spec y x) as [E|E|E].
    + rewrite Z.compare_gt_iff. split.
      * intros H. split; [lia|]. intros _. lia.
      * intros [_ H]. subst. specialize (H eq_refl). lia.
    + split; [intros _; split; [lia|intros [=]; lia] | discriminate].
    + split; [congruence | intros [H _]; lia].
  - split; [intros _; split; [auto|discriminate] | discriminate].
  - split; [congruence | intros [[] _]].
  - rewrite Z.compare_gt_iff. split.
    + intros H. split; auto. intros _. lia.
    + intros [_ H]. specialize (H eq_refl). lia.
Qed.

Lemma resolve_candidate_spec student_id e :
  resolve_candidate (Some student_id) e = true <->
  e_student_id e = Some student_id /\ in_progress_or_completed e.
Proof.
  unfold resolve_candidate, status_in_progress_or_completed,
    in_progress_or_completed.
  destruct (e_student_id e) as [s|], (e_status e) as [st|]; simpl;
    try (split; [discriminate | intros [H1 [H2|H2]]; congruence]).
  - destruct (Z.eqb_spec s student_id) as [->|N];
      destruct (String.eqb_spec st "in_progress");
      destruct (String.eqb_spec st "completed"); simpl; subst;
      split; try discriminate; auto;
      try (intros [H1 [H2|H2]]; congruence).
  - destruct (s =? student_id); simpl;
      (split; [discriminate | intros [H1 [H2|H2]]; congruence]).
  - destruct ((st =? "in_progress")%string || (st =? "completed")%string);
      simpl; (split; [discriminate | intros [H1 _]; congruence]).
Qed.

(** What [resolve_exam] returns. *)
Lemma resolve_exam_spec es student_id :
  match resolve_exam es (Some student_id) with
  | Some id =>
      exists m, In m es /\ e_id m = id /\
                e_student_id m = Some student_id /\
                in_progress_or_completed m /\
                forall e, In e es -> e_student_id e = Some student_id ->
                          in_progress_or_completed e ->
                          started_then_created_desc m e
  | None =>
      forall e, In e es -> e_student_id e = Some student_id ->
                ~ in_progress_or_completed e
  end.
Proof.
  unfold resolve_exam, resolve_exam_rows, select_into.
  pose proof (select_first_id most_recently_started
                (resolve_candidate (Some student_id)) es) as H.
  destruct (scalar _) as [id|].
  - destruct H as (m & Hin & Hc & Hid & Hmin).
    apply resolve_candidate_spec in Hc as [Hs Hst].
    exists m. do 4 (split; [assumption|]).
    intros x Hx Hsx Hstx. apply sorts_before_most_recently_started.
    apply Hmin; auto. apply resolve_candidate_spec; auto.
  - intros x Hx Hsx Hstx. specialize (H x Hx).
    assert (resolve_candidate (Some student_id) x = true)
      by (apply resolve_candidate_spec; auto).
    congruence.
Qed.

(** A row the trigger lets through satisfies I1. *)
Lemma validate_linked es NEW NEW' :
  exams_pkey es ->
  validate_violation_exam_student_consistency es NEW = Ok NEW' ->
  linked es NEW'.
Proof.
  intros Hpk.
  destruct (v_exam_id NEW) as [eid|] eqn:He;
    destruct (v_student_id NEW) as [sid|] eqn:Hs.
  - rewrite (validate_both_set es NEW eid sid He Hs).
    destruct (exam_of_student _ _ _) eqn:E; intros [=]; subst NEW'.
    apply exam_of_student_spec in E as (e & Hin & Hid & Hst).
    intros eid' sid' He' Hs'. rewrite He in He'. rewrite Hs in Hs'.
    injection He' as <-. injection Hs' as <-.
    exists e. split; auto. subst eid. now apply lookup_exam_unique.
  - rewrite (validate_exam_only es NEW eid He Hs). intros [= <-].
    intros eid' sid'. simpl. rewrite He. intros [= <-].
    rewrite lookup_exam_first. unfold exam_student_rows, select_into.
    destruct (filter _ es) as [|e rest]; simpl; [discriminate|].
    intros Hst. now exists e.
  - rewrite (validate_student_only es NEW sid He Hs). intros [= <-].
    intros eid' sid'. simpl. rewrite Hs.
    pose proof (resolve_exam_spec es sid) as H.
    destruct (resolve_exam es (Some sid)) as [id|]; [|discriminate].
    destruct H as (m & Hin & Hid & Hst & _).
    intros [= <-] [= <-]. exists m. split; auto.
    subst id. now apply lookup_exam_unique.
  - rewrite (validate_neither es NEW He Hs). intros [= <-].
    intros eid' sid'. now rewrite He.
Qed.

(** ** UPDATE through the trigger *)

(** Every row of the table after an UPDATE is an untouched row or a row
    the trigger returned. *)
Lemma update_violations_rows es where_ set_ vs vs' n :
  update_violations es where_ set_ vs = Ok (vs', n) ->
  forall v', In v' vs' ->
    In v' vs \/
    exists r NEW, In r vs /\ where_ r = true /\ set_ r = Ok NEW /\
                  validate_violation_exam_student_consistency es NEW = Ok v'.
Proof.
  revert vs' n. induction vs as [|r rest IH]; simpl; intros vs' n H v' Hin.
  - injection H as <- <-. contradiction.
  - destruct (where_ r) eqn:Hw.
    + destruct (set_ r) as [NEW|] eqn:Hset; simpl in H; [|discriminate].
      destruct (validate_violation_exam_student_consistency es NEW)
        as [NEW'|] eqn:Hv; simpl in H; [|discriminate].
      destruct (update_violations es where_ set_ rest) as [[rest' m]|];
        simpl in H; [|discriminate].
      injection H as <- <-. destruct Hin as [<-|Hin].
      * right. exists r, NEW. auto.
      * destruct (IH _ _ eq_refl _ Hin) as [H|(r0 & N0 & H0 & H1)]; auto.
        right. exists r0, N0. auto.
    + destruct (update_violations es where_ set_ rest) as [[rest' m]|];
        simpl in H; [|discriminate].
      injection H as <- <-. destruct Hin as [<-|Hin]; auto.
      destruct (IH _ _ eq_refl _ Hin) as [H|(r0 & N0 & H0 & H1)]; auto.
      right. exists r0, N0. auto.
Qed.

(** With a SET list that cannot fail, the only exception of an UPDATE is
    the trigger's, and one rejected row aborts the statement. *)
Lemma update_violations_rejected es where_ set_ vs r student_id exam_id :
  In r vs -> where_ r = true ->
  validate_violation_exam_student_consistency es (set_ r)
    = Raise (LinkageMismatch student_id exam_id) ->
  exists s e,
    update_violations es where_ (fun r => Ok (set_ r)) vs
      = Raise (LinkageMismatch s e).
Proof.
  intros Hin Hw Hv. induction vs as [|x rest IH]; simpl; [contradiction|].
  destruct Hin as [->|Hin].
  - rewrite Hw. simpl. rewrite Hv. simpl. eauto.
  - destruct (IH Hin) as (s & e & E). rewrite E.
    destruct (where_ x); simpl; eauto.
    destruct (validate_violation_exam_student_consistency es (set_ x))
      as [N|err] eqn:Hx; simpl; eauto.
    unfold validate_violation_exam_student_consistency in Hx.
    destruct (v_exam_id (set_ x)), (v_student_id (set_ x)); simpl in Hx;
      try discriminate.
    destruct (exam_of_student _ _ _); simpl in Hx; try discriminate.
    injection Hx as <-. eauto.
Qed.

(** ** C2: a mismatched pair is rejected and nothing is committed *)

(** C2.  A write that carries both exam_id and student_id while no exam
    with that id belongs to that student is rejected by the trigger with
    LinkageMismatch: the INSERT raises and leaves the database as it was,
    an UPDATE that produces such a row raises LinkageMismatch and leaves
    the database as it was.  Whenever the trigger does let a row with both
    fields through, it returns the row unchanged. *)
Theorem mismatched_write_is_rejected :
  forall (db : database) (NEW : violation) (exam_id student_id : uuid),
    v_exam_id NEW = Some exam_id ->
    v_student_id NEW = Some student_id ->
    (forall e, In e (exams db) -> e_id e = exam_id ->
               e_student_id e <> Some student_id) ->
    validate_violation_exam_student_consistency (exams db) NEW
      = Raise (LinkageMismatch student_id exam_id)
    /\ insert_violation db NEW = Raise (LinkageMismatch student_id exam_id)
    /\ commit db (InsertViolation NEW) = db
    /\ (forall where_ set_ r,
          In r (violations db) -> where_ r = true -> set_ r = NEW ->
          (exists s e, update_violation db where_ set_
                         = Raise (LinkageMismatch s e))
          /\ commit db (UpdateViolation where_ set_) = db)
    /\ (forall es NEW',
          validate_violation_exam_student_consistency es NEW = Ok NEW' ->
          NEW' = NEW).
Proof.
  intros db NEW exam_id student_id He Hs Hno.
  assert (Hv : validate_violation_exam_student_consistency (exams db) NEW
               = Raise (LinkageMismatch student_id exam_id)).
  { rewrite (validate_both_set _ _ _ _ He Hs).
    destruct (exam_of_student _ _ _) eqn:E; auto.
    apply exam_of_student_spec in E as (e & Hin & Hid & Hst).
    exfalso. eapply Hno; eauto. }
  split; [exact Hv|].
  assert (Hi : insert_violation db NEW
               = Raise (LinkageMismatch student_id exam_id)).
  { unfold insert_violation. now rewrite Hv. }
  split; [exact Hi|]. split.
  { unfold commit. simpl. now rewrite Hi. }
  split.
  - intros where_ set_ r Hin Hw Hset. subst NEW.
    destruct (update_violations_rejected (exams db) where_ set_
                (violations db) r student_id exam_id Hin Hw Hv)
      as (s & e & E).
    assert (Hu : update_violation db where_ set_ = Raise (LinkageMismatch s e)).
    { unfold update_violation. now rewrite E. }
    split; [eauto|]. unfold commit. simpl. now rewrite Hu.
  - intros es NEW'. rewrite (validate_both_set _ _ _ _ He Hs).
    destruct (exam_of_student _ _ _); congruence.
Qed.

Lemma mismatched_write_is_rejected_witness :
  validate_violation_exam_student_consistency (exams db_E) violation_E_S2
    = Raise (LinkageMismatch 12 1)
  /\ commit db_E (InsertViolation violation_E_S2) = db_E.
Proof.
  destruct (mismatched_write_is_rejected db_E violation_E_S2 1 12)
    as (H1 & _ & H3 & _).
  - reflexivity.
  - reflexivity.
  - intros e [<-|[]] _. discriminate.
  - split; assumption.
Defined.

(** ** C6: best-effort resolution of a missing exam_id *)



(** ** C1: I1 is an invariant of the committed state *)

Lemma lookup_exam_app es e id x :
  lookup_exam es id = Some x -> lookup_exam (es ++ [e]) id = Some x.
Proof.
  unfold lookup_exam. induction es as [|y es IH]; simpl; [discriminate|].
  destruct (e_id y =? id); auto.
Qed.

Lemma lookup_exam_map (f : exam -> exam) es id :
  (forall e, e_id (f e) = e_id e) ->
  lookup_exam (map f es) id = option_map f (lookup_exam es id).
Proof.
  intros Hid. unfold lookup_exam. induction es as [|y es IH]; simpl; auto.
  rewrite Hid. destruct (e_id y =? id); auto.
Qed.

Lemma linked_more_exams es es' v :
  (forall id e, lookup_exam es id = Some e ->
     exists e', lookup_exam es' id = Some e' /\
                e_student_id e' = e_student_id e) ->
  linked es v -> linked es' v.
Proof.
  intros Hes Hl eid sid He Hs.
  destruct (Hl eid sid He Hs) as (e & Hlook & Hst).
  destruct (Hes _ _ Hlook) as (e' & Hlook' & Hst').
  exists e'. split; congruence.
Qed.

Lemma insert_exam_keeps db e db' :
  insert_exam db e = Ok db' ->
  exams_pkey (exams db) -> I1 db ->
  exams_pkey (exams db') /\ I1 db'.
Proof.
  unfold insert_exam. destruct (existsb _ _) eqn:E; [discriminate|].
  intros [= <-] Hpk HI. simpl. split.
  - unfold exams_pkey in *. rewrite map_app. simpl.
    apply NoDup_app; auto.
    + constructor; [intros []|constructor].
    + intros a Ha [<-|[]]. apply in_map_iff in Ha as (x & Hx & Hin).
      assert (existsb (fun x => e_id x =? e_id e) (exams db) = true).
      { apply existsb_exists. exists x. split; auto. now apply Z.eqb_eq. }
      congruence.
  - intros v Hv. apply (linked_more_exams (exams db)); [|now apply HI].
    intros id x Hx. exists x. split; auto. now apply lookup_exam_app.
Qed.

Lemma exam_transition_keeps db id st sa ca :
  exams_pkey (exams db) -> I1 db ->
  exams_pkey (exams (exam_transition db id st sa ca)) /\
  I1 (exam_transition db id st sa ca).
Proof.
  intros Hpk HI. unfold exam_transition. simpl.
  set (f := fun e : exam => if e_id e =? id then _ else e).
  assert (Hid : forall e, e_id (f e) = e_id e)
    by (intros e; unfold f; destruct (e_id e =? id); auto).
  assert (Hst : forall e, e_student_id (f e) = e_student_id e)
    by (intros e; unfold f; destruct (e_id e =? id); auto).
  split.
  - unfold exams_pkey in *. rewrite map_map.
    erewrite map_ext; [exact Hpk|]. auto.
  - intros v Hv. simpl in Hv.
    apply (linked_more_exams (exams db)); [|now apply HI].
    intros i x Hx. exists (f x). split; auto.
    change (lookup_exam (map f (exams db)) i = Some (f x)).
    rewrite lookup_exam_map by auto. now rewrite Hx.
Qed.

Lemma insert_violation_keeps db NEW db' :
  insert_violation db NEW = Ok db' ->
  exams_pkey (exams db) -> I1 db ->
  exams_pkey (exams db') /\ I1 db'.
Proof.
  unfold insert_violation.
  destruct (validate_violation_exam_student_consistency (exams db) NEW)
    as [NEW'|] eqn:Hv; simpl; [|discriminate].
  destruct (existsb _ _); [discriminate|].
  intros [= <-] Hpk HI. split; auto.
  intros v Hin. simpl in *. apply in_app_or in Hin as [Hin|[<-|[]]].
  - now apply HI.
  - eapply validate_linked; eauto.
Qed.

Lemma update_violation_keeps db where_ set_ db' :
  update_violation db where_ set_ = Ok db' ->
  exams_pkey (exams db) -> I1 db ->
  exams_pkey (exams db') /\ I1 db'.
Proof.
  unfold update_violation.
  destruct (update_violations _ _ _ _) as [[vs n]|] eqn:Hu; simpl;
    [|discriminate].
  destruct (distinct_ids _); [|discriminate].
  intros [= <-] Hpk HI. split; auto.
  intros v Hin. simpl in *.
  destruct (update_violations_rows _ _ _ _ _ _ Hu v Hin)
    as [H|(r & N & _ & _ & _ & Hv)].
  - now apply HI.
  - eapply validate_linked; eauto.
Qed.

(** Every row the loops leave in the table is a row that was there or a
    row the trigger returned. *)
Lemma backfill_loop_rows now es cursor :
  forall vs v_fixed v_skipped vs' f s,
    backfill_loop now es cursor vs v_fixed v_skipped = Ok (vs', f, s) ->
    forall v', In v' vs' ->
      In v' vs \/
      exists NEW, validate_violation_exam_student_consistency es NEW = Ok v'.
Proof.
  induction cursor as [|c cursor IH]; intros vs v_fixed v_skipped vs' f s H.
  - injection H as <- _ _. auto.
  - cbn [backfill_loop] in H.
    destruct (update_violations es _ _ vs) as [[vs1 n]|] eqn:U;
      [|discriminate].
    cbn [bind] in H. intros v' Hin.
    assert (X : In v' vs1 \/
                exists NEW,
                  validate_violation_exam_student_consistency es NEW = Ok v').
    { destruct (FOUND n); eapply IH; eauto. }
    destruct X as [X|X]; auto.
    destruct (update_violations_rows _ _ _ _ _ _ U v' X)
      as [Y|(r & NEW & _ & _ & _ & Y)]; eauto.
Qed.

Lemma repair_loop_rows es cursor :
  forall vs v_fixed vs' f,
    repair_loop es cursor vs v_fixed = Ok (vs', f) ->
    forall v', In v' vs' ->
      In v' vs \/
      exists NEW, validate_violation_exam_student_consistency es NEW = Ok v'.
Proof.
  induction cursor as [|c cursor IH]; intros vs v_fixed vs' f H.
  - injection H as <- _. auto.
  - cbn [repair_loop] in H.
    destruct (update_violations es _ _ vs) as [[vs1 n]|] eqn:U;
      [|discriminate].
    cbn [bind] in H. intros v' Hin.
    destruct (IH _ _ _ _ H v' Hin) as [X|X]; auto.
    destruct (update_violations_rows _ _ _ _ _ _ U v' X)
      as [Y|(r & NEW & _ & _ & _ & Y)]; eauto.
Qed.

Lemma fix_violations_exam_links_keeps now db db' counts :
  fix_violations_exam_links now db = Ok (db', counts) ->
  exams_pkey (exams db) -> I1 db ->
  exams_pkey (exams db') /\ I1 db'.
Proof.
  unfold fix_violations_exam_links. intros H Hpk HI.
  destruct (backfill_loop _ _ _ _ _ _) as [[[vs1 f1] s1]|] eqn:B;
    [|discriminate].
  cbn [bind] in H.
  destruct (repair_loop _ _ _ _) as [[vs2 f2]|] eqn:R; [|discriminate].
  cbn [bind] in H. injection H as <- _. split; auto.
  intros v Hin. cbn [violations exams with_violations] in *.
  destruct (repair_loop_rows _ _ _ _ _ _ R v Hin) as [X|(N & X)];
    [|eapply validate_linked; eauto].
  destruct (backfill_loop_rows _ _ _ _ _ _ _ _ _ B v X) as [Y|(N & Y)];
    [now apply HI|eapply validate_linked; eauto].
Qed.

Lemma commit_keeps db c :
  exams_pkey (exams db) -> I1 db ->
  exams_pkey (exams (commit db c)) /\ I1 (commit db c).
Proof.
  intros Hpk HI. unfold commit.
  destruct (exec db c) as [db'|] eqn:E; auto.
  destruct c; simpl in E.
  - eapply insert_exam_keeps; eauto.
  - injection E as <-. now apply exam_transition_keeps.
  - eapply insert_violation_keeps; eauto.
  - eapply update_violation_keeps; eauto.
  - destruct (fix_violations_exam_links now db) as [[d counts]|] eqn:F;
      [|discriminate].
    injection E as <-. eapply fix_violations_exam_links_keeps; eauto.
Qed.

(** C1.  Starting from a database whose exams have distinct ids and whose
    violations satisfy I1, after any sequence of exam creations, exam
    life-cycle transitions, violation INSERTs, violation UPDATEs and calls
    of the repair function (each one committed if the trigger and the keys
    let it through, dropped otherwise) every violation with both exam_id
    and student_id set names an exam whose student_id is that student. *)
Theorem I1_holds_after_every_commit :
  forall (cs : list command) (db : database),
    exams_pkey (exams db) -> I1 db ->
    forall v exam_id student_id,
      In v (violations (run db cs)) ->
      v_exam_id v = Some exam_id -> v_student_id v = Some student_id ->
      exists e, lookup_exam (exams (run db cs)) exam_id = Some e /\
                e_student_id e = Some student_id.
Proof.
  intros cs db Hpk HI.
  assert (H : exams_pkey (exams (run db cs)) /\ I1 (run db cs)).
  { revert db Hpk HI. unfold run.
    induction cs as [|c cs IH]; simpl; intros db Hpk HI; auto.
    destruct (commit_keeps db c Hpk HI) as [Hpk' HI']. now apply IH. }
  destruct H as [_ H]. intros v eid sid Hin He Hs. exact (H v Hin eid sid He Hs).
Qed.

Lemma I1_holds_after_every_commit_witness :
  exists e, lookup_exam (exams (run db_two_exams sample_commands)) 1 = Some e
            /\ e_student_id e = Some 11.
Proof.
  apply (I1_holds_after_every_commit sample_commands db_two_exams)
    with (v := set_exam_id violation_S1 (Some 1)).
  - unfold exams_pkey. simpl. repeat constructor; simpl; intuition discriminate.
  - intros v [].
  - left. reflexivity.
  - reflexivity.
  - reflexivity.
Defined.

(** ** The repair function: both loops are row-wise maps *)

(** An UPDATE whose rows all pass the trigger is a map over the table;
    ROW_COUNT is the number of rows the WHERE accepts. *)
Lemma update_violations_map es where_ set_ (g : violation -> violation) vs :
  (forall r, In r vs -> where_ r = true ->
     (NEW <- set_ r ;; validate_violation_exam_student_consistency es NEW)
     = Ok (g r)) ->
  update_violations es where_ set_ vs
  = Ok (map (fun r => if where_ r then g r else r) vs,
        List.length (filter where_ vs)).
Proof.
  induction vs as [|r rest IH]; simpl; intros H; auto.
  rewrite IH by (intros; apply H; auto).
  destruct (where_ r) eqn:Hw; simpl; auto.
  specialize (H r (or_introl eq_refl) Hw). unfold bind in H.
  destruct (set_ r) as [NEW|]; [|discriminate]. simpl.
  now rewrite H.
Qed.

Lemma violations_pkey_inj vs a b :
  violations_pkey vs -> In a vs -> In b vs -> v_id a = v_id b -> a = b.
Proof.
  unfold violations_pkey. induction vs as [|x vs IH]; simpl; [contradiction|].
  intros Hnd Ha Hb E. inversion Hnd as [|? ? Hx Hnd']; subst.
  destruct Ha as [->|Ha], Hb as [->|Hb]; auto.
  - exfalso. apply Hx. rewrite E. now apply in_map.
  - exfalso. apply Hx. rewrite <- E. now apply in_map.
Qed.

Lemma NoDup_map_filter {A B} (f : A -> B) (p : A -> bool) l :
  NoDup (map f l) -> NoDup (map f (filter p l)).
Proof.
  induction l as [|x l IH]; simpl; auto.
  intros H. inversion H as [|? ? Hx Hnd]; subst.
  destruct (p x); simpl; auto. constructor; auto.
  intros Hin. apply Hx. apply in_map_iff in Hin as (y & Hy & Hin).
  apply filter_In in Hin as [Hin _]. rewrite <- Hy. now apply in_map.
Qed.

Lemma existsb_id_false (cursor : list violation) id :
  ~ In id (map v_id cursor) ->
  existsb (fun c => v_id c =? id) cursor = false.
Proof.
  intros H. destruct (existsb _ cursor) eqn:E; auto.
  apply existsb_exists in E as (c & Hin & Heq). apply Z.eqb_eq in Heq.
  exfalso. apply H. rewrite <- Heq. now apply in_map.
Qed.

Lemma backfill_where_student now es v e :
  backfill_where now es v e = true ->
  exists s, v_student_id v = Some s /\ e_student_id e = Some s.
Proof.
  unfold backfill_where.
  generalize (or3 (active_around now v e)
                (and3 (Some (is_null (e_started_at e)))
                   (eq3 (Some (e_id e))
                      (latest_created_exam es (v_student_id v))))).
  intros t.
  destruct (e_student_id e) as [a|], (v_student_id v) as [b|]; simpl;
    try (destruct t as [[|]|]; discriminate).
  destruct (Z.eqb_spec a b) as [->|N]; [eauto|].
  destruct t as [[|]|]; discriminate.
Qed.

Lemma backfill_order_preorder now v : TotalPreorder (backfill_order now v).
Proof. unfold backfill_order. typeclasses eauto. Qed.

(** The exam the backfill subquery returns belongs to the student of the
    row. *)
Lemma backfill_exam_student now es v id :
  backfill_exam now es v = Some id ->
  exists s, v_student_id v = Some s /\
            exam_of_student es (Some id) (Some s) = true.
Proof.
  unfold backfill_exam, backfill_rows.
  pose proof (select_first_id (backfill_order now v)
                (TotalPreorder0 := backfill_order_preorder now v)
                (backfill_where now es v) es) as H.
  destruct (scalar _) as [i|]; [|discriminate].
  intros [= ->]. destruct H as (m & Hin & Hw & Hid & _).
  destruct (backfill_where_student _ _ _ _ Hw) as (s & Hs & Hms).
  exists s. split; auto. apply exam_of_student_spec. eauto.
Qed.

(** The first loop's UPDATE never trips the trigger. *)
Lemma validate_backfilled now es v :
  missing_exam v = true ->
  validate_violation_exam_student_consistency es
    (set_exam_id v (backfill_exam now es v))
  = Ok (backfill_row now es v).
Proof.
  intros Hm. unfold backfill_row, backfill_choice. rewrite Hm.
  unfold missing_exam in Hm.
  destruct (v_exam_id v) eqn:He; [discriminate|].
  destruct (v_student_id v) as [sid|] eqn:Hs; [|discriminate].
  destruct (backfill_exam now es v) as [id|] eqn:Hb.
  - destruct (backfill_exam_student _ _ _ _ Hb) as (s & Hs' & Hex).
    rewrite Hs in Hs'. injection Hs' as <-.
    rewrite (validate_both_set es _ id sid) by (simpl; auto).
    now rewrite Hex.
  - rewrite (validate_student_only es _ sid) by (simpl; auto).
    reflexivity.
Qed.

Lemma backfill_row_id now es v : v_id (backfill_row now es v) = v_id v.
Proof. unfold backfill_row. now destruct (missing_exam v). Qed.

Lemma backfill_loop_map now es :
  forall cursor vs v_fixed v_skipped,
    violations_pkey vs ->
    NoDup (map v_id cursor) ->
    (forall c, In c cursor -> In c vs /\ missing_exam c = true) ->
    backfill_loop now es cursor vs v_fixed v_skipped
    = Ok (map (fun r => if existsb (fun c => v_id c =? v_id r) cursor
                        then backfill_row now es r else r) vs,
          v_fixed + Z.of_nat (List.length cursor), v_skipped).
Proof.
  induction cursor as [|c cursor IH]; intros vs v_fixed v_skipped Hpk Hnd Hc.
  - simpl. now rewrite map_id, Z.add_0_r.
  - cbn [backfill_loop].
    destruct (Hc c (or_introl eq_refl)) as [Hcin Hcm].
    inversion Hnd as [|? ? Hfresh Hnd']; subst.
    set (w := fun r => (v_id r =? v_id c) && is_null (v_exam_id r)).
    assert (Hw : forall r, In r vs -> w r = true -> r = c).
    { intros r Hr E. unfold w in E. apply andb_prop in E as [E _].
      apply Z.eqb_eq in E. exact (violations_pkey_inj vs r c Hpk Hr Hcin E). }
    assert (Hwc : w c = true).
    { unfold w. rewrite Z.eqb_refl. unfold missing_exam in Hcm.
      now destruct (is_null (v_exam_id c)). }
    rewrite (update_violations_map es w _ (backfill_row now es)).
    2:{ intros r Hr E. rewrite (Hw r Hr E). simpl.
        now apply validate_backfilled. }
    cbn [bind].
    assert (Hn : FOUND (List.length (filter w vs)) = true).
    { assert (In c (filter w vs)) by (apply filter_In; auto).
      destruct (filter w vs); [contradiction|reflexivity]. }
    rewrite Hn. rewrite IH; auto.
    + f_equal. apply f_equal2; [apply f_equal2|reflexivity].
      * rewrite map_map. apply map_ext_in. intros r Hr.
        cbn [existsb]. destruct (w r) eqn:E.
        -- rewrite (Hw r Hr E). rewrite Z.eqb_refl. cbn [orb].
           rewrite backfill_row_id.
           now rewrite (existsb_id_false cursor (v_id c) Hfresh).
        -- destruct (Z.eqb_spec (v_id c) (v_id r)) as [Eid|Nid]; auto.
           assert (r = c)
             by exact (violations_pkey_inj vs r c Hpk Hr Hcin (eq_sym Eid)).
           subst r. congruence.
      * cbn [List.length]. lia.
    + unfold violations_pkey in *. rewrite map_map.
      erewrite map_ext; [exact Hpk|].
      intros r. simpl. destruct (w r); auto using backfill_row_id.
    + intros c2 Hc2. destruct (Hc c2 (or_intror Hc2)) as [Hin2 Hm2].
      split; auto. apply in_map_iff. exists c2. split; auto.
      destruct (w c2) eqn:E; auto.
      exfalso. apply Hfresh. rewrite <- (Hw c2 Hin2 E). now apply in_map.
Qed.

Lemma cursor_selects (p : violation -> bool) (cursor vs : list violation) :
  violations_pkey vs ->
  (forall c, In c cursor <-> In c vs /\ p c = true) ->
  forall r, In r vs ->
    existsb (fun c => v_id c =? v_id r) cursor = p r.
Proof.
  intros Hpk Hc r Hr. destruct (p r) eqn:E.
  - apply existsb_exists. exists r. split; [apply Hc; auto|apply Z.eqb_refl].
  - destruct (existsb _ cursor) eqn:X; auto.
    apply existsb_exists in X as (c & Hin & Heq). apply Z.eqb_eq in Heq.
    apply Hc in Hin as [Hin Hp].
    assert (c = r) by exact (violations_pkey_inj vs c r Hpk Hin Hr Heq).
    congruence.
Qed.

(** The first loop, run over its own cursor. *)
Lemma backfill_pass now es vs :
  violations_pkey vs ->
  backfill_loop now es (backfill_cursor vs) vs 0 0
  = Ok (map (backfill_row now es) vs,
        Z.of_nat (List.length (filter missing_exam vs)), 0).
Proof.
  intros Hpk.
  assert (Hc : forall c, In c (backfill_cursor vs) <->
                         In c vs /\ missing_exam c = true).
  { intros c. unfold backfill_cursor. rewrite order_by_In.
    apply filter_In. }
  rewrite backfill_loop_map; auto.
  - f_equal. apply f_equal2; [apply f_equal2|reflexivity].
    + apply map_ext_in. intros r Hr.
      rewrite (cursor_selects missing_exam _ vs Hpk Hc r Hr).
      unfold backfill_row. now destruct (missing_exam r).
    + unfold backfill_cursor.
      now rewrite (Permutation_length (order_by_perm _ _)).
  - unfold backfill_cursor.
    eapply Permutation_NoDup.
    + apply Permutation_map, Permutation_sym, order_by_perm.
    + now apply NoDup_map_filter.
  - intros c Hin. now apply Hc.
Qed.

Lemma exam_rows_by_id es id :
  exams_pkey es ->
  filter (fun e => is_true (eq3 (Some (e_id e)) (Some id))) es
  = match lookup_exam es id with Some e => [e] | None => [] end.
Proof.
  unfold exams_pkey, lookup_exam.
  induction es as [|x es IH]; auto.
  intros Hnd. inversion Hnd as [|? ? Hx Hnd']; subst.
  cbn [filter find]. rewrite (IH Hnd'). cbn [eq3 is_true].
  destruct (Z.eqb_spec (e_id x) id) as [E|E]; auto.
  destruct (find _ es) as [y|] eqn:F; auto.
  apply find_some in F as [Hin Hy]. apply Z.eqb_eq in Hy.
  exfalso. apply Hx. rewrite E, <- Hy. now apply in_map.
Qed.

Lemma exam_owner_lookup es id :
  exams_pkey es ->
  exam_owner es (Some id)
  = Ok (option_bind (lookup_exam es id) e_student_id).
Proof.
  intros Hpk. unfold exam_owner, exam_student_rows.
  rewrite (exam_rows_by_id es id Hpk).
  now destruct (lookup_exam es id).
Qed.

(** The second loop's UPDATE never trips the trigger either. *)
Lemma validate_repaired es v :
  exams_pkey es -> mismatched es v = true ->
  (NEW <- (owner <- exam_owner es (v_exam_id v) ;;
           Ok (set_student_id v owner)) ;;
   validate_violation_exam_student_consistency es NEW)
  = Ok (repair_row es v).
Proof.
  intros Hpk Hm. unfold repair_row. rewrite Hm. unfold mismatched in Hm.
  destruct (v_exam_id v) as [eid|] eqn:He; [|discriminate].
  destruct (v_student_id v) as [sid|] eqn:Hs; [|discriminate].
  rewrite (exam_owner_lookup es eid Hpk). cbn [bind option_bind].
  destruct (lookup_exam es eid) as [e|] eqn:L; cbn [option_bind].
  - destruct (e_student_id e) as [s|] eqn:Hst.
    + rewrite (validate_both_set es _ eid s) by (simpl; auto).
      apply lookup_exam_In in L as [Hin Hid].
      assert (X : exam_of_student es (Some eid) (Some s) = true)
        by (apply exam_of_student_spec; eauto).
      now rewrite X.
    + rewrite (validate_exam_only es _ eid) by (simpl; auto).
      unfold exam_student_rows. rewrite (exam_rows_by_id es eid Hpk), L.
      simpl. now rewrite Hst.
  - rewrite (validate_exam_only es _ eid) by (simpl; auto).
    unfold exam_student_rows. rewrite (exam_rows_by_id es eid Hpk), L.
    reflexivity.
Qed.

Lemma repair_row_id es v : v_id (repair_row es v) = v_id v.
Proof. unfold repair_row. now destruct (mismatched es v). Qed.

Lemma repair_row_exam_id es v : v_exam_id (repair_row es v) = v_exam_id v.
Proof. unfold repair_row. now destruct (mismatched es v). Qed.

Lemma repair_loop_map es :
  exams_pkey es ->
  forall cursor vs v_fixed,
    violations_pkey vs ->
    NoDup (map v_id cursor) ->
    (forall c, In c cursor -> In c vs /\ mismatched es c = true) ->
    repair_loop es cursor vs v_fixed
    = Ok (map (fun r => if existsb (fun c => v_id c =? v_id r) cursor
                        then repair_row es r else r) vs,
          v_fixed + Z.of_nat (List.length cursor)).
Proof.
  intros Hes.
  induction cursor as [|c cursor IH]; intros vs v_fixed Hpk Hnd Hc.
  - simpl. now rewrite map_id, Z.add_0_r.
  - cbn [repair_loop].
    destruct (Hc c (or_introl eq_refl)) as [Hcin Hcm].
    inversion Hnd as [|? ? Hfresh Hnd']; subst.
    set (w := fun r => v_id r =? v_id c).
    assert (Hw : forall r, In r vs -> w r = true -> r = c).
    { intros r Hr E. unfold w in E. apply Z.eqb_eq in E.
      exact (violations_pkey_inj vs r c Hpk Hr Hcin E). }
    assert (Hwc : w c = true) by apply Z.eqb_refl.
    rewrite (update_violations_map es w _ (repair_row es)).
    2:{ intros r Hr E. rewrite (Hw r Hr E).
        now apply validate_repaired. }
    cbn [bind].
    assert (Hn : FOUND (List.length (filter w vs)) = true).
    { assert (In c (filter w vs)) by (apply filter_In; auto).
      destruct (filter w vs); [contradiction|reflexivity]. }
    rewrite Hn. rewrite IH; auto.
    + f_equal. apply f_equal2.
      * rewrite map_map. apply map_ext_in. intros r Hr.
        cbn [existsb]. destruct (w r) eqn:E.
        -- rewrite (Hw r Hr E). rewrite Z.eqb_refl. cbn [orb].
           rewrite repair_row_id.
           now rewrite (existsb_id_false cursor (v_id c) Hfresh).
        -- unfold w in E. rewrite Z.eqb_sym in E. now rewrite E.
      * cbn [List.length]. lia.
    + unfold violations_pkey in *. rewrite map_map.
      erewrite map_ext; [exact Hpk|].
      intros r. simpl. destruct (w r); auto using repair_row_id.
    + intros c2 Hc2. destruct (Hc c2 (or_intror Hc2)) as [Hin2 Hm2].
      split; auto. apply in_map_iff. exists c2. split; auto.
      destruct (w c2) eqn:E; auto.
      exfalso. apply Hfresh. rewrite <- (Hw c2 Hin2 E). now apply in_map.
Qed.

(** The second loop, run over its own cursor. *)
Lemma repair_pass es vs v_fixed :
  exams_pkey es -> violations_pkey vs ->
  repair_loop es (repair_cursor es vs) vs v_fixed
  = Ok (map (repair_row es) vs,
        v_fixed + Z.of_nat (List.length (filter (mismatched es) vs))).
Proof.
  intros Hes Hpk.
  assert (Hc : forall c, In c (repair_cursor es vs) <->
                         In c vs /\ mismatched es c = true).
  { intros c. apply filter_In. }
  rewrite repair_loop_map; auto.
  - f_equal. apply f_equal2; auto.
    apply map_ext_in. intros r Hr.
    rewrite (cursor_selects (mismatched es) _ vs Hpk Hc r Hr).
    unfold repair_row. now destruct (mismatched es r).
  - now apply NoDup_map_filter.
  - intros c Hin. now apply Hc.
Qed.

Lemma backfill_pass_pkey now es vs :
  violations_pkey vs -> violations_pkey (map (backfill_row now es) vs).
Proof.
  unfold violations_pkey. rewrite map_map. intros H.
  erewrite map_ext; [exact H|]. intros; apply backfill_row_id.
Qed.

(** A row the first loop has written is not a row the second loop
    selects. *)
Lemma mismatched_backfill_row now es v :
  mismatched es (backfill_row now es v) = mismatched es v.
Proof.
  unfold backfill_row. destruct (missing_exam v) eqn:Hm; auto.
  unfold missing_exam in Hm.
  destruct (v_exam_id v) eqn:He; [discriminate|].
  destruct (v_student_id v) as [sid|] eqn:Hs; [|discriminate].
  unfold mismatched. rewrite He, Hs. simpl. rewrite Hs.
  unfold backfill_choice.
  destruct (backfill_exam now es v) as [id|] eqn:Hb.
  - destruct (backfill_exam_student _ _ _ _ Hb) as (s & Hs' & Hex).
    rewrite Hs in Hs'. injection Hs' as <-. simpl. now rewrite Hex.
  - rewrite Hs. pose proof (resolve_exam_spec es sid) as H.
    destruct (resolve_exam es (Some sid)) as [id|]; auto.
    destruct H as (m & Hin & Hid & Hst & _).
    assert (X : exam_of_student es (Some id) (Some sid) = true)
      by (apply exam_of_student_spec; eauto).
    simpl. now rewrite X.
Qed.

Lemma filter_map_length {A} (p : A -> bool) (f : A -> A) l :
  (forall x, p (f x) = p x) ->
  List.length (filter p (map f l)) = List.length (filter p l).
Proof.
  intros H. induction l as [|x l IH]; simpl; auto.
  rewrite H. destruct (p x); simpl; auto.
Qed.

(** The whole function: under the primary keys it returns, both loops are
    row-wise maps, every selected row is counted as fixed and none as
    skipped. *)
Lemma fix_violations_exam_links_rows now db :
  exams_pkey (exams db) -> violations_pkey (violations db) ->
  fix_violations_exam_links now db
  = Ok (with_violations db
          (map (repair_row (exams db))
               (map (backfill_row now (exams db)) (violations db))),
        (Z.of_nat (List.length (filter missing_exam (violations db)))
         + Z.of_nat (List.length (filter (mismatched (exams db))
                                         (violations db))),
         0)).
Proof.
  intros Hes Hpk. unfold fix_violations_exam_links.
  rewrite (backfill_pass now (exams db) (violations db) Hpk). cbn [bind].
  rewrite repair_pass; auto using backfill_pass_pkey. cbn [bind].
  rewrite (filter_map_length _ _ _ (mismatched_backfill_row now (exams db))).
  reflexivity.
Qed.

(** ** The backfill subquery, spelled out *)

Lemma is_true_and3 a b : is_true (and3 a b) = is_true a && is_true b.
Proof. now destruct a as [[|]|], b as [[|]|]. Qed.

Lemma is_true_or3 a b : is_true (or3 a b) = is_true a || is_true b.
Proof. now destruct a as [[|]|], b as [[|]|]. Qed.

Lemma is_true_Some b : is_true (Some b) = b.
Proof. now destruct b. Qed.

Lemma is_true_eq3 a b :
  is_true (eq3 a b) = true <-> exists s, a = Some s /\ b = Some s.
Proof.
  destruct a as [x|], b as [y|]; simpl;
    try (split; [discriminate | intros (s & H1 & H2); discriminate]).
  destruct (Z.eqb_spec x y) as [->|N]; split; eauto; try discriminate.
  intros (s & H1 & H2). congruence.
Qed.

Lemma active_around_spec now v e :
  is_true (active_around now v e) = true <-> in_window now v e.
Proof.
  unfold active_around, in_window, ge3, le3. rewrite is_true_and3.
  destruct (e_started_at e) as [s|]; cbn [is_true andb].
  - destruct (Z.leb_spec s (v_timestamp v));
      destruct (Z.leb_spec (v_timestamp v) (coalesce (e_completed_at e) now));
      simpl; split; try discriminate; eauto;
      intros (s' & [= <-] & H1 & H2); lia.
  - split; [discriminate | intros (s' & H & _); discriminate].
Qed.

Lemma backfill_where_spec now es v e :
  backfill_where now es v e = true <-> backfill_candidate now es v e.
Proof.
  unfold backfill_where, backfill_candidate.
  rewrite is_true_and3, is_true_or3, is_true_and3, !andb_true_iff,
    orb_true_iff, andb_true_iff, active_around_spec, !is_true_eq3.
  split.
  - intros [(s & H1 & H2) H]. split; [eauto|].
    destruct H as [H|[H3 (i & [= <-] & H4)]]; auto.
    right. split; auto. simpl in H3. now destruct (e_started_at e).
  - intros [(s & H1 & H2) H]. split; [eauto|].
    destruct H as [H|[H3 H4]]; auto.
    right. rewrite H3. split; auto. eauto.
Qed.

Lemma desc_nulls_last_started a b :
  desc_nulls_last e_started_at a b <> Gt <-> started_desc_nulls_last a b.
Proof.
  unfold desc_nulls_last, started_desc_nulls_last.
  destruct (e_started_at a) as [x|], (e_started_at b) as [y|].
  - rewrite Z.compare_gt_iff. lia.
  - split; [auto | discriminate].
  - split; [congruence | intros []].
  - split; [auto | discriminate].
Qed.

Lemma sorts_before_backfill_order now v a b :
  sorts_before (backfill_order now v) a b <-> rank_then_started_desc now v a b.
Proof.
  unfold sorts_before, backfill_order, then_by, asc, backfill_rank,
    rank_then_started_desc.
  rewrite <- !active_around_spec, <- desc_nulls_last_started.
  destruct (is_true (active_around now v a)),
           (is_true (active_around now v b)); simpl.
  - tauto.
  - split; [intros _; split; [auto|] | discriminate].
    intros H. specialize (H eq_refl). discriminate.
  - split; [congruence | intros [H _]; specialize (H eq_refl); discriminate].
  - split; [intros H; split; auto | intros [_ H]; apply H; auto].
Qed.

(** What the backfill subquery returns. *)
Lemma backfill_exam_spec now es v :
  match backfill_exam now es v with
  | Some id =>
      exists m, In m es /\ e_id m = id /\ backfill_candidate now es v m /\
                forall e, In e es -> backfill_candidate now es v e ->
                          rank_then_started_desc now v m e
  | None => forall e, In e es -> ~ backfill_candidate now es v e
  end.
Proof.
  unfold backfill_exam, backfill_rows.
  pose proof (select_first_id (backfill_order now v)
                (TotalPreorder0 := backfill_order_preorder now v)
                (backfill_where now es v) es) as H.
  destruct (scalar _) as [id|].
  - destruct H as (m & Hin & Hw & Hid & Hmin).
    exists m. do 2 (split; [assumption|]).
    split; [now apply backfill_where_spec|].
    intros x Hx Hcx. apply sorts_before_backfill_order.
    apply Hmin; auto. now apply backfill_where_spec.
  - intros x Hx Hcx. apply backfill_where_spec in Hcx.
    rewrite (H x Hx) in Hcx. discriminate.
Qed.

Lemma set_exam_id_same v : set_exam_id v (v_exam_id v) = v.
Proof. now destruct v. Qed.

Lemma missing_exam_spec v :
  missing_exam v = true <->
  v_exam_id v = None /\ exists s, v_student_id v = Some s.
Proof.
  unfold missing_exam. destruct (v_exam_id v), (v_student_id v); simpl;
    split; try discriminate; eauto;
    intros [H1 (s & H2)]; discriminate.
Qed.

Lemma mismatched_spec es v :
  exams_pkey es ->
  mismatched es v = true <->
  exists exam_id student_id,
    v_exam_id v = Some exam_id /\ v_student_id v = Some student_id /\
    forall e, lookup_exam es exam_id = Some e ->
              e_student_id e <> Some student_id.
Proof.
  intros Hpk. unfold mismatched.
  destruct (v_exam_id v) as [eid|], (v_student_id v) as [sid|]; simpl;
    try (split; [discriminate | intros (a & b & H1 & H2 & _); discriminate]).
  rewrite negb_true_iff. split.
  - intros H. exists eid, sid. do 2 (split; auto).
    intros e L Hst. apply lookup_exam_In in L as [Hin Hid].
    assert (X : exam_of_student es (Some eid) (Some sid) = true)
      by (apply exam_of_student_spec; eauto).
    congruence.
  - intros (a & b & [= <-] & [= <-] & H).
    destruct (exam_of_student es (Some eid) (Some sid)) eqn:X; auto.
    apply exam_of_student_spec in X as (e & Hin & Hid & Hst).
    exfalso. apply (H e); auto. subst eid. now apply lookup_exam_unique.
Qed.

(** After the function, the row with a given id is the image of the row
    that had this id before. *)
Lemma fixed_row_unique now es vs v v' :
  violations_pkey vs -> In v vs ->
  In v' (map (repair_row es) (map (backfill_row now es) vs)) ->
  v_id v' = v_id v ->
  v' = repair_row es (backfill_row now es v).
Proof.
  intros Hpk Hin Hin' Hid. rewrite map_map in Hin'.
  apply in_map_iff in Hin' as (r & <- & Hr).
  rewrite repair_row_id, backfill_row_id in Hid.
  now rewrite (violations_pkey_inj vs r v Hpk Hr Hin Hid).
Qed.

Lemma backfill_row_missing now es v :
  v_exam_id v = None -> (exists s, v_student_id v = Some s) ->
  repair_row es (backfill_row now es v)
  = set_exam_id v (backfill_choice now es v).
Proof.
  intros He Hs.
  assert (Hm : missing_exam v = true) by (apply missing_exam_spec; auto).
  unfold repair_row. rewrite mismatched_backfill_row.
  unfold mismatched. rewrite He. simpl.
  unfold backfill_row. now rewrite Hm.
Qed.

Lemma fix_missing_exam_id_rows now db :
  fix_missing_exam_id now db
  = Ok (with_violations db (map (backfill_row now (exams db)) (violations db)),
        List.length (filter missing_exam (violations db))).
Proof.
  unfold fix_missing_exam_id.
  rewrite (update_violations_map (exams db) missing_exam _
             (backfill_row now (exams db))).
  - cbn [bind]. do 2 f_equal. f_equal.
    apply map_ext. intros r. unfold backfill_row.
    now destruct (missing_exam r).
  - intros r _ Hm. simpl. now apply validate_backfilled.
Qed.

(** ** C4: which exam the backfill assigns *)




Lemma specified_backfill_exam_some now es v sid :
  v_student_id v = Some sid ->
  (exists e, In e es /\ e_student_id e = Some sid) ->
  specified_backfill_exam now es v <> None.
Proof.
  intros Hs (e & He & Hse). unfold specified_backfill_exam.
  pose proof (select_first_id (backfill_order now v)
                (TotalPreorder0 := backfill_order_preorder now v)
                (fun e => is_true (eq3 (e_student_id e) (v_student_id v)))
                es) as H.
  destruct (scalar _) as [id|]; [discriminate|].
  specialize (H e He). cbn beta in H. rewrite Hse, Hs in H. cbn in H.
  rewrite Z.eqb_refl in H. discriminate.
Qed.

(** C4 fails on the fallback.  The claim, like the comment in the
    subquery ("Fallback to most recent exam if timestamp doesn't match"),
    takes every exam of the student as a candidate, rank 2 when its window
    does not hold the violation timestamp.  The subquery's WHERE lets an
    exam outside its window in only when it was never started and is the
    student's latest created exam.  So where the claim holds on the code
    (exams A and B, in either heap order: the violation at 2800 gets A;
    two exams never started: the one created last), it fails as soon as
    every exam of the student has a started_at and none has the timestamp
    in its window: the claim's order picks an exam, the subquery yields
    NULL.  Student 11 has one exam, abandoned and started at 8200; the
    violation is at 2800.  The claim's order picks that exam; the function
    and the migration's Step 1 leave exam_id NULL, and the function counts
    the row as fixed, not skipped. *)
Theorem backfill_leaves_started_exam_outside_window :
  backfill_exam 9000 [exam_A; exam_B] violation_early = Some 4
  /\ backfill_exam 9000 [exam_B; exam_A] violation_early = Some 4
  /\ backfill_exam 9000 [exam_N1; exam_N2] violation_early = Some 7
  /\ backfill_exam 9000 [exam_N2; exam_N1] violation_early = Some 7
  /\ specified_backfill_exam 9000 (exams db_abandoned) violation_early = Some 3
  /\ backfill_exam 9000 (exams db_abandoned) violation_early = None
  /\ violations db_abandoned
     = [mk_violation 60 None (Some 11) (Some "tab_switch"%string) 2800]
  /\ fix_violations_exam_links 9000 db_abandoned = Ok (db_abandoned, (1, 0))
  /\ fix_missing_exam_id 9000 db_abandoned = Ok (db_abandoned, 1%nat)
  /\ (forall now es v sid,
        v_student_id v = Some sid ->
        (exists e, In e es /\ e_student_id e = Some sid) ->
        (forall e, In e es -> e_student_id e = Some sid ->
                   e_started_at e <> None /\ ~ in_window now v e) ->
        backfill_exam now es v = None
        /\ specified_backfill_exam now es v <> None).
Proof.
  do 9 (split; [reflexivity|]).
  intros now es v sid Hs Hex Hall. split.
  - pose proof (backfill_exam_spec now es v) as H.
    destruct (backfill_exam now es v) as [id|]; [|reflexivity].
    destruct H as (m & Hm & _ & ((s & Hvs & Hms) & Hc) & _).
    rewrite Hs in Hvs. injection Hvs as <-.
    destruct (Hall m Hm Hms) as [Hst Hw].
    destruct Hc as [Hc | [Hc _]]; [contradiction|congruence].
  - now apply (specified_backfill_exam_some now es v sid).
Qed.

(** ** C5: the repair pass rewrites student_id, never exam_id *)

Lemma fix_mismatched_student_id_rows db :
  exams_pkey (exams db) ->
  fix_mismatched_student_id db
  = Ok (with_violations db (map (repair_row (exams db)) (violations db)),
        List.length (filter (mismatched (exams db)) (violations db))).
Proof.
  intros Hes. unfold fix_mismatched_student_id.
  rewrite (update_violations_map (exams db) (mismatched (exams db)) _
             (repair_row (exams db))).
  - cbn [bind]. do 2 f_equal. f_equal.
    apply map_ext. intros r. unfold repair_row.
    now destruct (mismatched (exams db) r).
  - intros r _ Hm. now apply validate_repaired.
Qed.

Lemma map_repair_row_exam_id es vs :
  map v_exam_id (map (repair_row es) vs) = map v_exam_id vs.
Proof.
  rewrite map_map. apply map_ext. intros; apply repair_row_exam_id.
Qed.

Lemma map_repair_row_id es vs :
  map v_id (map (repair_row es) vs) = map v_id vs.
Proof.
  rewrite map_map. apply map_ext. intros; apply repair_row_id.
Qed.

(** C5.  Violation ids and exam ids being unique, a violation that names
    exam [exam_id] and student [student_id] while that exam is not this
    student's leaves the function with student_id overwritten by the
    student_id of the exam and everything else, exam_id included, as it
    was.  The second loop (and the migration's single UPDATE) changes the
    exam_id of no row of the table. *)
Theorem repair_overwrites_student_id :
  forall (now : timestamptz) (db : database) (v : violation)
         (exam_id student_id : uuid),
    exams_pkey (exams db) -> violations_pkey (violations db) ->
    In v (violations db) ->
    v_exam_id v = Some exam_id -> v_student_id v = Some student_id ->
    (forall e, lookup_exam (exams db) exam_id = Some e ->
               e_student_id e <> Some student_id) ->
    let owner := option_bind (lookup_exam (exams db) exam_id) e_student_id in
    (exists db' counts,
        fix_violations_exam_links now db = Ok (db', counts) /\
        In (set_student_id v owner) (violations db') /\
        (forall v', In v' (violations db') -> v_id v' = v_id v ->
                    v' = set_student_id v owner))
    /\ v_exam_id (set_student_id v owner) = Some exam_id
    /\ (forall v_fixed, exists vs' n,
          repair_loop (exams db) (repair_cursor (exams db) (violations db))
                      (violations db) v_fixed = Ok (vs', n) /\
          In (set_student_id v owner) vs' /\
          map v_id vs' = map v_id (violations db) /\
          map v_exam_id vs' = map v_exam_id (violations db))
    /\ (exists db' n,
          fix_mismatched_student_id db = Ok (db', n) /\
          In (set_student_id v owner) (violations db') /\
          map v_exam_id (violations db') = map v_exam_id (violations db)).
Proof.
  intros now db v exam_id student_id Hes Hpk Hin He Hs Hno owner.
  assert (Hm : mismatched (exams db) v = true).
  { apply mismatched_spec; auto. exists exam_id, student_id. auto. }
  assert (Hr : repair_row (exams db) v = set_student_id v owner).
  { unfold repair_row. rewrite Hm, He. reflexivity. }
  assert (Hb : backfill_row now (exams db) v = v).
  { unfold backfill_row, missing_exam. now rewrite He. }
  split; [|split; [|split]].
  - rewrite (fix_violations_exam_links_rows now db Hes Hpk).
    eexists _, _. split; [reflexivity|]. cbn [violations with_violations].
    split.
    + rewrite <- Hr. rewrite <- Hb at 1. rewrite map_map.
      apply (in_map (fun x => repair_row _ (backfill_row _ _ x))), Hin.
    + intros v' Hv' Hid. rewrite <- Hr. rewrite <- Hb at 1.
      eapply fixed_row_unique; eauto.
  - exact He.
  - intros v_fixed. rewrite (repair_pass _ _ v_fixed Hes Hpk).
    eexists _, _. split; [reflexivity|].
    split; [|split].
    + rewrite <- Hr. now apply in_map.
    + apply map_repair_row_id.
    + apply map_repair_row_exam_id.
  - rewrite (fix_mismatched_student_id_rows db Hes).
    eexists _, _. split; [reflexivity|]. cbn [violations with_violations].
    split.
    + rewrite <- Hr. now apply in_map.
    + apply map_repair_row_exam_id.
Qed.

Lemma repair_overwrites_student_id_witness :
  exists db' counts,
    fix_violations_exam_links 9000 db_mismatch = Ok (db', counts)
    /\ In (set_student_id violation_E_S2 (Some 11)) (violations db').
Proof.
  destruct (repair_overwrites_student_id 9000 db_mismatch violation_E_S2 1 12)
    as ((db' & counts & H1 & H2 & _) & _).
  - unfold exams_pkey. simpl. repeat constructor; simpl; intuition discriminate.
  - unfold violations_pkey. simpl.
    repeat constructor; simpl; intuition discriminate.
  - right. left. reflexivity.
  - reflexivity.
  - reflexivity.
  - intros e [= <-]. discriminate.
  - exists db', counts. split; [exact H1 | exact H2].
Defined.

(** ** C9: FOUND is true for every cursor row *)

(** C9.  Violation ids being unique, the first loop counts every row of
    its cursor as fixed and none as skipped, also the rows for which no
    exam is found and whose exam_id is written back as NULL; with unique
    exam ids the function returns with violations_skipped = 0 and
    violations_fixed = the number of rows the two cursors select. *)
Theorem skipped_is_always_zero :
  forall (now : timestamptz) (db : database),
    violations_pkey (violations db) ->
    backfill_loop now (exams db) (backfill_cursor (violations db))
                  (violations db) 0 0
    = Ok (map (backfill_row now (exams db)) (violations db),
          Z.of_nat (List.length (filter missing_exam (violations db))), 0)
    /\ (forall v, In v (violations db) -> missing_exam v = true ->
                  backfill_choice now (exams db) v = None ->
                  backfill_row now (exams db) v = v /\
                  In v (filter missing_exam (violations db)))
    /\ (exams_pkey (exams db) ->
        exists db',
          fix_violations_exam_links now db
          = Ok (db',
                (Z.of_nat (List.length (filter missing_exam (violations db)))
                 + Z.of_nat (List.length (filter (mismatched (exams db))
                                                 (violations db))),
                 0))).
Proof.
  intros now db Hpk. split; [|split].
  - now apply backfill_pass.
  - intros v Hin Hm Hnone. split.
    + unfold backfill_row. rewrite Hm, Hnone.
      apply missing_exam_spec in Hm as [He _].
      rewrite <- He. apply set_exam_id_same.
    + apply filter_In. auto.
  - intros Hes. rewrite (fix_violations_exam_links_rows now db Hes Hpk).
    eexists. reflexivity.
Qed.

Lemma skipped_is_always_zero_witness :
  backfill_loop 9000 (exams db_abandoned)
                (backfill_cursor (violations db_abandoned))
                (violations db_abandoned) 0 0
  = Ok ([violation_early], 1, 0).
Proof.
  destruct (skipped_is_always_zero 9000 db_abandoned) as (H & _).
  - unfold violations_pkey. simpl. repeat constructor; simpl; intuition.
  - exact H.
Defined.

(** ** C3: what a second run returns *)

(** The subquery reads student_id and timestamp of the row only. *)
Lemma backfill_choice_set_exam_id now es v x :
  backfill_choice now es (set_exam_id v x) = backfill_choice now es v.
Proof. reflexivity. Qed.

Lemma backfill_row_idempotent now es v :
  backfill_row now es (backfill_row now es v) = backfill_row now es v.
Proof.
  unfold backfill_row at 2. destruct (missing_exam v) eqn:Hm.
  - unfold backfill_row. rewrite Hm.
    destruct (missing_exam (set_exam_id v (backfill_choice now es v)));
      reflexivity.
  - unfold backfill_row. now rewrite Hm.
Qed.

Lemma repair_row_idempotent es v :
  repair_row es (repair_row es v) = repair_row es v.
Proof.
  unfold repair_row at 2. destruct (mismatched es v) eqn:Hm.
  - unfold repair_row. rewrite Hm.
    destruct (mismatched es (set_student_id v _)); reflexivity.
  - unfold repair_row. now rewrite Hm.
Qed.

Lemma missing_exam_repair_row es v :
  missing_exam (repair_row es v) = missing_exam v.
Proof.
  unfold repair_row. destruct (mismatched es v) eqn:Hm; auto.
  unfold mismatched in Hm. unfold missing_exam. simpl.
  destruct (v_exam_id v); [reflexivity|discriminate].
Qed.

(** On the data the function is idempotent: a row it has written is
    written back unchanged by a second run. *)
Lemma fixed_row_idempotent now es v :
  repair_row es (backfill_row now es (repair_row es (backfill_row now es v)))
  = repair_row es (backfill_row now es v).
Proof.
  assert (H : backfill_row now es (repair_row es (backfill_row now es v))
              = repair_row es (backfill_row now es v)).
  { unfold backfill_row at 1. rewrite missing_exam_repair_row.
    destruct (missing_exam (backfill_row now es v)) eqn:Hm; auto.
    unfold repair_row. rewrite mismatched_backfill_row.
    destruct (mismatched es v) eqn:Hmm.
    - exfalso. unfold backfill_row in Hm.
      destruct (missing_exam v) eqn:Hv.
      + unfold mismatched in Hmm. unfold missing_exam in Hv.
        destruct (v_exam_id v); discriminate.
      + congruence.
    - pose proof (backfill_row_idempotent now es v) as I.
      unfold backfill_row at 1 in I. now rewrite Hm in I. }
  rewrite H. apply repair_row_idempotent.
Qed.

(** A second run on the data the first run left finds the table as it is,
    and still reports as fixed every row whose exam_id is NULL. *)
Lemma second_run now db db1 counts :
  exams_pkey (exams db) -> violations_pkey (violations db) ->
  fix_violations_exam_links now db = Ok (db1, counts) ->
  fix_violations_exam_links now db1
  = Ok (db1, (Z.of_nat (List.length (filter missing_exam (violations db1)))
              + Z.of_nat (List.length (filter (mismatched (exams db1))
                                              (violations db1))),
              0)).
Proof.
  intros Hes Hpk H.
  rewrite (fix_violations_exam_links_rows now db Hes Hpk) in H.
  injection H as <- _.
  rewrite fix_violations_exam_links_rows; cbn [exams violations with_violations];
    auto.
  - do 2 f_equal. unfold with_violations. cbn [exams students exam_templates].
    f_equal. rewrite !map_map. apply map_ext. intros v.
    apply fixed_row_idempotent.
  - unfold violations_pkey in *. now rewrite map_repair_row_id, map_map;
      erewrite map_ext; [exact Hpk|intros; apply backfill_row_id].
Qed.

Lemma not_mismatched_linked es v :
  exams_pkey es -> mismatched es v = false -> linked es v.
Proof.
  intros Hpk Hm eid sid He Hs. unfold mismatched in Hm.
  rewrite He, Hs in Hm. simpl in Hm. apply negb_false_iff in Hm.
  apply exam_of_student_spec in Hm as (e & Hin & Hid & Hst).
  exists e. split; auto. subst eid. now apply lookup_exam_unique.
Qed.

(** Whatever the table held, after the function every violation satisfies
    I1. *)
Lemma fix_violations_exam_links_restores_I1 now db :
  exams_pkey (exams db) -> violations_pkey (violations db) ->
  exists db' counts,
    fix_violations_exam_links now db = Ok (db', counts) /\ I1 db'.
Proof.
  intros Hes Hpk. rewrite (fix_violations_exam_links_rows now db Hes Hpk).
  eexists _, _. split; [reflexivity|].
  intros v' Hin. cbn [violations exams with_violations] in *.
  rewrite map_map in Hin. apply in_map_iff in Hin as (v & <- & Hv).
  unfold repair_row.
  destruct (mismatched (exams db) (backfill_row now (exams db) v)) eqn:Hm.
  - intros eid sid He Hs. cbn [v_exam_id v_student_id set_student_id] in *.
    rewrite He in Hs. cbn [option_bind] in Hs.
    destruct (lookup_exam (exams db) eid) as [e|]; [|discriminate].
    exists e. auto.
  - now apply not_mismatched_linked.
Qed.

(** C3 fails on the returned counts.  A violation of a student without any
    exam cannot be linked: the first run leaves the table as it is and
    returns violations_fixed = 1, violations_skipped = 0; a second run on
    the same data returns violations_fixed = 1 again, where the claim
    wants 0. *)
Theorem second_run_reports_fixed_again :
  fix_violations_exam_links 9000 db_no_exam = Ok (db_no_exam, (1, 0))
  /\ (forall db1 counts,
        fix_violations_exam_links 9000 db_no_exam = Ok (db1, counts) ->
        fix_violations_exam_links 9000 db1 = Ok (db1, (1, 0))).
Proof.
  split; [reflexivity|].
  intros db1 counts H. injection H as <- _. reflexivity.
Qed.

(** ** C10: the rollup only sees linked violations *)

Lemma is_true_eq3_Some a b :
  is_true (eq3 a (Some b)) = true <-> a = Some b.
Proof.
  rewrite is_true_eq3. split.
  - intros (s & H1 & [= <-]). exact H1.
  - intros ->. eauto.
Qed.

Lemma on_violation_spec e v :
  on_violation e v = true <->
  v_exam_id v = Some (e_id e) /\ v_student_id v = e_student_id e /\
  v_student_id v <> None.
Proof.
  unfold on_violation.
  rewrite is_true_and3, andb_true_iff, is_true_eq3_Some, is_true_eq3.
  split.
  - intros [H1 (s & H2 & H3)]. repeat split; congruence.
  - intros (H1 & H2 & H3). split; auto.
    destruct (v_student_id v) as [s|]; [|congruence]. eauto.
Qed.

Lemma on_violation_matches es e v :
  In e es -> on_violation e v = true -> exam_matches es v = true.
Proof.
  intros Hin H. apply on_violation_spec in H as (H1 & H2 & H3).
  unfold exam_matches. rewrite H1.
  destruct (v_student_id v) as [s|] eqn:Hs; [|congruence].
  apply exam_of_student_spec. eauto.
Qed.

Lemma filter_filter_implied {A} (p q : A -> bool) l :
  (forall x, p x = true -> q x = true) ->
  filter p (filter q l) = filter p l.
Proof.
  intros H. induction l as [|x l IH]; simpl; auto.
  destruct (q x) eqn:Q; simpl; rewrite IH; auto.
  destruct (p x) eqn:P; auto. rewrite (H x P) in Q. discriminate.
Qed.

Lemma flat_map_ext_in {A B} (f g : A -> list B) l :
  (forall x, In x l -> f x = g x) -> flat_map f l = flat_map g l.
Proof.
  intros H. induction l as [|x l IH]; simpl; auto.
  rewrite (H x (or_introl eq_refl)), IH; auto.
  intros y Hy. apply H. now right.
Qed.

Lemma left_join_In {B} (on : B -> bool) bs x :
  In (Some x) (left_join on bs) <-> In x bs /\ on x = true.
Proof.
  unfold left_join. rewrite <- filter_In.
  destruct (filter on bs) as [|y m]; simpl.
  - split; [intros [H|[]]; discriminate | intros []].
  - split.
    + intros [[= ->]|H]; auto.
      apply in_map_iff in H as (z & [= ->] & Hz). auto.
    + intros [->|H]; auto. right. now apply in_map.
Qed.

(** The FROM clause does not see the violations that fail the EXISTS
    test. *)
Lemma from_clause_matches db :
  from_clause (with_violations db (filter (exam_matches (exams db))
                                          (violations db)))
  = from_clause db.
Proof.
  unfold from_clause. cbn [exams students exam_templates violations
                           with_violations].
  apply flat_map_ext_in. intros e He.
  apply flat_map_ext. intros s. apply flat_map_ext. intros et.
  f_equal. unfold left_join.
  rewrite filter_filter_implied; auto.
  intros v. now apply on_violation_matches.
Qed.

Lemma from_clause_violation db j v :
  In j (from_clause db) -> j_v j = Some v ->
  In (j_e j) (exams db) /\ In v (violations db) /\
  on_violation (j_e j) v = true.
Proof.
  unfold from_clause. intros Hj Hv.
  apply in_flat_map in Hj as (e & He & Hj).
  apply in_flat_map in Hj as (s & Hs & Hj).
  apply in_flat_map in Hj as (et & Het & Hj).
  apply in_map_iff in Hj as (ov & <- & Hov). simpl in *. subst ov.
  apply left_join_In in Hov as [Hin Hon]. auto.
Qed.

Lemma group_violations_In rows v :
  In v (group_violations rows) <-> exists j, In j rows /\ j_v j = Some v.
Proof.
  induction rows as [|j rows IH]; simpl.
  - split; [intros [] | intros (j & [] & _)].
  - destruct (j_v j) as [w|] eqn:E; simpl; rewrite IH; split.
    + intros [<-|(x & Hx & Hv)]; eauto.
    + intros (x & [<-|Hx] & Hv); [left; congruence | eauto].
    + intros (x & Hx & Hv); eauto.
    + intros (x & [<-|Hx] & Hv); [congruence | eauto].
Qed.

Lemma in_group_key k j : in_group k j = true -> key_of j = k.
Proof.
  unfold in_group. now destruct (group_key_eq_dec (key_of j) k).
Qed.

(** C10.  The view is the same on the table and on the table without the
    violations that fail the EXISTS test of I1.  A violation joined to an
    exam names that exam and the student of that exam; hence the
    violations a rollup row counts, lists the types of and takes first and
    last timestamp of all name the row's exam and the row's student.
    Storing one more violation whose student is not the owner of its exam
    changes no row of the view. *)
Theorem rollup_aggregates_linked_violations_only :
  forall (db : database),
    violations_by_exam_student db
    = violations_by_exam_student
        (with_violations db (filter (exam_matches (exams db))
                                    (violations db)))
    /\ (forall j v, In j (from_clause db) -> j_v j = Some v ->
          In v (violations db) /\
          v_exam_id v = Some (e_id (j_e j)) /\
          v_student_id v = e_student_id (j_e j) /\
          v_student_id v <> None /\
          exam_matches (exams db) v = true)
    /\ (forall k rows v,
          In (k, rows) (group_by (from_clause db)) ->
          In v (group_violations rows) ->
          In v (violations db) /\
          v_exam_id v = Some (g_id k) /\ v_student_id v = g_student_id k /\
          v_student_id v <> None)
    /\ (forall v exam_id student_id,
          v_exam_id v = Some exam_id -> v_student_id v = Some student_id ->
          (forall e, In e (exams db) -> e_id e = exam_id ->
                     e_student_id e <> Some student_id) ->
          violations_by_exam_student
            (with_violations db (violations db ++ [v]))
          = violations_by_exam_student db).
Proof.
  intros db.
  assert (H1 : forall d,
             violations_by_exam_student d
             = violations_by_exam_student
                 (with_violations d (filter (exam_matches (exams d))
                                            (violations d)))).
  { intros d. unfold violations_by_exam_student.
    now rewrite from_clause_matches. }
  assert (H2 : forall j v, In j (from_clause db) -> j_v j = Some v ->
                 In v (violations db) /\
                 v_exam_id v = Some (e_id (j_e j)) /\
                 v_student_id v = e_student_id (j_e j) /\
                 v_student_id v <> None /\
                 exam_matches (exams db) v = true).
  { intros j v Hj Hv.
    destruct (from_clause_violation db j v Hj Hv) as (He & Hin & Hon).
    pose proof (on_violation_matches _ _ _ He Hon) as Hm.
    apply on_violation_spec in Hon as (E1 & E2 & E3). auto 6. }
  split; [apply H1|]. split; [exact H2|]. split.
  - intros k rows v Hg Hv. unfold group_by in Hg.
    apply in_map_iff in Hg as (k' & [= <- <-] & Hk).
    apply group_violations_In in Hv as (j & Hj & Hjv).
    apply filter_In in Hj as [Hj Hkey].
    apply in_group_key in Hkey. subst k'. destruct (H2 j v Hj Hjv) as (A1 & A2 & A3 & A4 & _). auto.
  - intros v exam_id student_id He Hs Hno.
    rewrite (H1 (with_violations db (violations db ++ [v]))), (H1 db).
    cbn [exams violations with_violations]. unfold with_violations.
    cbn [exams students exam_templates].
    rewrite filter_app. cbn [filter].
    assert (X : exam_matches (exams db) v = false).
    { unfold exam_matches. rewrite He, Hs.
      destruct (exam_of_student _ _ _) eqn:E; auto.
      apply exam_of_student_spec in E as (e & Hin & Hid & Hst).
      exfalso. exact (Hno e Hin Hid Hst). }
    now rewrite X, app_nil_r.
Qed.

(** ** The single-tab check *)

Section DetectorProperties.

Import Detector.
Local Open Scope nat_scope.

(** What one call of [cleanup] leaves of the page. *)
Lemma cleanup_page cl p :
  Detector.exec (cleanup cl) p
  = mk_page (has_BroadcastChannel p) (next_handle p)
      (filter (fun t => negb (t_handle t =? c_continuousCheckInterval cl))
        (filter (fun t => negb (t_handle t =? c_storageInterval cl))
          (filter (fun t => negb (t_handle t =? c_requestInterval cl))
            (filter (fun t => negb (t_handle t =? c_heartbeatInterval cl))
              (filter (fun t => negb (t_handle t =? c_initialCheckTimeout cl))
                      (timers p))))))
      (filter (fun l => negb (l =? c_storageEventHandler cl))
              (storage_listeners p))
      (map (fun c => if ch_handle c =? c_channel cl
                     then mk_channel (ch_handle c) (ch_name c) true
                                     (ch_onmessage c) (ch_cleanup c)
                     else c)
           (map (fun c => if ch_handle c =? c_channel cl
                          then mk_channel (ch_handle c) (ch_name c)
                                          (ch_closed c) None (ch_cleanup c)
                          else c)
                (channels p)))
      None None None (singleTabCheck p)
      (systemInfo p) (networkTest p) (screenShare p)
      (audioCalibration p) (lightingCheck p).
Proof. reflexivity. Qed.

Lemma filter_twice {A} (f : A -> bool) l : filter f (filter f l) = filter f l.
Proof. now apply filter_filter_implied. Qed.

Lemma filter_swap {A} (f g : A -> bool) l :
  filter f (filter g l) = filter g (filter f l).
Proof.
  induction l as [|x l IH]; simpl; auto.
  destruct (f x) eqn:F, (g x) eqn:G; simpl; rewrite ?F, ?G, IH; auto.
Qed.

(** Calling [cleanup] a second time changes nothing. *)
Lemma cleanup_idempotent cl p :
  Detector.exec (cleanup cl) (Detector.exec (cleanup cl) p)
  = Detector.exec (cleanup cl) p.
Proof.
  rewrite !cleanup_page. cbn [has_BroadcastChannel next_handle timers
    storage_listeners channels singleTabCheck systemInfo networkTest
    screenShare audioCalibration lightingCheck].
  f_equal.
  - set (f1 := fun t => negb (t_handle t =? c_initialCheckTimeout cl)).
    set (f2 := fun t => negb (t_handle t =? c_heartbeatInterval cl)).
    set (f3 := fun t => negb (t_handle t =? c_requestInterval cl)).
    set (f4 := fun t => negb (t_handle t =? c_storageInterval cl)).
    set (f5 := fun t => negb (t_handle t =? c_continuousCheckInterval cl)).
    rewrite (filter_swap f1 f5), (filter_swap f1 f4), (filter_swap f1 f3),
      (filter_swap f1 f2), filter_twice.
    rewrite (filter_swap f2 f5), (filter_swap f2 f4), (filter_swap f2 f3),
      filter_twice.
    rewrite (filter_swap f3 f5), (filter_swap f3 f4), filter_twice.
    rewrite (filter_swap f4 f5), filter_twice.
    now rewrite filter_twice.
  - apply filter_twice.
  - rewrite !map_map. apply map_ext. intros c.
    destruct (ch_handle c =? c_channel cl) eqn:E;
      do 3 (cbn [ch_handle ch_name ch_closed ch_onmessage ch_cleanup];
            rewrite ?E); reflexivity.
Qed.

(** One check followed by unmounting releases everything the check
    acquired, and unmounting twice is the same as once. *)
Lemma unmount_after_one_check :
  let p1 := Detector.exec checkSingleTab (mounted true) in
  let p2 := Detector.exec unmount p1 in
  timers p1 <> [] /\ timers p2 = [] /\ storage_listeners p2 = []
  /\ localStorage_slot p2 = None
  /\ (forall c, In c (channels p2) -> ch_closed c = true)
  /\ Detector.exec unmount p2 = p2.
Proof.
  vm_compute. split; [discriminate|]. repeat split.
  intros c [<-|[]]. reflexivity.
Qed.

(** C7 fails when the check is run again.  The second call of
    checkSingleTab closes the previous channel and clears the previous
    continuous-check interval only; it does not call the [cleanup] it
    stored on the previous channel.  The heartbeat, count-request and
    storage intervals, the initial-check timeout and the 'storage' listener
    of the first call (tabId 2) stay scheduled, and unmounting afterwards
    does not release them either. *)
Theorem rerun_leaves_previous_timers :
  let p1 := Detector.exec checkSingleTab (mounted true) in
  let p2 := Detector.exec checkSingleTab p1 in
  let p3 := Detector.exec unmount p2 in
  map t_callback (filter (fun t => t_tab t =? 2) (timers p1))
  = [post_heartbeat; post_count_request; storageUpdate; initialCheck;
     continuousCheck]
  /\ map t_callback (filter (fun t => t_tab t =? 2) (timers p2))
     = [post_heartbeat; post_count_request; storageUpdate; initialCheck]
  /\ In 2 (storage_listeners p2)
  /\ map t_callback (timers p3)
     = [post_heartbeat; post_count_request; storageUpdate; initialCheck]
  /\ storage_listeners p3 = [2]
  /\ ~ holds_nothing p3 2.
Proof.
  vm_compute. repeat split; try reflexivity.
  - left. reflexivity.
  - intros (_ & H & _). apply H. left. reflexivity.
Qed.

(** C8.  Without BroadcastChannel the check ends in status "error": the
    step is not passed, so [allStepsPassed] is false whatever the other
    steps say, and the call acquires nothing. *)
Theorem unsupported_browser_fails_closed :
  forall (p : page),
    has_BroadcastChannel p = false ->
    status (singleTabCheck (Detector.exec checkSingleTab p)) = error
    /\ allStepsPassed (Detector.exec checkSingleTab p) = false
    /\ timers (Detector.exec checkSingleTab p) = timers p
    /\ storage_listeners (Detector.exec checkSingleTab p)
       = storage_listeners p
    /\ channels (Detector.exec checkSingleTab p) = channels p
    /\ localStorage_slot (Detector.exec checkSingleTab p)
       = localStorage_slot p.
Proof.
  intros p H.
  assert (E : Detector.exec checkSingleTab p
              = with_component p (tabCheckChannelRef p)
                  (tabCheckIntervalRef p)
                  (mk_step error
                     (Some "Single tab detection not supported in this browser. Please use Chrome or Edge."%string)
                     None)).
  { destruct p. cbn [has_BroadcastChannel] in H. subst. reflexivity. }
  rewrite E. repeat split.
  unfold allStepsPassed, with_component.
  cbn [singleTabCheck is_success status]. apply andb_false_r.
Qed.

Lemma unsupported_browser_fails_closed_witness :
  status (singleTabCheck (Detector.exec checkSingleTab (mounted false)))
  = error
  /\ allStepsPassed (Detector.exec checkSingleTab (mounted false)) = false.
Proof.
  destruct (unsupported_browser_fails_closed (mounted false)) as (H1 & H2 & _).
  - reflexivity.
  - split; [exact H1 | exact H2].
Defined.

End DetectorProperties.

(* ================================================================== *)
(** * Further properties of the trigger and of the repairs *)
(* ================================================================== *)

Lemma select_into_exam_owner es exam_id :
  select_into (exam_student_rows es (Some exam_id))
  = option_bind (lookup_exam es exam_id) e_student_id.
Proof.
  rewrite lookup_exam_first. unfold exam_student_rows, select_into.
  now destruct (filter _ es).
Qed.

(** A write that names an exam and no student never makes the trigger
    raise.  The row it returns has every column as it came except
    student_id, which is the student_id of the exam with that id (exam ids
    being unique): NULL when that exam has no student.  When no exam has
    that id the row is returned as it came. *)
Theorem trigger_fills_student_from_exam :
  forall (es : list exam) (NEW : violation) (exam_id : uuid),
    v_exam_id NEW = Some exam_id -> v_student_id NEW = None ->
    exists NEW',
      validate_violation_exam_student_consistency es NEW = Ok NEW'
      /\ v_id NEW' = v_id NEW
      /\ v_exam_id NEW' = Some exam_id
      /\ v_violation_type NEW' = v_violation_type NEW
      /\ v_timestamp NEW' = v_timestamp NEW
      /\ (exams_pkey es ->
          forall e, In e es -> e_id e = exam_id ->
                    v_student_id NEW' = e_student_id e)
      /\ ((forall e, In e es -> e_id e <> exam_id) -> NEW' = NEW).
Proof.
  intros es NEW exam_id He Hs.
  exists (set_student_id NEW
            (option_bind (lookup_exam es exam_id) e_student_id)).
  split.
  { rewrite (validate_exam_only _ _ _ He Hs).
    now rewrite select_into_exam_owner. }
  cbn [set_student_id v_id v_exam_id v_student_id v_violation_type
         v_timestamp].
  do 4 (split; [auto|]). split.
  - intros Hpk e Hin Hid. subst exam_id.
    now rewrite (lookup_exam_unique es e Hpk Hin).
  - intros Hnone.
    destruct (lookup_exam es exam_id) as [e|] eqn:L.
    + apply lookup_exam_In in L as [Hin Hid].
      exfalso. exact (Hnone e Hin Hid).
    + cbn [option_bind]. rewrite <- Hs. now destruct NEW.
Qed.

Lemma trigger_fills_student_from_exam_witness :
  validate_violation_exam_student_consistency (exams db_two_exams)
    (mk_violation 70 (Some 1) None None 1500)
  = Ok (mk_violation 70 (Some 1) (Some 11) None 1500).
Proof.
  destruct (trigger_fills_student_from_exam (exams db_two_exams)
              (mk_violation 70 (Some 1) None None 1500) 1)
    as (NEW' & H & H1 & H2 & H3 & H4 & H5 & _).
  - reflexivity.
  - reflexivity.
  - rewrite H. f_equal.
    assert (Hs : v_student_id NEW' = Some 11).
    { apply (H5 ltac:(unfold exams_pkey; simpl;
                      repeat constructor; simpl; intuition discriminate)
                exam_E); [right; left; reflexivity|reflexivity]. }
    destruct NEW' as [i e st ty ts].
    cbn [v_id v_exam_id v_student_id v_violation_type v_timestamp] in *.
    subst. reflexivity.
Defined.

(** A row the trigger has returned passes the trigger again unchanged: as
    long as the exams stay as they are, writing a committed row back cannot
    raise and cannot alter it. *)
Theorem trigger_accepts_its_own_output :
  forall (es : list exam) (NEW NEW' : violation),
    validate_violation_exam_student_consistency es NEW = Ok NEW' ->
    validate_violation_exam_student_consistency es NEW' = Ok NEW'.
Proof.
  intros es NEW NEW'.
  destruct (v_exam_id NEW) as [eid|] eqn:He;
    destruct (v_student_id NEW) as [sid|] eqn:Hs.
  - rewrite (validate_both_set es NEW eid sid He Hs).
    destruct (exam_of_student _ _ _) eqn:E; intros [=]; subst NEW'.
    rewrite (validate_both_set es NEW eid sid He Hs). now rewrite E.
  - rewrite (validate_exam_only es NEW eid He Hs), select_into_exam_owner.
    intros [= <-].
    destruct (lookup_exam es eid) as [e|] eqn:L; cbn [option_bind].
    + destruct (e_student_id e) as [s|] eqn:Hst.
      * rewrite (validate_both_set es _ eid s) by (simpl; auto).
        apply lookup_exam_In in L as [Hin Hid].
        assert (X : exam_of_student es (Some eid) (Some s) = true)
          by (apply exam_of_student_spec; eauto).
        now rewrite X.
      * rewrite (validate_exam_only es _ eid) by (simpl; auto).
        rewrite select_into_exam_owner, L. cbn [option_bind]. now rewrite Hst.
    + rewrite (validate_exam_only es _ eid) by (simpl; auto).
      rewrite select_into_exam_owner, L. reflexivity.
  - rewrite (validate_student_only es NEW sid He Hs). intros [= <-].
    pose proof (resolve_exam_spec es sid) as R.
    destruct (resolve_exam es (Some sid)) as [id|] eqn:Hr.
    + destruct R as (m & Hin & Hid & Hst & _).
      rewrite (validate_both_set es _ id sid) by (simpl; auto).
      assert (X : exam_of_student es (Some id) (Some sid) = true)
        by (apply exam_of_student_spec; eauto).
      now rewrite X.
    + rewrite (validate_student_only es _ sid) by (simpl; auto).
      now rewrite Hr.
  - rewrite (validate_neither es NEW He Hs). intros [= <-].
    now apply validate_neither.
Qed.

Lemma trigger_accepts_its_own_output_witness :
  validate_violation_exam_student_consistency [exam_E0; exam_E]
    (set_exam_id violation_S1 (Some 1))
  = Ok (set_exam_id violation_S1 (Some 1)).
Proof.
  apply (trigger_accepts_its_own_output [exam_E0; exam_E] violation_S1).
  reflexivity.
Defined.

Lemma fixed_row_columns now es v :
  let v' := repair_row es (backfill_row now es v) in
  v_id v' = v_id v /\ v_timestamp v' = v_timestamp v /\
  v_violation_type v' = v_violation_type v.
Proof.
  unfold repair_row, backfill_row.
  destruct (missing_exam v);
    match goal with |- context [mismatched es ?x] =>
      destruct (mismatched es x) end; simpl; auto.
Qed.

Lemma fixed_row_touched now es v :
  (v_exam_id (repair_row es (backfill_row now es v)) = v_exam_id v
   \/ v_exam_id v = None)
  /\ (v_student_id (repair_row es (backfill_row now es v)) = v_student_id v
      \/ mismatched es v = true)
  /\ (missing_exam v = false -> mismatched es v = false ->
      repair_row es (backfill_row now es v) = v).
Proof.
  unfold repair_row. rewrite mismatched_backfill_row.
  unfold backfill_row.
  destruct (missing_exam v) eqn:Hm, (mismatched es v) eqn:Hmm;
    cbn [v_exam_id v_student_id set_exam_id set_student_id].
  - apply missing_exam_spec in Hm as [He _].
    split; [auto|]. split; [auto|]. discriminate.
  - apply missing_exam_spec in Hm as [He _].
    split; [auto|]. split; [auto|]. discriminate.
  - split; [auto|]. split; [auto|]. discriminate.
  - split; [auto|]. split; auto.
Qed.

(** The repair function only ever fills a NULL exam_id or overwrites a
    student_id that does not match.  It leaves the other tables alone and
    keeps the violations one for one: every row has a row with its id
    afterwards and the other way round, with timestamp and violation_type
    as they were, exam_id changed only where it was NULL and student_id
    only on a mismatched row; a row that is neither is there afterwards as
    it was. *)
Theorem repair_function_touches_only_bad_links :
  forall (now : timestamptz) (db db' : database) (counts : Z * Z),
    exams_pkey (exams db) -> violations_pkey (violations db) ->
    fix_violations_exam_links now db = Ok (db', counts) ->
    exams db' = exams db /\ students db' = students db
    /\ exam_templates db' = exam_templates db
    /\ Permutation (map v_id (violations db')) (map v_id (violations db))
    /\ (forall v, In v (violations db) ->
          exists v', In v' (violations db') /\
            v_id v' = v_id v /\ v_timestamp v' = v_timestamp v /\
            v_violation_type v' = v_violation_type v /\
            (v_exam_id v' = v_exam_id v \/ v_exam_id v = None) /\
            (v_student_id v' = v_student_id v \/
             mismatched (exams db) v = true) /\
            (missing_exam v = false ->
             mismatched (exams db) v = false -> v' = v))
    /\ (forall v', In v' (violations db') ->
          exists v, In v (violations db) /\
            v_id v' = v_id v /\ v_timestamp v' = v_timestamp v /\
            v_violation_type v' = v_violation_type v /\
            (v_exam_id v' = v_exam_id v \/ v_exam_id v = None) /\
            (v_student_id v' = v_student_id v \/
             mismatched (exams db) v = true) /\
            (missing_exam v = false ->
             mismatched (exams db) v = false -> v' = v)).
Proof.
  intros now db db' counts Hes Hpk H.
  rewrite (fix_violations_exam_links_rows now db Hes Hpk) in H.
  injection H as <- _. cbn [exams students exam_templates violations
                            with_violations].
  do 3 (split; [reflexivity|]).
  rewrite !map_map. split.
  { erewrite map_ext; [apply Permutation_refl|].
    intros v. apply fixed_row_columns. }
  split.
  - intros v Hin.
    exists (repair_row (exams db) (backfill_row now (exams db) v)).
    split; [now apply (in_map (fun x => repair_row _ (backfill_row _ _ x)))|].
    destruct (fixed_row_columns now (exams db) v) as (H1 & H2 & H3).
    destruct (fixed_row_touched now (exams db) v) as (H4 & H5 & H6).
    auto 10.
  - intros v' Hin. apply in_map_iff in Hin as (v & <- & Hin).
    exists v. split; [exact Hin|].
    destruct (fixed_row_columns now (exams db) v) as (H1 & H2 & H3).
    destruct (fixed_row_touched now (exams db) v) as (H4 & H5 & H6).
    auto 10.
Qed.

Lemma repair_function_touches_only_bad_links_witness :
  exists db' counts,
    fix_violations_exam_links 9000 db_mismatch = Ok (db', counts)
    /\ Permutation (map v_id (violations db')) [51; 50]
    /\ exams db' = [exam_E0; exam_E].
Proof.
  exists (with_violations db_mismatch
            [set_exam_id violation_S1 (Some 1);
             set_student_id violation_E_S2 (Some 11)]), (2, 0).
  split; [reflexivity|].
  destruct (repair_function_touches_only_bad_links 9000 db_mismatch
              (with_violations db_mismatch
                 [set_exam_id violation_S1 (Some 1);
                  set_student_id violation_E_S2 (Some 11)]) (2, 0))
    as (H1 & _ & _ & H & _).
  - unfold exams_pkey. simpl. repeat constructor; simpl; intuition discriminate.
  - unfold violations_pkey. simpl.
    repeat constructor; simpl; intuition discriminate.
  - reflexivity.
  - split; [exact H | exact H1].
Defined.

(** ** The function and the data-fix migration *)

(** The loops of the repair function and the two single UPDATEs of the
    data-fix migration (Steps 1 and 2) leave the same table, and
    violations_fixed is the sum of the two ROW_COUNTs the migration
    reports. *)
Theorem repair_function_agrees_with_migration :
  forall (now : timestamptz) (db : database),
    exams_pkey (exams db) -> violations_pkey (violations db) ->
    exists db1 db2 n1 n2,
      fix_missing_exam_id now db = Ok (db1, n1)
      /\ fix_mismatched_student_id db1 = Ok (db2, n2)
      /\ fix_violations_exam_links now db
         = Ok (db2, (Z.of_nat n1 + Z.of_nat n2, 0)).
Proof.
  intros now db Hes Hpk.
  eexists _, _, _, _. split; [apply fix_missing_exam_id_rows|].
  split.
  - rewrite fix_mismatched_student_id_rows by exact Hes. reflexivity.
  - rewrite (fix_violations_exam_links_rows now db Hes Hpk).
    cbn [exams violations with_violations].
    rewrite (filter_map_length _ _ _
               (mismatched_backfill_row now (exams db))).
    reflexivity.
Qed.

Lemma repair_function_agrees_with_migration_witness :
  exists db1 db2 n1 n2,
    fix_missing_exam_id 9000 db_mismatch = Ok (db1, n1)
    /\ fix_mismatched_student_id db1 = Ok (db2, n2)
    /\ fix_violations_exam_links 9000 db_mismatch
       = Ok (db2, (Z.of_nat n1 + Z.of_nat n2, 0)).
Proof.
  apply (repair_function_agrees_with_migration 9000 db_mismatch).
  - unfold exams_pkey. simpl. repeat constructor; simpl; intuition discriminate.
  - unfold violations_pkey. simpl.
    repeat constructor; simpl; intuition discriminate.
Defined.

(** Step 3 never trips the trigger. *)
Lemma validate_filled es v :
  exams_pkey es -> missing_student v = true ->
  (NEW <- (owner <- exam_owner es (v_exam_id v) ;;
           Ok (set_student_id v owner)) ;;
   validate_violation_exam_student_consistency es NEW)
  = Ok (fill_row es v).
Proof.
  intros Hpk Hm. unfold fill_row. rewrite Hm. unfold missing_student in Hm.
  destruct (v_exam_id v) as [eid|] eqn:He; [|discriminate].
  destruct (v_student_id v) as [sid|] eqn:Hs; [discriminate|].
  rewrite (exam_owner_lookup es eid Hpk). cbn [bind option_bind].
  destruct (lookup_exam es eid) as [e|] eqn:L; cbn [option_bind].
  - destruct (e_student_id e) as [s|] eqn:Hst.
    + rewrite (validate_both_set es _ eid s) by (simpl; auto).
      apply lookup_exam_In in L as [Hin Hid].
      assert (X : exam_of_student es (Some eid) (Some s) = true)
        by (apply exam_of_student_spec; eauto).
      now rewrite X.
    + rewrite (validate_exam_only es _ eid) by (simpl; auto).
      rewrite select_into_exam_owner, L. cbn [option_bind]. now rewrite Hst.
  - rewrite (validate_exam_only es _ eid) by (simpl; auto).
    rewrite select_into_exam_owner, L. reflexivity.
Qed.

Lemma fix_missing_student_id_rows db :
  exams_pkey (exams db) ->
  fix_missing_student_id db
  = Ok (with_violations db (map (fill_row (exams db)) (violations db)),
        List.length (filter missing_student (violations db))).
Proof.
  intros Hes. unfold fix_missing_student_id.
  rewrite (update_violations_map (exams db) missing_student _
             (fill_row (exams db))).
  - cbn [bind]. do 2 f_equal. f_equal.
    apply map_ext. intros r. unfold fill_row.
    now destruct (missing_student r).
  - intros r _ Hm. now apply validate_filled.
Qed.

Lemma set_student_id_same v : set_student_id v (v_student_id v) = v.
Proof. now destruct v. Qed.

Lemma linked_not_mismatched es v : linked es v -> mismatched es v = false.
Proof.
  intros H. unfold mismatched.
  destruct (v_exam_id v) as [eid|] eqn:He; auto.
  destruct (v_student_id v) as [sid|] eqn:Hs; auto. simpl.
  destruct (H eid sid He Hs) as (e & L & Hst).
  apply lookup_exam_In in L as [Hin Hid].
  assert (X : exam_of_student es (Some eid) (Some sid) = true)
    by (apply exam_of_student_spec; eauto).
  now rewrite X.
Qed.

Lemma linked_to_owner es v :
  v_student_id v
  = option_bind (option_bind (v_exam_id v) (lookup_exam es)) e_student_id ->
  linked es v.
Proof.
  intros H eid sid He Hs. rewrite He, Hs in H. cbn [option_bind] in H.
  destruct (lookup_exam es eid) as [e|]; [|discriminate].
  exists e. auto.
Qed.

Lemma migrated_row_linked now es v :
  exams_pkey es -> linked es (migrated_row now es v).
Proof.
  intros Hes. unfold migrated_row, fill_row.
  destruct (missing_student _) eqn:Hf.
  - now apply linked_to_owner.
  - unfold repair_row.
    destruct (mismatched es (backfill_row now es v)) eqn:Hm.
    + now apply linked_to_owner.
    + now apply not_mismatched_linked.
Qed.

(** A row the three steps have written is written back unchanged by each
    of them. *)
Lemma migrated_row_stable now es v :
  exams_pkey es ->
  backfill_row now es (migrated_row now es v) = migrated_row now es v
  /\ repair_row es (migrated_row now es v) = migrated_row now es v
  /\ fill_row es (migrated_row now es v) = migrated_row now es v.
Proof.
  intros Hes.
  assert (Hl : mismatched es (migrated_row now es v) = false)
    by (apply linked_not_mismatched, migrated_row_linked, Hes).
  remember (migrated_row now es v) as w eqn:Ew.
  split; [|split].
  - unfold backfill_row. destruct (missing_exam w) eqn:Hm; auto.
    pose proof Hm as Hm'. apply missing_exam_spec in Hm' as [He _].
    assert (Hw : w = backfill_row now es v).
    { subst w. unfold migrated_row, fill_row in *.
      destruct (missing_student _) eqn:Hf.
      - exfalso. unfold missing_student in Hf.
        cbn [v_exam_id set_student_id] in He. rewrite He in Hf. discriminate.
      - unfold repair_row in *.
        destruct (mismatched es (backfill_row now es v)) eqn:Hmm; auto.
        exfalso. unfold mismatched in Hmm.
        cbn [v_exam_id set_student_id] in He. rewrite He in Hmm.
        discriminate. }
    pose proof (backfill_row_idempotent now es v) as I.
    unfold backfill_row at 1 in I. rewrite <- Hw in I.
    now rewrite Hm in I.
  - unfold repair_row. now rewrite Hl.
  - unfold fill_row. destruct (missing_student w) eqn:Hm; auto.
    assert (Hn : v_student_id w = None).
    { unfold missing_student in Hm.
      destruct (v_exam_id w); [|discriminate].
      now destruct (v_student_id w). }
    assert (Ho : option_bind (option_bind (v_exam_id w) (lookup_exam es))
                             e_student_id = None).
    { subst w. unfold migrated_row, fill_row in *.
      destruct (missing_student (repair_row es (backfill_row now es v)))
        eqn:Hf.
      - cbn [v_exam_id v_student_id set_student_id] in *. exact Hn.
      - rewrite Hf in Hm. discriminate. }
    rewrite Ho, <- Hn. apply set_student_id_same.
Qed.

Lemma fix_existing_violations_data_rows now db :
  exams_pkey (exams db) ->
  exists counts,
    fix_existing_violations_data now db
    = Ok (with_violations db
            (map (migrated_row now (exams db)) (violations db)), counts).
Proof.
  intros Hes. unfold fix_existing_violations_data.
  rewrite fix_missing_exam_id_rows. cbn [bind].
  rewrite fix_mismatched_student_id_rows by exact Hes. cbn [bind].
  rewrite fix_missing_student_id_rows by exact Hes. cbn [bind].
  eexists. do 2 f_equal. unfold with_violations.
  cbn [exams students exam_templates violations]. f_equal.
  rewrite !map_map. reflexivity.
Qed.

Lemma exam_id_set_not_missing v : v_exam_id v <> None -> missing_exam v = false.
Proof. unfold missing_exam. destruct (v_exam_id v); [reflexivity|congruence]. Qed.

(** A row the three steps have written, under the three steps run again
    at any time: unchanged unless its exam_id is still NULL and it has a
    student_id, and then only exam_id is written. *)
Lemma migrated_row_again now now' es u :
  exams_pkey es ->
  (missing_exam (migrated_row now es u) = false ->
   migrated_row now' es (migrated_row now es u) = migrated_row now es u)
  /\ (missing_exam (migrated_row now es u) = true ->
      migrated_row now' es (migrated_row now es u)
      = set_exam_id (migrated_row now es u)
          (backfill_choice now' es (migrated_row now es u))).
Proof.
  intros Hes.
  destruct (migrated_row_stable now es u Hes) as (_ & R & F).
  remember (migrated_row now es u) as w eqn:Ew.
  split; intros Hm.
  - unfold migrated_row, backfill_row. now rewrite Hm, R, F.
  - pose proof Hm as Hm'. apply missing_exam_spec in Hm' as [He Hs].
    unfold migrated_row. rewrite (backfill_row_missing now' es w He Hs).
    unfold fill_row, missing_student. destruct Hs as (sid & Hs).
    cbn [set_exam_id v_exam_id v_student_id]. rewrite Hs.
    now rewrite andb_false_r.
Qed.

(** The data-fix migration, Steps 1 to 3: with unique exam ids it runs to
    its end whatever the violations table holds, leaves every violation
    satisfying I1 and the exams as they were.  Run again at any time it
    runs to its end and keeps I1, a violation that has an exam_id is there
    afterwards as it was, and the only change it can make is to fill an
    exam_id that was still NULL; run again at the same NOW() it changes no
    row ("safe to run multiple times"). *)
Theorem data_fix_migration_restores_I1 :
  forall (now now' : timestamptz) (db : database),
    exams_pkey (exams db) ->
    exists db1 counts,
      fix_existing_violations_data now db = Ok (db1, counts)
      /\ I1 db1 /\ exams db1 = exams db
      /\ exists db2 counts',
           fix_existing_violations_data now' db1 = Ok (db2, counts')
           /\ I1 db2 /\ exams db2 = exams db
           /\ (forall v, In v (violations db1) -> v_exam_id v <> None ->
                         In v (violations db2))
           /\ (forall v2, In v2 (violations db2) ->
                 In v2 (violations db1)
                 \/ exists v, In v (violations db1) /\ v_exam_id v = None /\
                      v2 = mk_violation (v_id v) (v_exam_id v2)
                             (v_student_id v) (v_violation_type v)
                             (v_timestamp v))
           /\ (now' = now ->
               forall v, In v (violations db2) <-> In v (violations db1)).
Proof.
  intros now now' db Hes.
  destruct (fix_existing_violations_data_rows now db Hes) as (counts & H).
  eexists _, counts. split; [exact H|].
  split.
  { intros v' Hin. cbn [violations exams with_violations] in *.
    apply in_map_iff in Hin as (v & <- & _).
    now apply migrated_row_linked. }
  split; [reflexivity|].
  destruct (fix_existing_violations_data_rows now'
              (with_violations db
                 (map (migrated_row now (exams db)) (violations db))) Hes)
    as (counts' & H').
  cbn [exams violations with_violations] in H'.
  eexists _, counts'. split; [exact H'|].
  cbn [exams violations with_violations].
  split.
  { intros v' Hin. cbn [violations exams with_violations] in *.
    apply in_map_iff in Hin as (v & <- & _).
    now apply migrated_row_linked. }
  split; [reflexivity|]. split; [|split].
  - intros v Hin Hne. apply in_map_iff in Hin as (u & <- & Hu).
    destruct (migrated_row_again now now' (exams db) u Hes) as [A _].
    rewrite <- (A (exam_id_set_not_missing _ Hne)).
    apply in_map, in_map, Hu.
  - intros v2 Hin. apply in_map_iff in Hin as (w & <- & Hw).
    pose proof Hw as Hw'. apply in_map_iff in Hw' as (u & <- & Hu).
    destruct (migrated_row_again now now' (exams db) u Hes) as [A B].
    destruct (missing_exam (migrated_row now (exams db) u)) eqn:Hm.
    + right. exists (migrated_row now (exams db) u).
      split; [exact Hw|]. split; [now apply missing_exam_spec in Hm|].
      rewrite (B eq_refl). reflexivity.
    + left. now rewrite (A eq_refl).
  - intros ->. intros v. rewrite map_map.
    erewrite map_ext; [reflexivity|].
    intros u. destruct (migrated_row_stable now (exams db) u Hes)
      as (B & R & F).
    unfold migrated_row at 1. now rewrite B, R, F.
Qed.

Lemma data_fix_migration_restores_I1_witness :
  exists db1 counts,
    fix_existing_violations_data 9000 db_mismatch = Ok (db1, counts)
    /\ I1 db1.
Proof.
  destruct (data_fix_migration_restores_I1 9000 20000 db_mismatch)
    as (db1 & counts & H1 & H2 & _).
  - unfold exams_pkey. simpl. repeat constructor; simpl; intuition discriminate.
  - exists db1, counts. split; [exact H1 | exact H2].
Defined.

(** ** The repair function restores I1; a second run *)

(** With unique exam and violation ids the repair function returns
    whatever the table holds (no row makes it raise), and afterwards every
    violation satisfies I1. *)
Theorem repair_function_restores_I1 :
  forall (now : timestamptz) (db : database),
    exams_pkey (exams db) -> violations_pkey (violations db) ->
    exists db' counts,
      fix_violations_exam_links now db = Ok (db', counts) /\ I1 db'.
Proof. exact fix_violations_exam_links_restores_I1. Qed.

Lemma repair_function_restores_I1_witness :
  exists db' counts,
    fix_violations_exam_links 9000 db_mismatch = Ok (db', counts) /\ I1 db'.
Proof.
  apply (repair_function_restores_I1 9000 db_mismatch).
  - unfold exams_pkey. simpl. repeat constructor; simpl; intuition discriminate.
  - unfold violations_pkey. simpl.
    repeat constructor; simpl; intuition discriminate.
Defined.

(** A row the function has written, under a second run at any time. *)
Lemma fixed_row_again now now' es u :
  (missing_exam (repair_row es (backfill_row now es u)) = false ->
   repair_row es (backfill_row now' es (repair_row es (backfill_row now es u)))
   = repair_row es (backfill_row now es u))
  /\ (missing_exam (repair_row es (backfill_row now es u)) = true ->
      repair_row es
        (backfill_row now' es (repair_row es (backfill_row now es u)))
      = set_exam_id (repair_row es (backfill_row now es u))
          (backfill_choice now' es (repair_row es (backfill_row now es u)))).
Proof.
  split; intros Hm.
  - unfold backfill_row at 1. rewrite Hm. apply repair_row_idempotent.
  - apply missing_exam_spec in Hm as [He Hs].
    now apply backfill_row_missing.
Qed.

(** A second run of the repair function, at any time, on the data a first
    run left: it returns, a violation that has an exam_id is there
    afterwards as it was, and the only change it can make is to fill an
    exam_id that was still NULL.  At the same NOW() it changes no row. *)
Theorem repair_function_second_run_keeps_linked_rows :
  forall (now now' : timestamptz) (db db1 : database) (counts : Z * Z),
    exams_pkey (exams db) -> violations_pkey (violations db) ->
    fix_violations_exam_links now db = Ok (db1, counts) ->
    exists db2 counts',
      fix_violations_exam_links now' db1 = Ok (db2, counts')
      /\ exams db2 = exams db
      /\ (forall v, In v (violations db1) -> v_exam_id v <> None ->
                    In v (violations db2))
      /\ (forall v2, In v2 (violations db2) ->
            In v2 (violations db1)
            \/ exists v, In v (violations db1) /\ v_exam_id v = None /\
                 v2 = mk_violation (v_id v) (v_exam_id v2)
                        (v_student_id v) (v_violation_type v)
                        (v_timestamp v))
      /\ (now' = now ->
          forall v, In v (violations db2) <-> In v (violations db1)).
Proof.
  intros now now' db db1 counts Hes Hpk H.
  rewrite (fix_violations_exam_links_rows now db Hes Hpk) in H.
  injection H as <- _.
  assert (Hpk1 : violations_pkey
                   (map (repair_row (exams db))
                        (map (backfill_row now (exams db)) (violations db)))).
  { unfold violations_pkey in *. now rewrite map_repair_row_id, map_map;
      erewrite map_ext; [exact Hpk|intros; apply backfill_row_id]. }
  rewrite fix_violations_exam_links_rows;
    cbn [exams violations with_violations]; auto.
  eexists _, _. split; [reflexivity|].
  cbn [exams violations with_violations].
  split; [reflexivity|]. rewrite !map_map. split; [|split].
  - intros v Hin Hne. apply in_map_iff in Hin as (u & <- & Hu).
    destruct (fixed_row_again now now' (exams db) u) as [A _].
    rewrite <- (A (exam_id_set_not_missing _ Hne)) at 1.
    now apply (in_map (fun x =>
      repair_row _ (backfill_row now' _ (repair_row _ (backfill_row now _ x))))).
  - intros v2 Hin. apply in_map_iff in Hin as (u & <- & Hu).
    destruct (fixed_row_again now now' (exams db) u) as [A B].
    destruct (missing_exam (repair_row (exams db)
                              (backfill_row now (exams db) u))) eqn:Hm.
    + right. exists (repair_row (exams db) (backfill_row now (exams db) u)).
      split; [now apply (in_map (fun x => repair_row _ (backfill_row _ _ x)))|].
      split; [now apply missing_exam_spec in Hm|].
      rewrite (B eq_refl). reflexivity.
    + left. rewrite (A eq_refl).
      now apply (in_map (fun x => repair_row _ (backfill_row _ _ x))).
  - intros ->. intros v.
    erewrite map_ext; [reflexivity|].
    intros u. apply fixed_row_idempotent.
Qed.

Lemma repair_function_second_run_keeps_linked_rows_witness :
  exists db2 counts',
    fix_violations_exam_links 20000
      (with_violations db_mismatch
         [set_exam_id violation_S1 (Some 1);
          set_student_id violation_E_S2 (Some 11)])
    = Ok (db2, counts')
    /\ In (mk_violation 51 (Some 1) (Some 11) (Some "tab_switch"%string) 1300)
          (violations db2).
Proof.
  destruct (repair_function_second_run_keeps_linked_rows 9000 20000
              db_mismatch
              (with_violations db_mismatch
                 [set_exam_id violation_S1 (Some 1);
                  set_student_id violation_E_S2 (Some 11)]) (2, 0))
    as (db2 & counts' & H & _ & Hk & _).
  - unfold exams_pkey. simpl. repeat constructor; simpl; intuition discriminate.
  - unfold violations_pkey. simpl.
    repeat constructor; simpl; intuition discriminate.
  - reflexivity.
  - exists db2, counts'. split; [exact H|].
    apply Hk; [left; reflexivity|discriminate].
Defined.

(** ** Joins on a primary key *)

Lemma NoDup_key_inj {A} (key : A -> Z) l a b :
  NoDup (map key l) -> In a l -> In b l -> key a = key b -> a = b.
Proof.
  induction l as [|x l IH]; simpl; [contradiction|].
  intros Hnd Ha Hb E. inversion Hnd as [|? ? Hx Hnd']; subst.
  destruct Ha as [->|Ha], Hb as [->|Hb]; auto.
  - exfalso. apply Hx. rewrite E. now apply in_map.
  - exfalso. apply Hx. rewrite <- E. now apply in_map.
Qed.

(** A condition that pins the key down accepts at most one row of a table
    with a primary key. *)
Lemma filter_at_most_one {A} (key : A -> Z) (on : A -> bool) l :
  NoDup (map key l) ->
  (forall x y, on x = true -> on y = true -> key x = key y) ->
  filter on l = [] \/ exists x, filter on l = [x].
Proof.
  intros Hnd Hon. induction l as [|a l IH]; simpl; auto.
  inversion Hnd as [|? ? Ha Hnd']; subst.
  destruct (on a) eqn:E; [|auto]. right. exists a. f_equal.
  destruct (filter on l) as [|y r] eqn:F; auto. exfalso.
  assert (Hy : In y (filter on l)) by (rewrite F; now left).
  apply filter_In in Hy as [Hy Hony]. apply Ha.
  rewrite (Hon a y E Hony). now apply in_map.
Qed.

Lemma left_join_single {A} (key : A -> Z) (on : A -> bool) l :
  NoDup (map key l) ->
  (forall x y, on x = true -> on y = true -> key x = key y) ->
  exists o, left_join on l = [o].
Proof.
  intros Hnd Hon. unfold left_join.
  destruct (filter_at_most_one key on l Hnd Hon) as [E|(x & E)];
    rewrite E; eexists; reflexivity.
Qed.

Lemma eq3_Some_inj a b c :
  is_true (eq3 a (Some b)) = true -> is_true (eq3 a (Some c)) = true -> b = c.
Proof.
  intros H1 H2. apply is_true_eq3_Some in H1, H2. congruence.
Qed.

(** ** violations_by_exam_student: one row per exam *)

Lemma from_clause_In db j :
  In j (from_clause db) <->
  In (j_e j) (exams db)
  /\ In (j_s j) (filter (on_student (j_e j)) (students db))
  /\ In (j_et j) (left_join (on_template (j_e j)) (exam_templates db))
  /\ In (j_v j) (left_join (on_violation (j_e j)) (violations db)).
Proof.
  unfold from_clause. split.
  - intros H.
    apply in_flat_map in H as (e & He & H).
    apply in_flat_map in H as (s & Hs & H).
    apply in_flat_map in H as (t & Ht & H).
    apply in_map_iff in H as (v & <- & Hv). simpl. auto.
  - intros (He & Hs & Ht & Hv).
    apply in_flat_map. exists (j_e j). split; auto.
    apply in_flat_map. exists (j_s j). split; auto.
    apply in_flat_map. exists (j_et j). split; auto.
    apply in_map_iff. exists (j_v j). split; auto. now destruct j.
Qed.

(** With the primary keys, the exam of a joined row determines its group
    key. *)
Lemma from_clause_key db j1 j2 :
  exams_pkey (exams db) -> students_pkey (students db) ->
  exam_templates_pkey (exam_templates db) ->
  In j1 (from_clause db) -> In j2 (from_clause db) ->
  e_id (j_e j1) = e_id (j_e j2) -> key_of j1 = key_of j2.
Proof.
  intros Hes Hss Hts H1 H2 E.
  apply from_clause_In in H1 as (He1 & Hs1 & Ht1 & _).
  apply from_clause_In in H2 as (He2 & Hs2 & Ht2 & _).
  assert (Ee : j_e j1 = j_e j2) by exact (NoDup_key_inj e_id _ _ _ Hes He1 He2 E).
  rewrite <- Ee in *.
  apply filter_In in Hs1 as [Hs1 On1]. apply filter_In in Hs2 as [Hs2 On2].
  assert (Es : j_s j1 = j_s j2).
  { apply (NoDup_key_inj s_id _ _ _ Hss Hs1 Hs2).
    unfold on_student in *. exact (eq3_Some_inj _ _ _ On1 On2). }
  assert (Et : j_et j1 = j_et j2).
  { destruct (left_join_single et_id (on_template (j_e j1))
                (exam_templates db) Hts) as (o & Ho).
    { intros x y. unfold on_template. apply eq3_Some_inj. }
    rewrite Ho in Ht1, Ht2.
    destruct Ht1 as [<-|[]], Ht2 as [<-|[]]. reflexivity. }
  unfold key_of. now rewrite <- Ee, Es, Et.
Qed.

Lemma NoDup_map_inj_in {A B} (f : A -> B) l :
  NoDup l -> (forall x y, In x l -> In y l -> f x = f y -> x = y) ->
  NoDup (map f l).
Proof.
  induction l as [|a l IH]; simpl; intros Hnd Hinj; [constructor|].
  inversion Hnd as [|? ? Ha Hnd']; subst. constructor.
  - intros H. apply in_map_iff in H as (y & Hy & Hin).
    assert (y = a) by (apply Hinj; auto). now subst.
  - apply IH; auto.
Qed.

Lemma view_exam_ids db :
  map r_exam_id (violations_by_exam_student db)
  = map g_id (nodup group_key_eq_dec (map key_of (from_clause db))).
Proof.
  unfold violations_by_exam_student, group_by. rewrite !map_map.
  apply map_ext. reflexivity.
Qed.

Lemma filter_none {A} (p : A -> bool) l :
  (forall x, In x l -> p x = false) -> filter p l = [].
Proof.
  induction l as [|a l IH]; simpl; intros H; auto.
  rewrite (H a (or_introl eq_refl)). apply IH. intros x Hx. apply H. now right.
Qed.

Lemma filter_all {A} (p : A -> bool) l :
  (forall x, In x l -> p x = true) -> filter p l = l.
Proof.
  induction l as [|a l IH]; simpl; intros H; auto.
  rewrite (H a (or_introl eq_refl)). f_equal. apply IH.
  intros x Hx. apply H. now right.
Qed.

Lemma filter_flat_map_one {A B} (p : B -> bool) (f : A -> list B) l e :
  NoDup l -> In e l ->
  (forall x, In x (f e) -> p x = true) ->
  (forall e' x, In e' l -> e' <> e -> In x (f e') -> p x = false) ->
  filter p (flat_map f l) = f e.
Proof.
  intros Hnd Hin Hyes Hno. induction l as [|a l IH]; [contradiction|].
  inversion Hnd as [|? ? Ha Hnd']; subst.
  cbn [flat_map]. rewrite filter_app. destruct Hin as [->|Hin].
  - rewrite (filter_all p (f e) Hyes).
    rewrite (filter_none p (flat_map f l)); [apply app_nil_r|].
    intros x Hx. apply in_flat_map in Hx as (e' & He' & Hx).
    apply (Hno e' x); [now right| |exact Hx].
    intros ->. contradiction.
  - rewrite (filter_none p (f a)).
    + cbn [app]. apply IH; auto.
      intros e' x He'. apply Hno. now right.
    + intros x Hx. apply (Hno a x); [now left| |exact Hx].
      intros ->. contradiction.
Qed.

Lemma group_violations_left_join e s t on vs :
  group_violations (map (fun v => mk_joined e s t v) (left_join on vs))
  = filter on vs.
Proof.
  unfold left_join. destruct (filter on vs) as [|m ms]; auto.
  generalize (m :: ms). intros l. induction l as [|x l IH]; simpl; auto.
  now rewrite IH.
Qed.

Lemma left_join_not_nil {B} (on : B -> bool) bs : left_join on bs <> [].
Proof.
  unfold left_join. destruct (filter on bs); discriminate.
Qed.

Lemma in_group_same_key k j : key_of j = k -> in_group k j = true.
Proof.
  intros H. unfold in_group. now destruct (group_key_eq_dec (key_of j) k).
Qed.

Lemma in_group_other_key k j : key_of j <> k -> in_group k j = false.
Proof.
  intros H. unfold in_group. now destruct (group_key_eq_dec (key_of j) k).
Qed.

(** The group of an exam that has a student row: the exam joined with each
    of its matching violations. *)
Lemma group_of_exam db e s :
  exams_pkey (exams db) -> students_pkey (students db) ->
  exam_templates_pkey (exam_templates db) ->
  In e (exams db) -> In s (students db) ->
  e_student_id e = Some (s_id s) ->
  exists k rows,
    In (k, rows) (group_by (from_clause db))
    /\ g_id k = e_id e /\ g_student_id k = e_student_id e
    /\ group_violations rows = filter (on_violation e) (violations db).
Proof.
  intros Hes Hss Hts He Hs Hst.
  assert (Hon : on_student e s = true).
  { unfold on_student. rewrite Hst. simpl. now rewrite Z.eqb_refl. }
  assert (Fs : filter (on_student e) (students db) = [s]).
  { destruct (filter_at_most_one s_id (on_student e) (students db) Hss)
      as [E|(x & E)].
    - intros x y. unfold on_student. apply eq3_Some_inj.
    - assert (In s (filter (on_student e) (students db)))
        by (apply filter_In; auto).
      rewrite E in *. contradiction.
    - assert (X : In s (filter (on_student e) (students db)))
        by (apply filter_In; auto).
      rewrite E in X. destruct X as [->|[]]. exact E. }
  destruct (left_join_single et_id (on_template e) (exam_templates db) Hts)
    as (t & Ft).
  { intros x y. unfold on_template. apply eq3_Some_inj. }
  set (rows := map (fun v => mk_joined e s t v)
                   (left_join (on_violation e) (violations db))).
  set (k := mk_group_key (e_id e) (e_student_id e) (s_name s) (s_student_id s)
              (e_subject_code e) (option_bind t et_subject_code)
              (option_bind t et_subject_name)).
  assert (Hrows : forall j, In j rows -> In j (from_clause db) /\ key_of j = k).
  { intros j Hj. apply in_map_iff in Hj as (v & <- & Hv). split; auto.
    apply from_clause_In. cbn [j_e j_s j_et j_v].
    rewrite Fs, Ft. repeat split; auto. now left. now left. }
  assert (Hfilter : filter (in_group k) (from_clause db) = rows).
  { unfold from_clause.
    rewrite (filter_flat_map_one (in_group k) _ (exams db) e).
    - rewrite Fs. cbn [flat_map]. rewrite Ft. cbn [flat_map].
      now rewrite !app_nil_r.
    - eapply NoDup_map_inv. exact Hes.
    - exact He.
    - intros x Hx. apply in_group_same_key.
      rewrite Fs in Hx. cbn [flat_map] in Hx. rewrite Ft in Hx.
      cbn [flat_map] in Hx. rewrite !app_nil_r in Hx.
      now apply Hrows.
    - intros e' x He' Hne Hx. apply in_group_other_key. intros Hk.
      apply Hne.
      apply in_flat_map in Hx as (s' & _ & Hx).
      apply in_flat_map in Hx as (t' & _ & Hx).
      apply in_map_iff in Hx as (v & <- & _).
      apply (NoDup_key_inj e_id (exams db) e' e Hes He' He).
      change (g_id (key_of (mk_joined e' s' t' v)) = g_id k).
      now rewrite Hk. }
  exists k, rows. split; [|split; [reflexivity|split; [reflexivity|]]].
  - unfold group_by. apply in_map_iff. exists k. rewrite Hfilter.
    split; auto. apply nodup_In.
    destruct rows as [|j rest] eqn:R.
    + exfalso. unfold rows in R. apply map_eq_nil in R.
      now apply left_join_not_nil in R.
    + destruct (Hrows j (or_introl eq_refl)) as [Hj Hk].
      rewrite <- Hk. now apply in_map.
  - apply group_violations_left_join.
Qed.

(** With the primary keys of exams, students and exam_templates the view
    has one row per exam that has a student row and none for other exams,
    so the unique index on exam_id can be built; the row of an exam counts
    exactly the violations that name this exam and its student, and takes
    violation_types, first_violation and last_violation from them. *)
Theorem rollup_has_one_row_per_exam :
  forall (db : database),
    exams_pkey (exams db) -> students_pkey (students db) ->
    exam_templates_pkey (exam_templates db) ->
    NoDup (map r_exam_id (violations_by_exam_student db))
    /\ (forall r, In r (violations_by_exam_student db) ->
          exists e s, In e (exams db) /\ In s (students db) /\
                      e_student_id e = Some (s_id s) /\
                      r_exam_id r = e_id e /\
                      r_student_id r = e_student_id e)
    /\ (forall e s,
          In e (exams db) -> In s (students db) ->
          e_student_id e = Some (s_id s) ->
          exists r, In r (violations_by_exam_student db) /\
            r_exam_id r = e_id e /\
            violation_count r
            = Z.of_nat (List.length (filter (on_violation e) (violations db)))
            /\ violation_types r
               = array_agg_distinct
                   (map v_violation_type
                        (filter (on_violation e) (violations db)))
            /\ first_violation r
               = agg_min (map v_timestamp
                              (filter (on_violation e) (violations db)))
            /\ last_violation r
               = agg_max (map v_timestamp
                              (filter (on_violation e) (violations db)))).
Proof.
  intros db Hes Hss Hts. split; [|split].
  - rewrite view_exam_ids. apply NoDup_map_inj_in; [apply NoDup_nodup|].
    intros k1 k2 H1 H2 E.
    apply nodup_In, in_map_iff in H1 as (j1 & <- & Hj1).
    apply nodup_In, in_map_iff in H2 as (j2 & <- & Hj2).
    now apply (from_clause_key db).
  - intros r Hr. unfold violations_by_exam_student, group_by in Hr.
    apply in_map_iff in Hr as ([k rows] & <- & Hg).
    apply in_map_iff in Hg as (k' & [= <- <-] & Hk).
    apply nodup_In, in_map_iff in Hk as (j & <- & Hj).
    apply from_clause_In in Hj as (He & Hs & _).
    apply filter_In in Hs as [Hs Hon].
    exists (j_e j), (j_s j). repeat split; auto.
    unfold on_student in Hon. now apply is_true_eq3_Some in Hon.
  - intros e s He Hs Hst.
    destruct (group_of_exam db e s Hes Hss Hts He Hs Hst)
      as (k & rows & Hg & Hid & _ & Hv).
    exists (aggregate (k, rows)). split.
    + unfold violations_by_exam_student. now apply in_map.
    + cbn [aggregate r_exam_id violation_count violation_types
             first_violation last_violation]. rewrite Hv. auto.
Qed.

Lemma rollup_has_one_row_per_exam_witness :
  NoDup (map r_exam_id
           (violations_by_exam_student
              (mk_database [exam_E0; exam_E] [mk_student 11 None None] []
                           [violation_S1; violation_E_S2]))).
Proof.
  destruct (rollup_has_one_row_per_exam
              (mk_database [exam_E0; exam_E] [mk_student 11 None None] []
                           [violation_S1; violation_E_S2])) as (H & _).
  - unfold exams_pkey. simpl. repeat constructor; simpl; intuition discriminate.
  - unfold students_pkey. simpl. repeat constructor; simpl; intuition.
  - constructor.
  - exact H.
Defined.

(* ================================================================== *)
(** * The single-tab check as it runs *)
(* ================================================================== *)

Section MonitorProperties.

Import Detector Monitor Reach.
Local Open Scope nat_scope.

Ltac by_cases_on fired := destruct fired; vm_compute; reflexivity.

(** The first click on the mounted page starts the call with tabId 2. *)
Lemma click_mounted :
  step (mounted_world true) Click = one_call_world one_call_start.
Proof. vm_compute. reflexivity. Qed.

Lemma deliver_message_one_call a m :
  deliver_message m (one_call_world a) = messageHandler 2 m (one_call_world a).
Proof. destruct a as [tabs detected fired st verified]. by_cases_on fired. Qed.

Lemma deliver_storage_one_call a k o :
  deliver_storage k o (one_call_world a)
  = storageEventHandler 2 k o (one_call_world a).
Proof. destruct a as [tabs detected fired st verified]. by_cases_on fired. Qed.

Lemma observe_one_call a s r :
  observe 2 s r (one_call_world a) = one_call_world (one_call_observe s r a).
Proof.
  destruct a as [tabs detected fired st verified].
  destruct r; by_cases_on fired.
Qed.

Lemma fire_one_call a h :
  fire h (one_call_world a) = one_call_world (one_call_step a (Fire h)).
Proof.
  destruct a as [tabs detected fired st verified].
  do 8 (destruct h as [|h];
        [destruct detected, tabs as [|x [|y l]], fired;
         vm_compute; reflexivity|]).
  by_cases_on fired.
Qed.

(** The handlers and timer callbacks of the page move the call as
    one_call_step says. *)
Lemma step_one_call a ev :
  is_click_or_unmount ev = false ->
  step (one_call_world a) ev = one_call_world (one_call_step a ev).
Proof.
  destruct ev as [|m|k o|h|]; try discriminate; intros _; cbn [step].
  - rewrite deliver_message_one_call.
    destruct m as [[s|]|[s|]|[s|]|]; try reflexivity;
      unfold messageHandler, one_call_step;
      (destruct (s =? 2); [reflexivity|apply observe_one_call]).
  - rewrite deliver_storage_one_call.
    destruct k, o as [o|]; try reflexivity.
    unfold storageEventHandler, one_call_step.
    destruct (o =? 2); [reflexivity|apply observe_one_call].
  - apply fire_one_call.
Qed.

Lemma run_one_call evs : forall a,
  existsb is_click_or_unmount evs = false ->
  Monitor.run (one_call_world a) evs
  = one_call_world (fold_left one_call_step evs a).
Proof.
  unfold Monitor.run.
  induction evs as [|ev evs IH]; intros a H; [reflexivity|].
  cbn [existsb] in H. apply orb_false_iff in H as [H1 H2].
  cbn [fold_left]. rewrite step_one_call by exact H1. now apply IH.
Qed.








Lemma one_call_world_check a :
  singleTabCheck (w_page (one_call_world a)) = oc_check a
  /\ singleTabVerified (one_call_world a) = oc_verified a.
Proof. split; reflexivity. Qed.

Lemma run_cons w ev evs :
  Monitor.run w (ev :: evs) = Monitor.run (step w ev) evs.
Proof. reflexivity. Qed.

Lemma run_after_click evs :
  existsb is_click_or_unmount evs = false ->
  Monitor.run (mounted_world true) (Click :: evs)
  = one_call_world (fold_left one_call_step evs one_call_start).
Proof.
  intros H. rewrite run_cons, click_mounted. exact (run_one_call evs _ H).
Qed.








Lemma unmount_one_call a ev :
  is_click ev = false ->
  timers (w_page (step (one_call_world a) Unmount)) = []
  /\ storage_listeners (w_page (step (one_call_world a) Unmount)) = []
  /\ localStorage_slot (w_page (step (one_call_world a) Unmount)) = None
  /\ forallb ch_closed (channels (w_page (step (one_call_world a) Unmount)))
     = true
  /\ singleTabCheck (w_page (step (one_call_world a) Unmount)) = oc_check a
  /\ singleTabVerified (step (one_call_world a) Unmount) = oc_verified a
  /\ step (step (one_call_world a) Unmount) ev
     = step (one_call_world a) Unmount.
Proof.
  intros H. destruct a as [tabs detected fired st verified].
  destruct ev as [|m|k o|h|]; [discriminate| | | |];
    destruct fired; vm_compute; repeat split; reflexivity.
Qed.

Lemma run_after_unmount a evs :
  existsb is_click evs = false ->
  Monitor.run (step (one_call_world a) Unmount) evs
  = step (one_call_world a) Unmount.
Proof.
  induction evs as [|ev evs IH]; intros H; [reflexivity|].
  cbn [existsb] in H. apply orb_false_iff in H as [H1 H2].
  rewrite run_cons.
  destruct (unmount_one_call a ev H1) as (_ & _ & _ & _ & _ & _ & ->).
  now apply IH.
Qed.

Lemma run_app w evs1 evs2 :
  Monitor.run w (evs1 ++ evs2) = Monitor.run (Monitor.run w evs1) evs2.
Proof. apply fold_left_app. Qed.

(** Unmounting after one run of the check releases what the run acquired,
    whatever happened in between: no timer and no 'storage' listener is
    left, the channel is closed and the localStorage slot removed.  From
    then on no message, storage event or timer changes anything.  The
    verdict shown and the sessionStorage entry singleTabVerified are left
    as they were. *)
Theorem unmount_stops_the_check :
  forall (evs evs' : list event),
    existsb is_click_or_unmount evs = false ->
    existsb is_click evs' = false ->
    timers (w_page (Monitor.run (mounted_world true)
                      (Click :: evs ++ [Unmount]))) = []
    /\ storage_listeners
         (w_page (Monitor.run (mounted_world true)
                    (Click :: evs ++ [Unmount]))) = []
    /\ localStorage_slot
         (w_page (Monitor.run (mounted_world true)
                    (Click :: evs ++ [Unmount]))) = None
    /\ forallb ch_closed
         (channels (w_page (Monitor.run (mounted_world true)
                              (Click :: evs ++ [Unmount])))) = true
    /\ singleTabCheck
         (w_page (Monitor.run (mounted_world true)
                    (Click :: evs ++ [Unmount])))
       = singleTabCheck
           (w_page (Monitor.run (mounted_world true) (Click :: evs)))
    /\ singleTabVerified
         (Monitor.run (mounted_world true) (Click :: evs ++ [Unmount]))
       = singleTabVerified
           (Monitor.run (mounted_world true) (Click :: evs))
    /\ Monitor.run (mounted_world true) (Click :: evs ++ Unmount :: evs')
       = Monitor.run (mounted_world true) (Click :: evs ++ [Unmount]).
Proof.
  intros evs evs' H H'.
  assert (E : forall l,
             Monitor.run (mounted_world true) (Click :: evs ++ Unmount :: l)
             = Monitor.run
                 (step (one_call_world
                          (fold_left one_call_step evs one_call_start))
                       Unmount) l).
  { intros l. change (Click :: evs ++ Unmount :: l)
      with ((Click :: evs) ++ Unmount :: l).
    rewrite run_app, (run_after_click evs H). apply run_cons. }
  rewrite (E evs'), (E []), (run_after_click evs H).
  rewrite (run_after_unmount _ evs' H').
  destruct (unmount_one_call (fold_left one_call_step evs one_call_start)
              Unmount eq_refl) as (H1 & H2 & H3 & H4 & H5 & H6 & _).
  destruct (one_call_world_check (fold_left one_call_step evs one_call_start))
    as [-> ->].
  unfold Monitor.run at 1 2 3 4 5 6 7. cbn [fold_left].
  repeat split; assumption.
Qed.

Lemma unmount_stops_the_check_witness :
  timers (w_page (Monitor.run (mounted_world true)
                    (Click :: [Fire 6; Message (tab_heartbeat (Some 5))]
                           ++ [Unmount]))) = []
  /\ Monitor.run (mounted_world true)
       (Click :: [Fire 6; Message (tab_heartbeat (Some 5))]
              ++ Unmount :: [Fire 7; Storage true (Some 4)])
     = Monitor.run (mounted_world true)
         (Click :: [Fire 6; Message (tab_heartbeat (Some 5))] ++ [Unmount]).
Proof.
  destruct (unmount_stops_the_check
              [Fire 6; Message (tab_heartbeat (Some 5))]
              [Fire 7; Storage true (Some 4)])
    as (H1 & _ & _ & _ & _ & _ & H7).
  - reflexivity.
  - reflexivity.
  - split; [exact H1 | exact H7].
Defined.

End MonitorProperties.

(* ================================================================== *)
(** * The roll_no migration *)
(* ================================================================== *)

Section RollNoProperties.
Import RollNo.

Lemma distinct_NoDup l : distinct l = true <-> NoDup l.
Proof.
  induction l as [|x l IH]; simpl.
  - split; auto using NoDup_nil.
  - rewrite andb_true_iff, negb_true_iff, IH. split.
    + intros [H1 H2]. constructor; auto. intros Hin.
      assert (E : existsb (String.eqb x) l = true).
      { apply existsb_exists. exists x. split; auto. apply String.eqb_refl. }
      congruence.
    + intros H. inversion H as [|? ? Hn Hd]; subst. split; auto.
      destruct (existsb (String.eqb x) l) eqn:E; auto.
      apply existsb_exists in E as (y & Hy & Ey).
      apply String.eqb_eq in Ey. subst. contradiction.
Qed.

Lemma hex_digit_inj a b :
  0 <= a < 16 -> 0 <= b < 16 -> hex_digit a = hex_digit b -> a = b.
Proof.
  intros Ha Hb.
  assert (A : a = 0 \/ a = 1 \/ a = 2 \/ a = 3 \/ a = 4 \/ a = 5 \/ a = 6
              \/ a = 7 \/ a = 8 \/ a = 9 \/ a = 10 \/ a = 11 \/ a = 12
              \/ a = 13 \/ a = 14 \/ a = 15) by lia.
  assert (B : b = 0 \/ b = 1 \/ b = 2 \/ b = 3 \/ b = 4 \/ b = 5 \/ b = 6
              \/ b = 7 \/ b = 8 \/ b = 9 \/ b = 10 \/ b = 11 \/ b = 12
              \/ b = 13 \/ b = 14 \/ b = 15) by lia.
  repeat (destruct A as [-> | A]); try subst a;
    repeat (destruct B as [-> | B]); try subst b;
    intros E; try reflexivity; discriminate E.
Qed.

Lemma mod_split x k :
  0 <= k ->
  x mod 16 ^ (k + 1) = x mod 16 ^ k + 16 ^ k * (Z.shiftr x (4 * k) mod 16).
Proof.
  intros Hk. rewrite Z.shiftr_div_pow2 by lia.
  replace (2 ^ (4 * k)) with (16 ^ k)
    by (rewrite Z.pow_mul_r by lia; reflexivity).
  rewrite Z.pow_add_r by lia. change (16 ^ 1) with 16.
  apply Z.rem_mul_r; [|lia]. apply Z.pow_nonzero; lia.
Qed.

Lemma hex_inj n x y :
  hex n x = hex n y <-> x mod 16 ^ Z.of_nat n = y mod 16 ^ Z.of_nat n.
Proof.
  induction n as [|k IH].
  - simpl. rewrite !Z.mod_1_r. tauto.
  - cbn [hex]. replace (Z.of_nat (S k)) with (Z.of_nat k + 1) by lia.
    rewrite !mod_split by lia.
    assert (P : 0 < 16 ^ Z.of_nat k) by (apply Z.pow_pos_nonneg; lia).
    pose proof (Z.mod_pos_bound x _ P).
    pose proof (Z.mod_pos_bound y _ P).
    pose proof (Z.mod_pos_bound (Z.shiftr x (4 * Z.of_nat k)) 16 eq_refl).
    pose proof (Z.mod_pos_bound (Z.shiftr y (4 * Z.of_nat k)) 16 eq_refl).
    remember (Z.shiftr x (4 * Z.of_nat k) mod 16) as dx.
    remember (Z.shiftr y (4 * Z.of_nat k) mod 16) as dy.
    split.
    + intros E. injection E as Ed Et. apply IH in Et.
      apply hex_digit_inj in Ed; auto. rewrite Et, Ed. reflexivity.
    + intros E.
      assert (Ed : dx = dy) by nia.
      assert (Et : x mod 16 ^ Z.of_nat k = y mod 16 ^ Z.of_nat k) by nia.
      rewrite Ed. f_equal. now apply IH.
Qed.

Lemma temporary_roll_no_hex id :
  temporary_roll_no id = ("ROLL-" ++ hex 8 (Z.shiftr id 96))%string.
Proof.
  unfold temporary_roll_no, uuid_text. f_equal.
Qed.

Lemma append_inj_l (p a b : string) : (p ++ a = p ++ b)%string -> a = b.
Proof.
  induction p as [|c p IH]; simpl; intros E; auto.
  injection E as E. auto.
Qed.

Lemma pow_16_8 : 2 ^ 32 = 16 ^ Z.of_nat 8.
Proof. reflexivity. Qed.

Lemma temporary_roll_no_eq a b :
  temporary_roll_no a = temporary_roll_no b
  <-> first_32_bits a = first_32_bits b.
Proof.
  rewrite !temporary_roll_no_hex. unfold first_32_bits.
  rewrite pow_16_8. split.
  - intros E. apply append_inj_l in E. exact (proj1 (hex_inj 8 _ _) E).
  - intros E. apply (proj2 (hex_inj 8 _ _)) in E. now rewrite E.
Qed.

Lemma NoDup_map_compat {A B C} (f : A -> B) (g : A -> C) l :
  (forall a b, f a = f b <-> g a = g b) ->
  NoDup (map f l) -> NoDup (map g l).
Proof.
  intros H. induction l as [|x l IH]; simpl; intros N; [constructor|].
  inversion N as [|? ? Hn Hd]; subst. constructor; auto.
  rewrite in_map_iff in *. intros (y & E & Hy). apply Hn.
  exists y. split; auto. now apply H.
Qed.

Lemma assign_roll_no_not_null r : roll_no (assign_roll_no r) <> None.
Proof. unfold assign_roll_no. destruct (roll_no r) eqn:E; simpl; congruence. Qed.

Lemma no_null_after_backfill rs :
  existsb (fun r => match roll_no r with None => true | _ => false end)
          (map assign_roll_no rs) = false.
Proof.
  induction rs as [|r rs IH]; simpl; auto. rewrite IH.
  pose proof (assign_roll_no_not_null r).
  destruct (roll_no (assign_roll_no r)); auto; congruence.
Qed.

Lemma assign_roll_no_fixed rs :
  Forall (fun r => roll_no r <> None) rs -> map assign_roll_no rs = rs.
Proof.
  induction 1 as [|r rs H _ IH]; simpl; auto. rewrite IH. f_equal.
  unfold assign_roll_no. destruct (roll_no r); congruence.
Qed.

Lemma assign_roll_no_student rs :
  map row_student (map assign_roll_no rs) = map row_student rs.
Proof.
  rewrite map_map. apply map_ext. intros r. unfold assign_roll_no.
  destruct (roll_no r); reflexivity.
Qed.

(** What a successful run leaves. *)
Lemma add_roll_no_ok t t' :
  add_roll_no t = inl t' ->
  t' = mk_students_table (has_roll_no (add_column t))
         (map assign_roll_no (rows (add_column t))) true true
  /\ NoDup (roll_numbers (rows t')).
Proof.
  unfold add_roll_no, backfill.
  set (u := add_column t).
  destruct (idx_students_roll_no u) eqn:I; cbn [andb].
  - destruct (distinct (roll_numbers (map assign_roll_no (rows u)))) eqn:D;
      cbn [negb and_then]; [|discriminate].
    unfold set_not_null. cbn [rows]. rewrite no_null_after_backfill.
    cbn [and_then]. unfold create_unique_index.
    cbn [idx_students_roll_no has_roll_no rows roll_no_not_null].
    intros E. injection E as <-. split; [reflexivity|].
    now apply distinct_NoDup.
  - cbn [and_then]. unfold set_not_null. cbn [rows].
    rewrite no_null_after_backfill. cbn [and_then].
    unfold create_unique_index.
    cbn [idx_students_roll_no has_roll_no rows roll_no_not_null].
    destruct (distinct (roll_numbers (map assign_roll_no (rows u)))) eqn:D;
      [|discriminate].
    intros E. injection E as <-. split; [reflexivity|].
    now apply distinct_NoDup.
Qed.

Lemma add_roll_no_never_null t : add_roll_no t <> inr not_null_violation.
Proof.
  unfold add_roll_no, backfill.
  destruct (idx_students_roll_no (add_column t)
            && negb (distinct (roll_numbers
                                 (map assign_roll_no (rows (add_column t))))));
    cbn [and_then]; [discriminate|].
  unfold set_not_null. cbn [rows]. rewrite no_null_after_backfill.
  cbn [and_then]. unfold create_unique_index.
  cbn [idx_students_roll_no has_roll_no rows roll_no_not_null].
  destruct (idx_students_roll_no (add_column t)); [discriminate|].
  destruct (distinct _); discriminate.
Qed.

Lemma has_roll_no_add_column t : has_roll_no (add_column t) = true.
Proof. unfold add_column. destruct (has_roll_no t) eqn:E; auto. Qed.

Lemma add_roll_no_fixed rs :
  Forall (fun r => roll_no r <> None) rs ->
  NoDup (roll_numbers rs) ->
  add_roll_no (mk_students_table true rs true true)
  = inl (mk_students_table true rs true true).
Proof.
  intros Hn Hd. unfold add_roll_no, add_column, backfill.
  cbn [has_roll_no rows idx_students_roll_no roll_no_not_null].
  rewrite (assign_roll_no_fixed rs Hn).
  apply distinct_NoDup in Hd. rewrite Hd. cbn [negb andb and_then].
  unfold set_not_null. cbn [rows].
  rewrite <- (assign_roll_no_fixed rs Hn) at 1.
  rewrite no_null_after_backfill. reflexivity.
Qed.

(** Steps 1 to 3 on public.students, from any state of the table.  SET NOT
    NULL never fails, because the UPDATE before it leaves no NULL.  When
    the migration succeeds, the students are the same, a row that had a
    roll number is there as it was, every student has a roll number, no two
    students share one, and running the migration again on that table, in
    whatever order its rows are stored, changes nothing. *)
Theorem roll_no_migration_keeps_given_numbers :
  forall (t : students_table),
    add_roll_no t <> inr not_null_violation
    /\ forall t', add_roll_no t = inl t' ->
         Permutation (map row_student (rows t')) (map row_student (rows t))
         /\ (has_roll_no t = true ->
             forall r, In r (rows t) -> roll_no r <> None -> In r (rows t'))
         /\ Forall (fun r => roll_no r <> None) (rows t')
         /\ NoDup (roll_numbers (rows t'))
         /\ has_roll_no t' = true
         /\ roll_no_not_null t' = true
         /\ idx_students_roll_no t' = true
         /\ forall u, Permutation (rows u) (rows t') ->
                      has_roll_no u = true -> roll_no_not_null u = true ->
                      idx_students_roll_no u = true ->
                      add_roll_no u = inl u.
Proof.
  intros t. split; [apply add_roll_no_never_null|].
  intros t' E. destruct (add_roll_no_ok t t' E) as [-> Hd].
  cbn [rows] in Hd.
  cbn [rows has_roll_no roll_no_not_null idx_students_roll_no].
  assert (Hn : Forall (fun r => roll_no r <> None)
                 (map assign_roll_no (rows (add_column t)))).
  { apply Forall_forall. intros r Hr. apply in_map_iff in Hr as (x & <- & _).
    apply assign_roll_no_not_null. }
  rewrite has_roll_no_add_column.
  split; [|split; [|split; [|split; [|split; [|split; [|split]]]]]]; auto.
  - rewrite assign_roll_no_student. unfold add_column.
    destruct (has_roll_no t); [apply Permutation_refl|].
    cbn [rows]. rewrite map_map. apply Permutation_refl.
  - intros H r Hr Hnn. unfold add_column. rewrite H.
    apply in_map_iff. exists r. split; auto.
    unfold assign_roll_no. destruct (roll_no r); congruence.
  - intros u P H1 H2 H3. destruct u as [h rs nn ix].
    cbn [rows has_roll_no roll_no_not_null idx_students_roll_no] in *.
    subst h nn ix. apply add_roll_no_fixed.
    + apply Forall_forall. intros r Hr.
      apply (Permutation_in _ P) in Hr.
      now apply (proj1 (Forall_forall _ _) Hn).
    + apply (Permutation_NoDup (l := roll_numbers
                                       (map assign_roll_no
                                            (rows (add_column t))))); auto.
      unfold roll_numbers. apply Permutation_flat_map.
      now apply Permutation_sym.
Qed.

Lemma roll_no_migration_keeps_given_numbers_witness :
  exists t',
    add_roll_no
      (mk_students_table true
         [mk_student_row (mk_student 1 None None) (Some "21CS001"%string);
          mk_student_row (mk_student 2 None None) None]
         false false)
    = inl t'
    /\ In (mk_student_row (mk_student 1 None None) (Some "21CS001"%string))
          (rows t')
    /\ add_roll_no t' = inl t'.
Proof.
  destruct (roll_no_migration_keeps_given_numbers
              (mk_students_table true
                 [mk_student_row (mk_student 1 None None)
                                 (Some "21CS001"%string);
                  mk_student_row (mk_student 2 None None) None]
                 false false)) as [_ H].
  eexists. split; [vm_compute; reflexivity|].
  destruct (H _ eq_refl) as (_ & Hk & _ & _ & _ & _ & _ & Hr).
  split.
  - apply (Hk eq_refl); [left; reflexivity|discriminate].
  - apply Hr; [apply Permutation_refl|reflexivity..].
Defined.

(** On a table that does not have the column yet, every student gets the
    temporary roll number 'ROLL-' followed by the first eight hexadecimal
    digits of the id.  The migration succeeds exactly when no two students
    have ids that agree in their first 32 bits; otherwise CREATE UNIQUE
    INDEX fails. *)
Theorem roll_no_migration_fails_on_shared_id_prefix :
  forall (t : students_table),
    has_roll_no t = false ->
    (NoDup (map (fun r => first_32_bits (s_id (row_student r))) (rows t)) ->
     add_roll_no t
     = inl (mk_students_table true
              (map (fun r =>
                      mk_student_row (row_student r)
                        (Some (temporary_roll_no (s_id (row_student r)))))
                   (rows t))
              true true))
    /\ (~ NoDup (map (fun r => first_32_bits (s_id (row_student r)))
                     (rows t)) ->
        add_roll_no t = inr could_not_create_unique_index).
Proof.
  intros t H.
  assert (R : roll_numbers
                (map assign_roll_no (rows (add_column t)))
              = map (fun r => temporary_roll_no (s_id (row_student r)))
                    (rows t)).
  { unfold add_column. rewrite H. cbn [rows]. rewrite map_map.
    unfold roll_numbers. induction (rows t) as [|r rs IH]; simpl; auto.
    now rewrite IH. }
  assert (M : map assign_roll_no (rows (add_column t))
              = map (fun r =>
                       mk_student_row (row_student r)
                         (Some (temporary_roll_no (s_id (row_student r)))))
                    (rows t)).
  { unfold add_column. rewrite H. cbn [rows]. rewrite map_map.
    reflexivity. }
  assert (F : idx_students_roll_no (add_column t) = false
              /\ has_roll_no (add_column t) = true).
  { unfold add_column. rewrite H. split; reflexivity. }
  destruct F as [F1 F2].
  unfold add_roll_no, backfill. rewrite F1, F2. cbn [andb and_then].
  unfold set_not_null. cbn [rows]. rewrite no_null_after_backfill.
  cbn [and_then]. unfold create_unique_index.
  cbn [idx_students_roll_no has_roll_no rows roll_no_not_null].
  rewrite R, M.
  split; intros N.
  - assert (D : distinct (map (fun r => temporary_roll_no (s_id (row_student r)))
                              (rows t)) = true).
    { apply distinct_NoDup.
      apply NoDup_map_compat
        with (f := fun r => first_32_bits (s_id (row_student r))); auto.
      intros a b. symmetry. apply temporary_roll_no_eq. }
    rewrite D. reflexivity.
  - destruct (distinct (map (fun r => temporary_roll_no (s_id (row_student r)))
                            (rows t))) eqn:D; [|reflexivity].
    exfalso. apply N. apply distinct_NoDup in D.
    apply NoDup_map_compat
      with (f := fun r => temporary_roll_no (s_id (row_student r))); auto.
    intros a b. apply temporary_roll_no_eq.
Qed.

Lemma roll_no_migration_fails_on_shared_id_prefix_witness :
  add_roll_no
    (mk_students_table false
       [mk_student_row
          (mk_student 0x550e8400e29b41d4a716446655440000 None None) None;
        mk_student_row
          (mk_student 0x550e84001111222233334444aaaabbbb None None) None]
       false false)
  = inr could_not_create_unique_index.
Proof.
  apply roll_no_migration_fails_on_shared_id_prefix.
  - reflexivity.
  - intros N. inversion N as [|? ? Hn _]. apply Hn. left. reflexivity.
Defined.

End RollNoProperties.

(* ================================================================== *)
(** * Audio calibration: the sentence check *)
(* ================================================================== *)

Section SpeechProperties.
Import Detector Speech PrimFloat.
Local Open Scope nat_scope.

Ltac each_char c := destruct c as [[] [] [] [] [] [] [] []].

Lemma alnum_lower c : is_alnum c = true -> lower c = c.
Proof. each_char c; vm_compute; intros H; try reflexivity; discriminate H. Qed.

Lemma alnum_not_space c : is_alnum c = true -> is_space c = false.
Proof. each_char c; vm_compute; intros H; try reflexivity; discriminate H. Qed.

Lemma plain_space c : plain c -> is_space c = true -> c = " "%char.
Proof.
  intros [H | H]; auto. rewrite (alnum_not_space c H). discriminate.
Qed.

Lemma plain_lower c : plain c -> lower c = c.
Proof. intros [H | ->]; [now apply alnum_lower|reflexivity]. Qed.

Lemma replace_runs_plain t : forall b, Forall plain (replace_runs b t).
Proof.
  induction t as [|c t IH]; intros b; simpl; auto.
  destruct (is_alnum c) eqn:A.
  - constructor; [now left|apply IH].
  - destruct b; [apply IH|]. constructor; [now right|apply IH].
Qed.

Lemma no_double_space_cons c t :
  no_double_space (c :: t)
  <-> (c = " "%char -> hd_error t <> Some " "%char) /\ no_double_space t.
Proof.
  destruct t as [|d t]; cbn [no_double_space hd_error].
  - split; auto. intros _. split; auto. discriminate.
  - split; intros [H1 H2]; split; auto.
    + intros -> E. injection E as ->. now apply H1.
    + intros [-> ->]. now apply H1.
Qed.

Lemma replace_runs_no_double t : forall b,
  no_double_space (replace_runs b t)
  /\ (b = true -> hd_error (replace_runs b t) <> Some " "%char).
Proof.
  induction t as [|c t IH]; intros b; cbn [replace_runs].
  - split; simpl; auto. discriminate.
  - destruct (is_alnum c) eqn:A.
    + split.
      * apply no_double_space_cons. split; [|apply IH].
        intros ->. discriminate A.
      * intros _ E. injection E as ->. discriminate A.
    + destruct b.
      * apply IH.
      * split; [|discriminate].
        apply no_double_space_cons. split; [|apply IH].
        intros _. now apply IH.
Qed.

Lemma trimStart_spec t :
  exists p, t = p ++ trimStart t
            /\ forall c, hd_error (trimStart t) = Some c -> is_space c = false.
Proof.
  induction t as [|c t (p & E & H)]; cbn [trimStart].
  - exists []. split; auto. discriminate.
  - destruct (is_space c) eqn:S.
    + exists (c :: p). split; [simpl; now rewrite <- E|exact H].
    + exists []. split; auto. intros d [= <-]. exact S.
Qed.

Lemma trimEnd_spec t :
  exists s, t = trimEnd t ++ s
            /\ forall c, hd_error (rev (trimEnd t)) = Some c ->
                         is_space c = false.
Proof.
  unfold trimEnd. destruct (trimStart_spec (rev t)) as (p & E & H).
  exists (rev p). rewrite rev_involutive. split; auto.
  rewrite <- rev_app_distr, <- E. now rewrite rev_involutive.
Qed.

Lemma no_double_space_app a b :
  no_double_space (a ++ b) -> no_double_space a /\ no_double_space b.
Proof.
  induction a as [|c a IH]; intros H.
  - split; simpl; auto.
  - cbn [app] in H. apply no_double_space_cons in H as [H1 H2].
    destruct (IH H2) as [Ha Hb]. split; auto.
    apply no_double_space_cons. split; auto.
    intros Hc. specialize (H1 Hc). destruct a; [discriminate|exact H1].
Qed.

Lemma trim_spec t :
  exists p s, t = p ++ trim t ++ s
              /\ (forall c, hd_error (trim t) = Some c -> is_space c = false)
              /\ (forall c, hd_error (rev (trim t)) = Some c ->
                            is_space c = false).
Proof.
  unfold trim. destruct (trimStart_spec t) as (p & E & H).
  destruct (trimEnd_spec (trimStart t)) as (s & E' & H').
  exists p, s. split; [|split]; auto.
  - now rewrite <- E', <- E.
  - intros c Hc. apply H. rewrite E'.
    destruct (trimEnd (trimStart t)); [discriminate|exact Hc].
Qed.

Lemma normalizeText_normalized t : normalized (normalizeText t).
Proof.
  unfold normalizeText. set (u := replace_runs false (toLowerCase t)).
  destruct (trim_spec u) as (p & s & E & H1 & H2).
  pose proof (replace_runs_plain (toLowerCase t) false) as P.
  destruct (replace_runs_no_double (toLowerCase t) false) as [N _].
  fold u in P, N. rewrite E in P, N.
  apply Forall_app in P as [_ P]. apply Forall_app in P as [P _].
  apply no_double_space_app in N as [_ N].
  apply no_double_space_app in N as [N _].
  split; [exact P|]. split; [exact N|].
  split; intros Hc.
  - specialize (H1 _ Hc). discriminate.
  - specialize (H2 _ Hc). discriminate.
Qed.

Lemma replace_runs_fixed t : forall b,
  Forall plain t -> no_double_space t ->
  (b = true -> hd_error t <> Some " "%char) ->
  replace_runs b t = t.
Proof.
  induction t as [|c t IH]; intros b P N H; auto.
  inversion P as [|? ? Pc Pt]; subst.
  apply no_double_space_cons in N as [N1 N2].
  cbn [replace_runs]. destruct (is_alnum c) eqn:A.
  - f_equal. apply IH; auto. discriminate.
  - destruct Pc as [Pc | ->]; [congruence|].
    destruct b.
    + exfalso. now apply H.
    + f_equal. apply IH; auto.
Qed.

Lemma trimStart_fixed t :
  Forall plain t -> hd_error t <> Some " "%char -> trimStart t = t.
Proof.
  intros P H. destruct t as [|c t]; auto. cbn [trimStart].
  inversion P as [|? ? Pc _]; subst.
  destruct (is_space c) eqn:S; auto.
  exfalso. apply H. now rewrite (plain_space c Pc S).
Qed.

Lemma normalized_fixed t : normalized t -> normalizeText t = t.
Proof.
  intros (P & N & H1 & H2). unfold normalizeText, toLowerCase.
  assert (L : map lower t = t).
  { clear N H1 H2. induction P as [|c t Pc _ IH]; simpl; auto.
    now rewrite IH, (plain_lower c Pc). }
  rewrite L, (replace_runs_fixed t false P N) by discriminate.
  unfold trim. rewrite (trimStart_fixed t P H1). unfold trimEnd.
  rewrite trimStart_fixed;
    [apply rev_involutive | apply Forall_rev; exact P | exact H2].
Qed.

(** normalizeText leaves only lower-case letters, digits and single spaces,
    with no space at either end, and normalizing again changes nothing. *)
Theorem normalizeText_is_idempotent :
  forall t : text,
    normalized (normalizeText t)
    /\ normalizeText (normalizeText t) = normalizeText t.
Proof.
  intros t. split; [apply normalizeText_normalized|].
  apply normalized_fixed, normalizeText_normalized.
Qed.

Lemma text_eqb_eq a b : text_eqb a b = true <-> a = b.
Proof.
  unfold text_eqb. destruct (list_eq_dec ascii_dec a b); split; auto.
  discriminate.
Qed.

Lemma has_In s w : has s w = true <-> In w s.
Proof.
  unfold has. rewrite existsb_exists. split.
  - intros (x & Hx & E). apply text_eqb_eq in E. now subst.
  - intros H. exists w. split; auto. now apply text_eqb_eq.
Qed.

Lemma filter_length_all {A} (f : A -> bool) l :
  (forall x, In x l -> f x = true) ->
  List.length (filter f l) = List.length l.
Proof.
  induction l as [|x l IH]; intros H; simpl; auto.
  rewrite (H x) by now left. simpl. f_equal. apply IH.
  intros y Hy. apply H. now right.
Qed.

Lemma filter_length_le {A} (f : A -> bool) l :
  List.length (filter f l) <= List.length l.
Proof.
  induction l as [|x l IH]; simpl; auto. destruct (f x); simpl; lia.
Qed.

(** matches / 9 >= 0.75 in doubles, for the ten values matches can have. *)
Lemma ratio_of_nine (m : nat) :
  m <= 9 ->
  PrimFloat.leb 0.75%float
    (PrimFloat.div (Double.of_nat m) (Double.of_nat 9)) = true
  <-> 7 <= m.
Proof.
  intros Hm.
  do 10 (destruct m as [|m];
         [vm_compute; split; intros H; try lia; try reflexivity;
          discriminate H|]).
  lia.
Qed.

Lemma length_pos_nonempty (t : text) : (0 <? List.length t) = nonempty t.
Proof. destruct t; reflexivity. Qed.

(** What sentenceMatched comes to for a sentence of nine words. *)
Lemma sentenceMatched_spec sentence transcript :
  List.length (words (normalizeText sentence)) = 9 ->
  sentenceMatched sentence transcript = true
  <-> normalizeText sentence <> []
      /\ exists t,
           transcript = Some t
           /\ normalizeText t <> []
           /\ (includes (normalizeText t) (normalizeText sentence) = true
               \/ 7 <= List.length
                         (filter (has (words (normalizeText t)))
                                 (words (normalizeText sentence)))).
Proof.
  intros L9.
  unfold sentenceMatched. rewrite !length_pos_nonempty.
  set (r := normalizeText sentence) in *.
  destruct (nonempty r) eqn:Nr.
  2: { cbn [andb]. split; [discriminate|]. intros [H _].
       destruct r; [congruence|discriminate]. }
  assert (Rn : r <> []) by (destruct r; [discriminate Nr|discriminate]).
  destruct transcript as [t|].
  2: { change (normalizeText []) with (@nil ascii). cbn [nonempty andb].
       split; [discriminate|]. intros (_ & t & H & _). discriminate. }
  set (s := normalizeText t).
  destruct (nonempty s) eqn:Ns.
  2: { cbn [andb]. split; [discriminate|].
       intros (_ & t' & E & H & _). injection E as <-. fold s in H.
       destruct s; [congruence|discriminate]. }
  assert (Sn : s <> []) by (destruct s; [discriminate Ns|discriminate]).
  cbn [andb]. rewrite orb_true_iff. unfold wordMatchRatio.
  rewrite Nr, Ns, L9. cbn [negb orb Nat.eqb].
  rewrite ratio_of_nine
    by (rewrite <- L9; apply filter_length_le).
  split.
  - intros H. split; auto. exists t. auto.
  - intros (_ & t' & E & _ & H). injection E as <-. exact H.
Qed.

Lemma words_nil : words [] = [].
Proof. reflexivity. Qed.

Lemma calibration_result_spec level sentence transcript :
  (status (fst (calibration_result level sentence transcript)) = success
   <-> MIN_AUDIO_BASELINE <= level
       /\ sentenceMatched sentence transcript = true)
  /\ (status (fst (calibration_result level sentence transcript)) = success ->
      snd (calibration_result level sentence transcript) = Some level)
  /\ (status (fst (calibration_result level sentence transcript)) <> success ->
      status (fst (calibration_result level sentence transcript)) = error
      /\ snd (calibration_result level sentence transcript) = None).
Proof.
  unfold calibration_result.
  destruct (level <? MIN_AUDIO_BASELINE) eqn:L.
  - apply Nat.ltb_lt in L. cbn [fst snd status].
    split; [|split]; try discriminate; auto.
    split; [discriminate|]. intros [H _]. lia.
  - apply Nat.ltb_ge in L.
    destruct (sentenceMatched sentence transcript) eqn:M;
      cbn [negb fst snd status].
    + split; [|split]; auto; [|congruence]. split; auto.
    + split; [|split]; try discriminate; auto.
      split; [discriminate|]. intros [_ H]. discriminate.
Qed.

Lemma initial_resumeSentence_words :
  normalizeText initial_resumeSentence
  = list_ascii_of_string "i confirm that i will follow all exam rules"
  /\ words (normalizeText initial_resumeSentence)
     = map list_ascii_of_string
         ["i"; "confirm"; "that"; "i"; "will"; "follow"; "all"; "exam";
          "rules"]%string.
Proof. split; vm_compute; reflexivity. Qed.

Lemma filter_has_nil (l : list text) : filter (has []) l = [].
Proof. induction l; simpl; auto. Qed.

(** When the sentence of the first render is matched. *)
Lemma sentenceMatched_initial transcript :
  sentenceMatched initial_resumeSentence transcript = true
  <-> exists t,
        transcript = Some t
        /\ (includes (normalizeText t)
              (list_ascii_of_string
                 "i confirm that i will follow all exam rules") = true
            \/ 7 <= List.length
                      (filter (has (words (normalizeText t)))
                         (map list_ascii_of_string
                            ["i"; "confirm"; "that"; "i"; "will"; "follow";
                             "all"; "exam"; "rules"]%string))).
Proof.
  rewrite sentenceMatched_spec
    by (destruct initial_resumeSentence_words as [_ ->]; reflexivity).
  destruct initial_resumeSentence_words as [-> ->].
  split.
  - intros (_ & t & Ht & _ & H). exists t. auto.
  - intros (t & Ht & H). split; [discriminate|]. exists t.
    split; [exact Ht|]. split; [|exact H].
    intros E. rewrite E in H. destruct H as [H|H].
    + discriminate H.
    + rewrite words_nil, filter_has_nil in H. simpl in H. lia.
Qed.

(** The calibration always checks the sentence of the first render, "I
    confirm that I will follow all exam rules.", whatever the sentence
    field holds when it runs.  It passes whenever the level is at least
    MIN_AUDIO_BASELINE and each of the words i, confirm, that, will, follow,
    all, exam, rules occurs in the transcript, in any order, in any letter
    case, with any punctuation and among any other words. *)
Theorem transcript_with_every_word_is_accepted :
  forall (level : nat) (resumeSentence transcript : text),
    MIN_AUDIO_BASELINE <= level ->
    (forall w,
        In w (map list_ascii_of_string
                ["i"; "confirm"; "that"; "will"; "follow"; "all"; "exam";
                 "rules"]%string) ->
        In w (words (normalizeText transcript))) ->
    audio_verdict level resumeSentence (Some transcript)
    = (mk_step success
         (Some ("Baseline audio level: "
                ++ NilEmpty.string_of_uint (Nat.to_uint level) ++ "%")%string)
         (Some level),
       Some level).
Proof.
  intros level resumeSentence transcript Hl Hw.
  assert (M : sentenceMatched initial_resumeSentence (Some transcript) = true).
  { apply sentenceMatched_initial. exists transcript. split; [reflexivity|].
    right. rewrite filter_length_all; [simpl; lia|].
    intros w Hin. apply has_In. apply Hw. simpl in Hin |- *. intuition. }
  unfold audio_verdict, calibration_result. rewrite M.
  apply Nat.ltb_ge in Hl. rewrite Hl. reflexivity.
Qed.

Lemma transcript_with_every_word_is_accepted_witness :
  status
    (fst (audio_verdict 40
            (list_ascii_of_string "Hello.")
            (Some (list_ascii_of_string
                     "so, I will CONFIRM that I follow all exam rules"))))
  = success.
Proof.
  rewrite transcript_with_every_word_is_accepted.
  - reflexivity.
  - unfold MIN_AUDIO_BASELINE. lia.
  - vm_compute. intuition.
Defined.

(** Success of the calibration is exactly this, whatever the sentence
    field holds: the level is at least MIN_AUDIO_BASELINE, there is a
    transcript, and the normalized transcript contains "i confirm that i
    will follow all exam rules" or has at least seven of its nine words
    (i counted twice when it occurs).  audioBaseline is stored on success
    only, and is the level; every other outcome is an error. *)
Theorem calibration_succeeds_only_on_a_match :
  forall (level : nat) (resumeSentence : text) (transcript : option text),
    (status (fst (audio_verdict level resumeSentence transcript)) = success
     <-> MIN_AUDIO_BASELINE <= level
         /\ exists t,
              transcript = Some t
              /\ (includes (normalizeText t)
                    (list_ascii_of_string
                       "i confirm that i will follow all exam rules") = true
                  \/ 7 <= List.length
                            (filter (has (words (normalizeText t)))
                               (map list_ascii_of_string
                                  ["i"; "confirm"; "that"; "i"; "will";
                                   "follow"; "all"; "exam";
                                   "rules"]%string))))
    /\ (status (fst (audio_verdict level resumeSentence transcript)) = success
        -> snd (audio_verdict level resumeSentence transcript) = Some level)
    /\ (status (fst (audio_verdict level resumeSentence transcript))
        <> success ->
        status (fst (audio_verdict level resumeSentence transcript)) = error
        /\ snd (audio_verdict level resumeSentence transcript) = None).
Proof.
  intros level resumeSentence transcript. unfold audio_verdict.
  destruct (calibration_result_spec level initial_resumeSentence transcript)
    as (S & A & B).
  split; [|split; [exact A | exact B]].
  rewrite S, sentenceMatched_initial. reflexivity.
Qed.

Lemma calibration_succeeds_only_on_a_match_witness :
  status
    (fst (audio_verdict 40
            (list_ascii_of_string "I confirm that I will follow")
            (Some (list_ascii_of_string "I confirm that I will follow"))))
  = error
  /\ snd (audio_verdict 40
            (list_ascii_of_string "I confirm that I will follow")
            (Some (list_ascii_of_string "I confirm that I will follow")))
     = None.
Proof.
  destruct (calibration_succeeds_only_on_a_match 40
              (list_ascii_of_string "I confirm that I will follow")
              (Some (list_ascii_of_string "I confirm that I will follow")))
    as (_ & _ & H).
  apply H. vm_compute. discriminate.
Defined.

End SpeechProperties.

(* ================================================================== *)
(** * Overall status *)
(* ================================================================== *)

Section OverallProperties.
Import Detector Overall PrimFloat.

Lemma passed_steps_le p :
  (List.length (filter is_success (step_states p)) <= 6)%nat.
Proof.
  unfold step_states. cbn [filter].
  destruct (is_success (systemInfo p)), (is_success (networkTest p)),
    (is_success (screenShare p)), (is_success (audioCalibration p)),
    (is_success (lightingCheck p)), (is_success (singleTabCheck p));
    cbn [List.length]; lia.
Qed.

Lemma all_passed_six p :
  allStepsPassed p = true
  <-> List.length (filter is_success (step_states p)) = 6%nat.
Proof.
  unfold allStepsPassed, step_states. cbn [filter].
  destruct (is_success (systemInfo p)), (is_success (networkTest p)),
    (is_success (screenShare p)), (is_success (audioCalibration p)),
    (is_success (lightingCheck p)), (is_success (singleTabCheck p));
    cbn [andb List.length]; split; intros H; try reflexivity;
    discriminate H.
Qed.

(** The seven values of the bar, in doubles. *)
Lemma progress_values (n m : nat) :
  (n <= 6)%nat -> (m <= 6)%nat ->
  (Double.of_nat n / 6 * 100 = 100 <-> n = 6%nat)%float
  /\ (0 <=? Double.of_nat n / 6 * 100)%float = true
  /\ (Double.of_nat n / 6 * 100 <=? 100)%float = true
  /\ ((n < m)%nat ->
      (Double.of_nat n / 6 * 100 <? Double.of_nat m / 6 * 100)%float = true).
Proof.
  intros Hn Hm.
  assert (Cn : (n = 0 \/ n = 1 \/ n = 2 \/ n = 3 \/ n = 4 \/ n = 5
                \/ n = 6)%nat) by lia.
  assert (Cm : (m = 0 \/ m = 1 \/ m = 2 \/ m = 3 \/ m = 4 \/ m = 5
                \/ m = 6)%nat) by lia.
  clear Hn Hm.
  repeat (destruct Cn as [Cn | Cn]); subst n;
    (split; [split; intros H; try reflexivity; try discriminate H;
             assert (E := f_equal (fun x => PrimFloat.eqb x 100%float) H);
             vm_compute in E; discriminate E|]);
    (split; [vm_compute; reflexivity|]);
    (split; [vm_compute; reflexivity|]);
    intros Hlt;
    repeat (destruct Cm as [Cm | Cm]); subst m;
    try lia; vm_compute; reflexivity.
Qed.

(** The progress bar, computed in doubles as the page does, shows 100
    exactly when "Continue to Exam" is enabled; its value is between 0 and
    100, and a page with more passed steps shows a larger value. *)
Theorem progress_is_full_iff_continue_enabled :
  forall p : page,
    (progress p = 100%float <-> continue_disabled p = false)
    /\ (0 <=? progress p)%float = true
    /\ (progress p <=? 100)%float = true
    /\ (forall q : page,
          (List.length (filter is_success (step_states p))
           < List.length (filter is_success (step_states q)))%nat ->
          (progress p <? progress q)%float = true).
Proof.
  intros p. unfold progress, continue_disabled.
  split; [|split; [|split]].
  - destruct (progress_values _ 0 (passed_steps_le p) ltac:(lia)) as [H _].
    rewrite H, <- all_passed_six.
    destruct (allStepsPassed p); simpl; split; congruence.
  - apply (progress_values _ 0 (passed_steps_le p) ltac:(lia)).
  - apply (progress_values _ 0 (passed_steps_le p) ltac:(lia)).
  - intros q Hlt.
    now apply (progress_values _ _ (passed_steps_le p) (passed_steps_le q)).
Qed.

End OverallProperties.
